(** * Contact-enrichment core: a shallow embedding and its properties

    The development follows the Python sources module by module:
    [models.py] (field validators, quality score), [scraper.py] (crawl
    traversal, contact extraction), [extractor.py] (response parsing,
    deduplication), [validator.py] (messaging-channel verification) and
    [main.py] (per-entity isolation in the orchestrator).

    Python [str] values are modelled as lists of characters ([list ascii]);
    the text handled is taken to be ASCII, so [\d], [\s], [lower()] and
    [strip()] are the ASCII instances of the Python operations.  Python
    floats are idealised as exact rationals ([Q]). *)

From Stdlib Require Import ZArith QArith Qround Qminmax Lqa Ascii String List Lia Bool.
From Stdlib Require Import Sorting.Sorted.
From stdpp Require Import base gmap sets list strings.

Local Open Scope nat_scope.
Local Open Scope list_scope.

(** * Part I: the embedding *)

(** ** Python strings *)

Module Str.

Abbreviation str := (list ascii).

(** A string literal as a [str]. *)
Definition txt (s : string) : str := list_ascii_of_string s.

Definition code (c : ascii) : nat := nat_of_ascii c.

(** [\d] *)
Definition is_digit (c : ascii) : bool :=
  (48 <=? code c) && (code c <=? 57).

(** [\s]: tab, LF, VT, FF, CR, the four separators FS GS RS US, space. *)
Definition is_space (c : ascii) : bool :=
  ((9 <=? code c) && (code c <=? 13))
  || ((28 <=? code c) && (code c <=? 31))
  || (code c =? 32).

Definition is_char (x c : ascii) : bool := Ascii.eqb x c.


(** [c.lower()] on one character. *)
Definition lower_char (c : ascii) : ascii :=
  if (65 <=? code c) && (code c <=? 90) then ascii_of_nat (code c + 32) else c.

Definition lower (s : str) : str := map lower_char s.

(** [s.strip()] *)
Fixpoint lstrip (s : str) : str :=
  match s with
  | c :: s' => if is_space c then lstrip s' else s
  | [] => []
  end.

Definition rstrip (s : str) : str := rev (lstrip (rev s)).

Definition strip (s : str) : str := rstrip (lstrip s).

(** [s.startswith(p)] *)
Fixpoint startswith (p s : str) : bool :=
  match p, s with
  | [], _ => true
  | a :: p', b :: s' => Ascii.eqb a b && startswith p' s'
  | _ :: _, [] => false
  end.

(** [needle in hay] *)
Fixpoint contains (needle hay : str) : bool :=
  startswith needle hay
  || match hay with
     | [] => false
     | _ :: hay' => contains needle hay'
     end.

(** [s.replace(" ", "")] *)
Definition remove_spaces (s : str) : str :=
  List.filter (fun c => negb (is_char " " c)) s.

(** Truthiness of an [Optional[str]]: [None] and [""] are false. *)
Definition truthy (o : option str) : bool :=
  match o with
  | Some (_ :: _) => true
  | _ => false
  end.

(** [list(set(xs))]: the distinct elements, in an order the program does
    not control. *)
Definition list_set (xs : list str) : list str :=
  elements (list_to_set xs : gset str).

End Str.

Import Str.

(** ** Regular expressions as the [re] module runs them

    A backtracking matcher in continuation-passing style: alternatives are
    tried left to right, a greedy star tries one more iteration before it
    tries to stop and a lazy star the other way round, and the first
    complete match wins. An iteration of a star has to consume something;
    the patterns of the sources only star character classes, for which this
    is no restriction. One capturing group is kept, which is all these
    patterns have. *)

Module Re.

Inductive regex : Type :=
| Eps : regex
| Cls : (ascii -> bool) -> regex
| Cat : regex -> regex -> regex
| Alt : regex -> regex -> regex
| Star : bool -> regex -> regex
| Grp : regex -> regex
| Bol : regex
| Eol : regex.

(** Matcher state: offset in the subject, text still to read, group 1. *)
Record mstate : Type := MState { pos : nat; rest : str; grp : option str }.

Definition orelse {A} (x y : option A) : option A :=
  match x with Some _ => x | None => y end.

(** The iterations of a star whose body is run by [body]: at most [n] more,
    each of which has to consume something. *)
Fixpoint star_loop (body : (mstate -> option mstate) -> mstate -> option mstate)
    (greedy : bool) (k : mstate -> option mstate) (n : nat) (st : mstate)
  : option mstate :=
  let more :=
    match n with
    | 0 => None
    | S n' =>
      body (fun st' =>
              if pos st <? pos st' then star_loop body greedy k n' st' else None)
           st
    end in
  if greedy then orelse more (k st) else orelse (k st) more.

Fixpoint bt (r : regex) (k : mstate -> option mstate) (st : mstate)
  : option mstate :=
  match r with
  | Eps => k st
  | Cls p =>
    match rest st with
    | c :: s' => if p c then k (MState (S (pos st)) s' (grp st)) else None
    | [] => None
    end
  | Cat r1 r2 => bt r1 (bt r2 k) st
  | Alt r1 r2 => orelse (bt r1 k st) (bt r2 k st)
  | Star greedy r1 => star_loop (bt r1) greedy k (length (rest st)) st
  | Grp r1 =>
    bt r1 (fun st' =>
             k (MState (pos st') (rest st')
                       (Some (take (pos st' - pos st) (rest st))))) st
  | Bol => if pos st =? 0 then k st else None
  | Eol =>
    match rest st with
    | [] => k st
    | [c] => if is_char "010" c then k st else None
    | _ => None
    end
  end.

(** What a match is, without the search order: [rmatch r st st'] says that
    [r] can take the matcher from [st] to [st']. *)
Inductive rmatch : regex -> mstate -> mstate -> Prop :=
| M_Eps st : rmatch Eps st st
| M_Cls p st c s' :
    rest st = c :: s' -> p c = true ->
    rmatch (Cls p) st (MState (S (pos st)) s' (grp st))
| M_Cat r1 r2 st st1 st2 :
    rmatch r1 st st1 -> rmatch r2 st1 st2 -> rmatch (Cat r1 r2) st st2
| M_AltL r1 r2 st st' : rmatch r1 st st' -> rmatch (Alt r1 r2) st st'
| M_AltR r1 r2 st st' : rmatch r2 st st' -> rmatch (Alt r1 r2) st st'
| M_Star0 g r st : rmatch (Star g r) st st
| M_StarS g r st st1 st2 :
    rmatch r st st1 -> pos st < pos st1 -> rmatch (Star g r) st1 st2 ->
    rmatch (Star g r) st st2
| M_Grp r st st' :
    rmatch r st st' ->
    rmatch (Grp r) st
           (MState (pos st') (rest st')
                   (Some (take (pos st' - pos st) (rest st))))
| M_Bol st : pos st = 0 -> rmatch Bol st st
| M_Eol st :
    rest st = [] \/ rest st = ["010"%char] -> rmatch Eol st st.

(** The texts a pattern can read, whatever the position. *)
Fixpoint lang (r : regex) (u : str) : Prop :=
  match r with
  | Eps | Bol | Eol => u = []
  | Cls p => exists c, u = [c] /\ p c = true
  | Cat r1 r2 => exists u1 u2, u = u1 ++ u2 /\ lang r1 u1 /\ lang r2 u2
  | Alt r1 r2 => lang r1 u \/ lang r2 u
  | Star _ r1 => exists us, u = concat us /\ Forall (lang r1) us
  | Grp r1 => lang r1 u
  end.

(** Every character class of a pattern lies within [P]. *)
Fixpoint classes_within (P : ascii -> Prop) (r : regex) : Prop :=
  match r with
  | Eps | Bol | Eol => True
  | Cls p => forall c, p c = true -> P c
  | Cat r1 r2 | Alt r1 r2 => classes_within P r1 /\ classes_within P r2
  | Star _ r1 | Grp r1 => classes_within P r1
  end.

(** Derived forms: [r+], [r?], literals, [r{n}], [r{lo,hi}]. *)
Definition Plus (greedy : bool) (r : regex) : regex := Cat r (Star greedy r).

Definition Opt (r : regex) : regex := Alt r Eps.

Fixpoint lit (s : str) : regex :=
  match s with
  | [] => Eps
  | c :: s' => Cat (Cls (is_char c)) (lit s')
  end.

(** A literal under [re.IGNORECASE]. *)
Definition is_char_ci (x c : ascii) : bool :=
  Ascii.eqb (lower_char x) (lower_char c).

Fixpoint lit_ci (s : str) : regex :=
  match s with
  | [] => Eps
  | c :: s' => Cat (Cls (is_char_ci c)) (lit_ci s')
  end.

Fixpoint Rep (n : nat) (r : regex) : regex :=
  match n with
  | 0 => Eps
  | S n' => Cat r (Rep n' r)
  end.

Fixpoint Upto (n : nat) (r : regex) : regex :=
  match n with
  | 0 => Eps
  | S n' => Opt (Cat r (Upto n' r))
  end.

Definition Range (lo hi : nat) (r : regex) : regex :=
  Cat (Rep lo r) (Upto (hi - lo) r).

(** [re.match(r, s)] *)
Definition re_match (r : regex) (s : str) : option mstate :=
  bt r Some (MState 0 s None).

(** [re.search(r, s)]: the leftmost offset at which a match starts. *)
Fixpoint search_from (r : regex) (p : nat) (s : str) : option mstate :=
  match bt r Some (MState p s None) with
  | Some st => Some st
  | None =>
    match s with
    | [] => None
    | _ :: s' => search_from r (S p) s'
    end
  end.

Definition re_search (r : regex) (s : str) : option mstate :=
  search_from r 0 s.

(** [m.group(1)] *)
Definition group1 (st : mstate) : str := default [] (grp st).

(** [re.finditer(r, s)]: successive non-overlapping matches; after an
    empty match the scan moves one character on. *)
Fixpoint finditer_from (fuel : nat) (r : regex) (p : nat) (s : str)
  : list mstate :=
  match fuel with
  | 0 => []
  | S fuel' =>
    match bt r Some (MState p s None) with
    | Some st =>
      st :: (if p <? pos st then finditer_from fuel' r (pos st) (rest st)
             else match s with
                  | [] => []
                  | _ :: s' => finditer_from fuel' r (S p) s'
                  end)
    | None =>
      match s with
      | [] => []
      | _ :: s' => finditer_from fuel' r (S p) s'
      end
    end
  end.

Definition re_finditer (r : regex) (s : str) : list mstate :=
  finditer_from (S (length s)) r 0 s.

(** [re.findall(r, s)] for a pattern with one group. *)
Definition re_findall (r : regex) (s : str) : list str :=
  map group1 (re_finditer r s).

End Re.

Import Re.

(** ** Phone normalisation ([scraper.py], [validator.py]) *)

(** [re.sub(r'[^\d+]', '', phone)] *)
Definition keep_digit_plus (c : ascii) : bool := is_digit c || is_char "+" c.

Definition clean_phone (phone : str) : str := List.filter keep_digit_plus phone.

(** [WebScraper._normalize_indonesian_phone] *)
Definition _normalize_indonesian_phone (phone : str) : option str :=
  match phone with
  | [] => None
  | _ =>
    let cleaned := clean_phone phone in
    if length cleaned <? 10 then None
    else if startswith (txt "08") cleaned then Some (txt "+62" ++ drop 1 cleaned)
    else if startswith (txt "62") cleaned && negb (startswith (txt "+") cleaned)
      then Some (txt "+" ++ cleaned)
    else if startswith (txt "+62") cleaned then Some cleaned
    else if startswith (txt "0") cleaned then Some (txt "+62" ++ drop 1 cleaned)
    else None
  end.

(** [ContactValidator._normalize_phone] *)
Definition _normalize_phone (phone : str) : option str :=
  match phone with
  | [] => None
  | _ =>
    let cleaned := clean_phone phone in
    if startswith (txt "08") cleaned then Some (txt "+62" ++ drop 1 cleaned)
    else if startswith (txt "62") cleaned && negb (startswith (txt "+") cleaned)
      then Some (txt "+" ++ cleaned)
    else if startswith (txt "+62") cleaned then Some cleaned
    else None
  end.

Definition all_digits (s : str) : Prop := Forall (fun c => is_digit c = true) s.

(** ** [models.py] *)

Inductive RolePriority : Type := HIGHEST | HIGH | MEDIUM | LOW | LOWEST.

(** [list(RolePriority).index(p)] *)
Definition priority_index (p : RolePriority) : nat :=
  match p with
  | HIGHEST => 0
  | HIGH => 1
  | MEDIUM => 2
  | LOW => 3
  | LOWEST => 4
  end.

Record DecisionMaker : Type := mkDecisionMaker {
  name : option str;
  role : option str;
  role_indonesian : option str;
  priority : RolePriority;
  email : option str;
  phone : option str;
  whatsapp : option str;
  whatsapp_verified : bool;
  email_verified : bool;
  email_is_personal : bool;
  linkedin_url : option str;
  source_url : option str;
  confidence : Q
}.

(** [r'wa\.me/(\d+)'] and [r'phone=(\d+)'] of [normalize_whatsapp]. *)
Definition wa_me_match_re : regex :=
  Cat (lit (txt "wa.me/")) (Grp (Plus true (Cls is_digit))).

Definition api_match_re : regex :=
  Cat (lit (txt "phone=")) (Grp (Plus true (Cls is_digit))).

(** [DecisionMaker.normalize_whatsapp], the validator of the [whatsapp]
    field. *)
Definition normalize_whatsapp (v : option str) : option str :=
  match v with
  | None | Some [] => None
  | Some v =>
    match re_search wa_me_match_re v with
    | Some wa_me_match => Some (txt "+" ++ group1 wa_me_match)
    | None =>
      match re_search api_match_re v with
      | Some api_match => Some (txt "+" ++ group1 api_match)
      | None =>
        let cleaned := clean_phone v in
        if startswith (txt "08") cleaned then Some (txt "+62" ++ drop 1 cleaned)
        else if startswith (txt "62") cleaned then Some (txt "+" ++ cleaned)
        else if startswith (txt "+62") cleaned then Some cleaned
        else Some v
      end
    end
  end.

Record SchoolData : Type := mkSchoolData {
  school_name : str;
  school_type : str;
  location : str;
  npsn : option str;
  npyp : option str;
  foundation_name : option str;
  foundation_established : option str;
  decision_makers : list DecisionMaker;
  official_website : option str;
  official_email : option str;
  whatsapp_business : option str;
  phone_numbers : list str;
  instagram : option str;
  facebook : option str;
  youtube : option str;
  tech_stack : list str;
  source_urls : list str;
  last_updated : option str;
  data_quality_score : Q;
  processing_notes : option str
}.

Local Open Scope Q_scope.

(** [round(x, 2)]: to the nearest hundredth, ties to the even one. *)
Definition round_half_even (y : Q) : Z :=
  let f := Qfloor y in
  match Qcompare (y - inject_Z f) (1 # 2) with
  | Lt => f
  | Gt => (f + 1)%Z
  | Eq => if Z.even f then f else (f + 1)%Z
  end.

Definition round2 (x : Q) : Q := inject_Z (round_half_even (x * 100)) / 100.

(** The checklist of [calculate_quality_score]. *)
Definition checks (self : SchoolData) : list (bool * Q) :=
  [ (truthy (foundation_name self), 1 # 10);
    (truthy (npsn self), 1 # 10);
    (truthy (official_website self), 1 # 10);
    (truthy (official_email self), 15 # 100);
    (truthy (whatsapp_business self), 2 # 10);
    ((0 <? length (decision_makers self))%nat, 15 # 100);
    (existsb (fun dm => truthy (whatsapp dm)) (decision_makers self), 1 # 10);
    (existsb (fun dm => truthy (linkedin_url dm)) (decision_makers self), 5 # 100);
    (truthy (instagram self), 25 # 1000);
    (truthy (facebook self), 25 # 1000) ].

(** The [for check, weight in checks] loop on [(score, total_weight)]. *)
Definition add_check (acc : Q * Q) (cw : bool * Q) : Q * Q :=
  let '(score, total_weight) := acc in
  let '(check, weight) := cw in
  (if check then score + weight else score, total_weight + weight).

Definition verified_contacts (self : SchoolData) : nat :=
  length (List.filter (fun dm => whatsapp_verified dm && email_verified dm)
                      (decision_makers self)).

Definition verification_bonus (verified : nat) : Q :=
  Qmin (3 # 10) (inject_Z (Z.of_nat verified) * (1 # 10)).



(** [SchoolData.calculate_quality_score]: the value it returns (and stores
    in [data_quality_score]). *)
Definition calculate_quality_score (self : SchoolData) : Q :=
  let '(score, total_weight) := fold_left add_check (checks self) (0, 0) in
  let '(score, total_weight) :=
    if (0 <? verified_contacts self)%nat
    then (score + verification_bonus (verified_contacts self),
          total_weight + verification_bonus (verified_contacts self))
    else (score, total_weight) in
  if Qlt_le_dec 0 total_weight then round2 (score / total_weight) else 0.

Local Close Scope Q_scope.

Definition set_decision_makers (self : SchoolData) (dms : list DecisionMaker)
  : SchoolData :=
  mkSchoolData (school_name self) (school_type self) (location self)
    (npsn self) (npyp self) (foundation_name self)
    (foundation_established self) dms (official_website self)
    (official_email self) (whatsapp_business self) (phone_numbers self)
    (instagram self) (facebook self) (youtube self) (tech_stack self)
    (source_urls self) (last_updated self) (data_quality_score self)
    (processing_notes self).

Definition set_lists (self : SchoolData) (phones urls : list str) : SchoolData :=
  mkSchoolData (school_name self) (school_type self) (location self)
    (npsn self) (npyp self) (foundation_name self)
    (foundation_established self) (decision_makers self)
    (official_website self) (official_email self) (whatsapp_business self)
    phones (instagram self) (facebook self) (youtube self) (tech_stack self)
    urls (last_updated self) (data_quality_score self) (processing_notes self).

Definition set_quality_score (self : SchoolData) (q : Q) : SchoolData :=
  mkSchoolData (school_name self) (school_type self) (location self)
    (npsn self) (npyp self) (foundation_name self)
    (foundation_established self) (decision_makers self)
    (official_website self) (official_email self) (whatsapp_business self)
    (phone_numbers self) (instagram self) (facebook self) (youtube self)
    (tech_stack self) (source_urls self) (last_updated self) q
    (processing_notes self).

(** ** [extractor.py]: deduplication *)

(** [dm.name.lower().strip()] *)
Definition name_key (dm : DecisionMaker) : str :=
  strip (lower (default [] (name dm))).

(** The deduplication loop, on [(seen_names, unique_dms)]. *)
Fixpoint dedup_loop (dms : list DecisionMaker) (seen_names : gset str)
    (unique_dms : list DecisionMaker) : list DecisionMaker :=
  match dms with
  | [] => unique_dms
  | dm :: dms' =>
    if truthy (name dm) then
      if decide (name_key dm ∈ seen_names)
      then dedup_loop dms' seen_names unique_dms
      else dedup_loop dms' ({[name_key dm]} ∪ seen_names) (unique_dms ++ [dm])
    else dedup_loop dms' seen_names unique_dms
  end.

(** [list.sort(key=...)]: the stable sort, here by insertion. *)
Fixpoint insert_by {A} (key : A -> nat) (x : A) (l : list A) : list A :=
  match l with
  | [] => [x]
  | y :: l' => if key x <=? key y then x :: l else y :: insert_by key x l'
  end.

Fixpoint sort_by {A} (key : A -> nat) (l : list A) : list A :=
  match l with
  | [] => []
  | x :: l' => insert_by key x (sort_by key l')
  end.

Definition tier (dm : DecisionMaker) : nat := priority_index (priority dm).

(** [LLMExtractor.validate_and_deduplicate] *)
Definition validate_and_deduplicate (school_data : SchoolData) : SchoolData :=
  let unique_dms := dedup_loop (decision_makers school_data) ∅ [] in
  let school_data := set_decision_makers school_data (sort_by tier unique_dms) in
  let school_data :=
    set_lists school_data (list_set (phone_numbers school_data))
              (list_set (source_urls school_data)) in
  set_quality_score school_data (calculate_quality_score school_data).

(** ** [scraper.py]: WhatsApp extraction *)

(** [re.compile(r'wa\.me/(\d+)', re.IGNORECASE)] *)
Definition wa_me_pattern : regex :=
  Cat (lit_ci (txt "wa.me/")) (Grp (Plus true (Cls is_digit))).

(** [re.compile(r'api\.whatsapp\.com/send\?phone=(\d+)', re.IGNORECASE)] *)
Definition api_pattern : regex :=
  Cat (lit_ci (txt "api.whatsapp.com/send?phone="))
      (Grp (Plus true (Cls is_digit))).

(** [[:\s]] and [[\d\s\-()]] *)
Definition colon_or_space (c : ascii) : bool := is_char ":" c || is_space c.

Definition phone_body (c : ascii) : bool :=
  is_digit c || is_space c || is_char "-" c || is_char "(" c || is_char ")" c.

(** [re.compile(r'(?:WA|WhatsApp|Whatsapp)[:\s]*([+]?[\d\s\-()]+)',
    re.IGNORECASE)] *)
Definition phone_pattern : regex :=
  Cat (Alt (lit_ci (txt "WA"))
           (Alt (lit_ci (txt "WhatsApp")) (lit_ci (txt "Whatsapp"))))
      (Cat (Star true (Cls colon_or_space))
           (Grp (Cat (Opt (Cls (is_char "+"))) (Plus true (Cls phone_body))))).

(** The two deep-link loops: [f"+{num}"] when [num] starts with 62, else
    [f"+62{num}"]. *)
Definition deep_link_number (num : str) : str :=
  if startswith (txt "62") num then txt "+" ++ num else txt "+62" ++ num.

(** The labelled free-text loop. *)
Definition labelled_number (m : mstate) : option str :=
  _normalize_indonesian_phone (clean_phone (group1 m)).

(** The list [whatsapp_numbers] before [list(set(...))]. *)
Definition whatsapp_numbers (text : str) : list str :=
  ((fun m => deep_link_number (group1 m)) <$> re_finditer wa_me_pattern text)
  ++ ((fun m => deep_link_number (group1 m)) <$> re_finditer api_pattern text)
  ++ omap labelled_number (re_finditer phone_pattern text).

(** [WebScraper.extract_whatsapp_links] *)
Definition extract_whatsapp_links (text : str) : list str :=
  list_set (whatsapp_numbers text).

(** ** [scraper.py]: phone extraction *)

(** [[\d\s\-]] and [[\s\-]] *)
Definition digit_space_hyphen (c : ascii) : bool :=
  is_digit c || is_space c || is_char "-" c.

Definition space_or_hyphen (c : ascii) : bool := is_space c || is_char "-" c.

(** [r'(\+62[\d\s\-]{8,15})'], [r'(62[\d\s\-]{8,15})'],
    [r'(08[\d\s\-]{8,13})'] and [r'(0\d{2,3}[\s\-]?\d{6,8})']. *)
Definition phone_patterns : list regex :=
  [ Grp (Cat (lit (txt "+62")) (Range 8 15 (Cls digit_space_hyphen)));
    Grp (Cat (lit (txt "62")) (Range 8 15 (Cls digit_space_hyphen)));
    Grp (Cat (lit (txt "08")) (Range 8 13 (Cls digit_space_hyphen)));
    Grp (Cat (lit (txt "0"))
             (Cat (Range 2 3 (Cls is_digit))
                  (Cat (Opt (Cls space_or_hyphen)) (Range 6 8 (Cls is_digit))))) ].

(** The list [phones] before [list(set(...))]. *)
Definition phones_found (text : str) : list str :=
  mjoin ((fun pattern =>
            omap (fun m => _normalize_indonesian_phone (group1 m))
                 (re_finditer pattern text)) <$> phone_patterns).

(** [WebScraper.extract_all_phone_numbers] *)
Definition extract_all_phone_numbers (text : str) : list str :=
  list_set (phones_found text).

(** ** [scraper.py]: crawl traversal *)

Record ScrapedPage : Type := mkScrapedPage {
  url : str;
  title : str;
  html_content : str;
  text_content : str;
  links : list str;
  success : bool;
  error : option str
}.

(** [config.PRIORITY_PAGES] *)
Definition PRIORITY_PAGES : list str :=
  map txt
    [ "tentang-kami"; "tentang"; "profil"; "struktur-organisasi"; "pengurus";
      "kontak"; "hubungi-kami"; "hubungi"; "visi-misi"; "yayasan";
      "foundation"; "about"; "about-us"; "organization"; "structure";
      "leadership"; "board"; "team"; "contact"; "contact-us"; "profile" ]%string.

(** [any(kw in link.lower() for kw in config.PRIORITY_PAGES)] *)
Definition is_priority_link (link : str) : bool :=
  existsb (fun kw => contains kw (lower link)) PRIORITY_PAGES.

Definition str_eqb (a b : str) : bool := bool_decide (a = b).

Definition in_list (x : str) (l : list str) : bool := bool_decide (x ∈ l).

Definition in_set (x : str) (s : gset str) : bool := bool_decide (x ∈ s).

(** The state of the [while] loop; [scraped_log] keeps the URLs of the
    "Scraping:" log lines, that is the fetches in the order they happen. *)
Record crawl_state : Type := mkCrawl {
  to_visit : list str;
  visited_urls : gset str;
  pages : list ScrapedPage;
  scraped_log : list str
}.

Section Crawl.

(** [scrape_page] is the page fetcher (the page graph), [netloc] is
    [urlparse(u).netloc]. *)
Variable scrape_page : str -> ScrapedPage.
Variable netloc : str -> str.

(** [for link in page.links]: the split into [(priority_links, other_links)]. *)
Definition classify_links (visited : gset str) (page_links : list str)
  : list str * list str :=
  fold_left
    (fun '(priority_links, other_links) link =>
       if is_priority_link link then (priority_links ++ [link], other_links)
       else if negb (in_set link visited)
            then (priority_links, other_links ++ [link])
            else (priority_links, other_links))
    page_links ([], []).

(** [for link in priority_links: ... to_visit.insert(0, link)] *)
Definition add_priority_links (visited : gset str) (priority_links : list str)
    (to_visit : list str) : list str :=
  fold_left
    (fun to_visit link =>
       if negb (in_set link visited) && negb (in_list link to_visit)
       then link :: to_visit else to_visit)
    priority_links to_visit.

(** [for link in other_links: ... to_visit.append(link)] *)
Definition add_other_links (visited : gset str) (other_links : list str)
    (to_visit : list str) : list str :=
  fold_left
    (fun to_visit link =>
       if negb (in_set link visited) && negb (in_list link to_visit)
       then to_visit ++ [link] else to_visit)
    other_links to_visit.

(** [while to_visit and len(pages) < max_pages] *)
Definition loop_cond (max_pages : Z) (st : crawl_state) : bool :=
  match to_visit st with
  | [] => false
  | _ :: _ => (Z.of_nat (length (pages st)) <? max_pages)%Z
  end.

(** One run of the loop body. *)
Definition loop_body (domain : str) (st : crawl_state) : crawl_state :=
  match to_visit st with
  | [] => st
  | url :: to_visit' =>
    if in_set url (visited_urls st)
    then mkCrawl to_visit' (visited_urls st) (pages st) (scraped_log st)
    else
      let visited := {[url]} ∪ visited_urls st in
      if negb (str_eqb (netloc url) domain)
      then mkCrawl to_visit' visited (pages st) (scraped_log st)
      else
        let log := scraped_log st ++ [url] in
        let page := scrape_page url in
        if success page then
          let '(priority_links, other_links) :=
            classify_links visited (links page) in
          let to_visit1 := add_priority_links visited priority_links to_visit' in
          let to_visit2 := add_other_links visited other_links to_visit1 in
          mkCrawl to_visit2 visited (pages st ++ [page]) log
        else mkCrawl to_visit' visited (pages st) log
  end.

Fixpoint crawl_loop (fuel : nat) (domain : str) (max_pages : Z)
    (st : crawl_state) : option crawl_state :=
  match fuel with
  | 0 => None
  | S fuel' =>
    if loop_cond max_pages st
    then crawl_loop fuel' domain max_pages (loop_body domain st)
    else Some st
  end.

Definition crawl_init (base_url : str) : crawl_state :=
  mkCrawl [base_url] ∅ [] [].

(** [WebScraper.scrape_school_website]: the final loop state, of which
    [pages] is the returned list. *)
Definition scrape_school_website (fuel : nat) (base_url : str) (max_pages : Z)
  : option crawl_state :=
  crawl_loop fuel (netloc base_url) max_pages (crawl_init base_url).

(** The fetch of [u] succeeds. *)
Definition fetched_ok (u : str) : Prop := success (scrape_page u) = true.

#[global] Instance fetched_ok_dec (u : str) : Decision (fetched_ok u) :=
  decide (success (scrape_page u) = true).

(** What holds of every state the loop goes through: the pages are those of
    the successful fetches, in fetch order; a fetched URL is marked visited
    and is fetched once; and [max_pages] bounds the number of pages. *)
Definition crawl_inv (max_pages : Z) (st : crawl_state) : Prop :=
  pages st = scrape_page <$> filter fetched_ok (scraped_log st)
  /\ (forall u, u ∈ scraped_log st -> u ∈ visited_urls st)
  /\ NoDup (scraped_log st)
  /\ (Z.of_nat (length (pages st)) <= Z.max 0 max_pages)%Z.

(** *** The same loop with the to-visit list split in two

    The list of the source is always a block of priority links followed by a
    block of other links: the first is a stack (links are pushed and popped
    at its front), the second a queue. *)

Record split_state : Type := mkSplit {
  priority_stack : list str;
  normal_queue : list str;
  s_visited : gset str;
  s_pages : list ScrapedPage;
  s_log : list str
}.

Definition split_queued (link : str) (st_p st_n : list str) : bool :=
  in_list link st_p || in_list link st_n.

Definition push_priority_links (visited : gset str) (priority_links : list str)
    (p n : list str) : list str :=
  fold_left
    (fun p link =>
       if negb (in_set link visited) && negb (split_queued link p n)
       then link :: p else p)
    priority_links p.

Definition enqueue_other_links (visited : gset str) (other_links : list str)
    (p n : list str) : list str :=
  fold_left
    (fun n link =>
       if negb (in_set link visited) && negb (split_queued link p n)
       then n ++ [link] else n)
    other_links n.

Definition split_cond (max_pages : Z) (st : split_state) : bool :=
  match priority_stack st, normal_queue st with
  | [], [] => false
  | _, _ => (Z.of_nat (length (s_pages st)) <? max_pages)%Z
  end.

(** Pop from the priority stack first, else from the normal queue. *)
Definition split_pop (st : split_state) : option (str * list str * list str) :=
  match priority_stack st, normal_queue st with
  | url :: p, n => Some (url, p, n)
  | [], url :: n => Some (url, [], n)
  | [], [] => None
  end.

Definition split_body (domain : str) (st : split_state) : split_state :=
  match split_pop st with
  | None => st
  | Some (url, p, n) =>
    if in_set url (s_visited st)
    then mkSplit p n (s_visited st) (s_pages st) (s_log st)
    else
      let visited := {[url]} ∪ s_visited st in
      if negb (str_eqb (netloc url) domain)
      then mkSplit p n visited (s_pages st) (s_log st)
      else
        let log := s_log st ++ [url] in
        let page := scrape_page url in
        if success page then
          let '(priority_links, other_links) :=
            classify_links visited (links page) in
          let p1 := push_priority_links visited priority_links p n in
          let n1 := enqueue_other_links visited other_links p1 n in
          mkSplit p1 n1 visited (s_pages st ++ [page]) log
        else mkSplit p n visited (s_pages st) log
  end.

Fixpoint split_loop (fuel : nat) (domain : str) (max_pages : Z)
    (st : split_state) : option split_state :=
  match fuel with
  | 0 => None
  | S fuel' =>
    if split_cond max_pages st
    then split_loop fuel' domain max_pages (split_body domain st)
    else Some st
  end.

Definition split_init (base_url : str) : split_state :=
  mkSplit [base_url] [] ∅ [] [].

Definition crawl_stack_queue (fuel : nat) (base_url : str) (max_pages : Z)
  : option split_state :=
  split_loop fuel (netloc base_url) max_pages (split_init base_url).

(** The single list that a split state stands for. *)
Definition merge_state (st : split_state) : crawl_state :=
  mkCrawl (priority_stack st ++ normal_queue st) (s_visited st) (s_pages st)
          (s_log st).

(** *** The traversal as the specification words it (section 4.1)

    Two FIFO queues drained priority-first; the loop runs while a queue is
    non-empty and the visited count is below [max_pages]; a URL is skipped
    when visited or off scope; a fetched URL is marked visited; a failed
    fetch is recorded with [success = false]. *)

Record spec_state : Type := mkSpec {
  q_priority : list str;
  q_normal : list str;
  q_visited : gset str;
  q_pages : list ScrapedPage;
  q_log : list str
}.

Definition spec_cond (max_pages : Z) (st : spec_state) : bool :=
  match q_priority st, q_normal st with
  | [], [] => false
  | _, _ => (Z.of_nat (size (q_visited st)) <? max_pages)%Z
  end.

Definition spec_pop (st : spec_state) : option (str * list str * list str) :=
  match q_priority st, q_normal st with
  | url :: p, n => Some (url, p, n)
  | [], url :: n => Some (url, [], n)
  | [], [] => None
  end.

(** Enqueue the unseen links of a page, each on the queue of its class. *)
Definition spec_enqueue (visited : gset str) (page_links : list str)
    (p n : list str) : list str * list str :=
  fold_left
    (fun '(p, n) link =>
       if in_set link visited || in_list link p || in_list link n then (p, n)
       else if is_priority_link link then (p ++ [link], n)
       else (p, n ++ [link]))
    page_links (p, n).

Definition spec_body (domain : str) (st : spec_state) : spec_state :=
  match spec_pop st with
  | None => st
  | Some (url, p, n) =>
    if in_set url (q_visited st) || negb (str_eqb (netloc url) domain)
    then mkSpec p n (q_visited st) (q_pages st) (q_log st)
    else
      let page := scrape_page url in
      let visited := {[url]} ∪ q_visited st in
      let log := q_log st ++ [url] in
      if success page then
        let '(p1, n1) := spec_enqueue visited (links page) p n in
        mkSpec p1 n1 visited (q_pages st ++ [page]) log
      else mkSpec p n visited (q_pages st ++ [page]) log
  end.

Fixpoint spec_loop (fuel : nat) (domain : str) (max_pages : Z)
    (st : spec_state) : option spec_state :=
  match fuel with
  | 0 => None
  | S fuel' =>
    if spec_cond max_pages st
    then spec_loop fuel' domain max_pages (spec_body domain st)
    else Some st
  end.

Definition spec_crawl (fuel : nat) (base_url : str) (max_pages : Z)
  : option spec_state :=
  spec_loop fuel (netloc base_url) max_pages (mkSpec [base_url] [] ∅ [] []).

End Crawl.

(** ** [extractor.py]: parsing the provider's response *)







Section ExtractJson.

(** [json.loads] by its contract: the parsed value, or [None] for
    [json.JSONDecodeError], the exception it raises on text that is not a
    valid document and the one [_extract_json] catches. *)
Variable JSON : Type.
Variable json_loads : str -> option JSON.





End ExtractJson.

(** ** [validator.py]: messaging-channel verification *)

Record wa_result : Type := mkWaResult {
  wa_exists : bool;
  is_mobile : bool;
  is_valid_format : bool
}.

(** [r'^\+628\d{8,10}$'] *)
Definition mobile_pattern : regex :=
  Cat Bol (Cat (lit (txt "+628")) (Cat (Range 8 10 (Cls is_digit)) Eol)).

(** [ContactValidator._check_whatsapp_api]: the placeholder of the source. *)
Definition _check_whatsapp_api (phone_number : str) : bool := false.

(** [ContactValidator.verify_whatsapp], on the instance's [whatsapp_cache]. *)
Definition verify_whatsapp (phone_number : str) (use_api : bool)
    (whatsapp_cache : gmap str bool) : wa_result * gmap str bool :=
  match _normalize_phone phone_number with
  | None | Some [] => (mkWaResult false false false, whatsapp_cache)
  | Some normalized =>
    let mobile :=
      startswith (txt "+628") normalized || startswith (txt "+62 8") normalized in
    match whatsapp_cache !! normalized with
    | Some cached => (mkWaResult cached mobile true, whatsapp_cache)
    | None =>
      let result :=
        if use_api
        then mkWaResult (_check_whatsapp_api normalized) mobile true
        else
          match re_match mobile_pattern (remove_spaces normalized) with
          | Some _ => mkWaResult true true true
          | None => mkWaResult false mobile true
          end in
      (result, <[normalized := wa_exists result]> whatsapp_cache)
    end
  end.

(** A sequence of calls on one validator instance. *)
Fixpoint verify_all (calls : list (str * bool)) (whatsapp_cache : gmap str bool)
  : gmap str bool :=
  match calls with
  | [] => whatsapp_cache
  | (phone_number, use_api) :: calls' =>
    verify_all calls' (verify_whatsapp phone_number use_api whatsapp_cache).2
  end.

(** ** [main.py]: the orchestrator *)

Record SchoolInput : Type := mkSchoolInput {
  input_name : str;
  input_type : str;
  input_location : str;
  notes : option str
}.

Inductive ProcessingStatus : Type :=
| PENDING | SEARCHING | SCRAPING | EXTRACTING | COMPLETED | FAILED.

(** [processing_time_seconds], a clock reading, is left out. *)
Record ProcessingResult : Type := mkResult {
  school_input : SchoolInput;
  school_data : option SchoolData;
  status : ProcessingStatus;
  error_message : option str;
  search_results_count : nat;
  pages_scraped : nat
}.



Section Orchestrator.

(** The outside world (network, provider, clock, caches) and what a
    collaborator may raise; [exn_str] is [str(e)]. *)
Variable World : Type.
Variable Exception : Type.
Variable exn_str : Exception -> str.

(** Code that may raise, on the world and the result under construction. *)
Definition M (A : Type) : Type :=
  ProcessingResult -> World -> ProcessingResult * World * (Exception + A).

Definition ret {A} (a : A) : M A := fun r w => (r, w, inr a).

Definition bind {A B} (m : M A) (f : A -> M B) : M B :=
  fun r w =>
    match m r w with
    | (r', w', inr a) => f a r' w'
    | (r', w', inl e) => (r', w', inl e)
    end.

Definition call {A} (f : World -> World * (Exception + A)) : M A :=
  fun r w => let '(w', x) := f w in (r, w', x).

Definition update (f : ProcessingResult -> ProcessingResult) : M unit :=
  fun r w => (f r, w, inr tt).

Notation "x <- m ;; k" := (bind m (fun x => k))
  (at level 100, m at next level, right associativity).
Notation "m ;;; k" := (bind m (fun _ => k))
  (at level 100, right associativity).

Definition set_status (s : ProcessingStatus) (r : ProcessingResult)
  : ProcessingResult :=
  mkResult (school_input r) (school_data r) s (error_message r)
           (search_results_count r) (pages_scraped r).

Definition set_error (msg : str) (r : ProcessingResult) : ProcessingResult :=
  mkResult (school_input r) (school_data r) (status r) (Some msg)
           (search_results_count r) (pages_scraped r).

Definition set_counts (f : nat -> nat) (g : nat -> nat) (r : ProcessingResult)
  : ProcessingResult :=
  mkResult (school_input r) (school_data r) (status r) (error_message r)
           (f (search_results_count r)) (g (pages_scraped r)).

Definition set_school_data (d : SchoolData) (r : ProcessingResult)
  : ProcessingResult :=
  mkResult (school_input r) (Some d) (status r) (error_message r)
           (search_results_count r) (pages_scraped r).

(** The collaborators behind the four phases of the pipeline. *)
Variables SearchOut ScrapeOut : Type.
Variable search_phase : SchoolInput -> World -> World * (Exception + SearchOut).
Variable count_results : SearchOut -> nat.
Variable has_official_url : SearchOut -> bool.
Variable scrape_phase :
  SchoolInput -> SearchOut -> World -> World * (Exception + ScrapeOut).
Variable count_pages : ScrapeOut -> nat.
Variable no_scrape : ScrapeOut.
Variable extract_and_merge :
  SchoolInput -> SearchOut -> ScrapeOut -> World -> World * (Exception + SchoolData).
Variable validate_contacts :
  SchoolData -> World -> World * (Exception + SchoolData).

(** The body of the [try] block of [enrich_school]. *)
Definition pipeline (school : SchoolInput) : M unit :=
  update (set_status SEARCHING) ;;;
  found <- call (search_phase school) ;;
  update (set_counts (fun _ => count_results found) id) ;;;
  scraped <-
    (if has_official_url found then
       update (set_status SCRAPING) ;;;
       s <- call (scrape_phase school found) ;;
       update (set_counts id (fun _ => count_pages s)) ;;;
       ret s
     else ret no_scrape) ;;
  update (set_status EXTRACTING) ;;;
  data <- call (extract_and_merge school found scraped) ;;
  data <- ret (validate_and_deduplicate data) ;;
  data <- call (validate_contacts data) ;;
  update (set_school_data data) ;;;
  update (set_status COMPLETED).

(** [LeadEnrichmentEngine.enrich_school]: [try: ... except Exception as e]. *)
Definition enrich_school (school : SchoolInput) (w : World)
  : ProcessingResult * World :=
  let result := mkResult school None SEARCHING None 0 0 in
  match pipeline school result w with
  | (result, w', inr _) => (result, w')
  | (result, w', inl e) =>
    (set_error (exn_str e) (set_status FAILED result), w')
  end.



End Orchestrator.

(** ** Reading aids for the deduplication step *)




(** Sample records. *)
Definition person (nm : string) (p : RolePriority) : DecisionMaker :=
  mkDecisionMaker (Some (txt nm)) None None p None None None false false false
                  None None 0%Q.

Definition school_of (dms : list DecisionMaker) : SchoolData :=
  mkSchoolData (txt "X") (txt "Private National") (txt "Surabaya") None None
               None None dms None None None [] None None None [] [] None 0%Q None.

(** ** Reading aids for the validator *)

(** The Indonesian mobile shape: "+628" and 8 to 10 further digits. *)
Definition mobile_number (n : str) : Prop :=
  exists ds, n = txt "+628" ++ ds /\ all_digits ds /\ 8 <= length ds <= 10.

(** ** Reading aids for deep links *)

(** [link_at L s]: [s] starts with the literal [L] followed by a digit, so a
    pattern [L(\d+)] matches at the start of [s]. *)
Definition link_at (L s : str) : bool :=
  startswith L s
  && match drop (length L) s with
     | c :: _ => is_digit c
     | [] => false
     end.

(** No such match starts at any of the first [n] offsets of [s]. *)
Definition no_link_before (L : str) (n : nat) (s : str) : bool :=
  forallb (fun i => negb (link_at L (drop i s))) (seq 0 n).

Definition no_link (L s : str) : bool := no_link_before L (S (length s)) s.

(** [s] does not begin with a digit. *)
Definition digit_free_start (s : str) : bool :=
  match s with
  | c :: _ => negb (is_digit c)
  | [] => true
  end.

(** [L(\d+)] for a literal [L]. *)
Definition lit_digits (L : str) : regex :=
  Cat (lit L) (Grp (Plus true (Cls is_digit))).

(** ** Sample responses *)

Definition dquote : ascii := "034"%char.

Definition newline : ascii := "010"%char.



(** ** Reading aids for normalised numbers *)

(** "+62" followed by digits only: the country code and a national number. *)
Definition intl_form (n : str) : Prop :=
  exists ds, n = txt "+62" ++ ds /\ all_digits ds.

(** Digits with at most one "+", in front. *)
Definition plus_digits (s : str) : Prop :=
  exists ds, all_digits ds /\ (s = ds \/ s = "+"%char :: ds).

(** ** Sample page graphs *)

Definition ok_page (u : str) (out : list str) : ScrapedPage :=
  mkScrapedPage u (txt "") (txt "") (txt "") out true None.

Definition failed_page (u : str) : ScrapedPage :=
  mkScrapedPage u (txt "") (txt "") (txt "") [] false (Some (txt "timeout")).

(** Every sample URL is on the one host. *)
Definition sample_netloc (u : str) : str := txt "sekolah.sch.id".

Definition url_root : str := txt "https://sekolah.sch.id/".
Definition url_about : str := txt "https://sekolah.sch.id/about".
Definition url_contact : str := txt "https://sekolah.sch.id/contact".
Definition url_news : str := txt "https://sekolah.sch.id/news".
Definition url_gallery : str := txt "https://sekolah.sch.id/gallery".

(** The root links to a page without keyword and to the "about" page. *)
Definition graph_about_news (u : str) : ScrapedPage :=
  if str_eqb u url_root then ok_page u [url_news; url_about]
  else ok_page u [].

(** The root links to two priority pages, "about" then "contact". *)
Definition graph_two_priority (u : str) : ScrapedPage :=
  if str_eqb u url_root then ok_page u [url_about; url_contact]
  else ok_page u [].

(** The root links to "news" and "gallery"; the fetch of "news" fails. *)
Definition graph_failing_news (u : str) : ScrapedPage :=
  if str_eqb u url_root then ok_page u [url_news; url_gallery]
  else if str_eqb u url_news then failed_page u
  else ok_page u [].

(** "A failed fetch is recorded": some returned page for the URL has
    [success = false]. *)
Definition failure_recorded (u : str) (returned : list ScrapedPage) : Prop :=
  exists p, p ∈ returned /\ url p = u /\ success p = false.

(** ** Sample records and a sample pipeline *)

(** A record with every checklist item and one person, not verified. *)
Definition full_school : SchoolData :=
  mkSchoolData (txt "X") (txt "Private National") (txt "Surabaya")
    (Some (txt "20512345")) None (Some (txt "Yayasan X")) None
    [mkDecisionMaker (Some (txt "Budi Santoso")) None None HIGHEST None None
                     (Some (txt "+6281234567890")) false false false
                     (Some (txt "https://linkedin.com/in/budi")) None 0%Q]
    (Some (txt "https://x.sch.id")) (Some (txt "info@x.sch.id"))
    (Some (txt "+6281234567890")) [] (Some (txt "@x")) (Some (txt "x")) None
    [] [] None 0%Q None.

Definition sample_input (nm : string) : SchoolInput :=
  mkSchoolInput (txt nm) (txt "Private National") (txt "Surabaya") None.

(** A search collaborator that raises for the school called "bad". *)
Definition sample_search (school : SchoolInput) (w : nat)
  : nat * (str + unit) :=
  if str_eqb (input_name school) (txt "bad")
  then (S w, inl (txt "search failed"))
  else (S w, inr tt).

Definition sample_scrape (school : SchoolInput) (found : unit) (w : nat)
  : nat * (str + unit) := (S w, inr tt).

Definition sample_extract (school : SchoolInput) (found scraped : unit) (w : nat)
  : nat * (str + SchoolData) := (S w, inr (school_of [])).

Definition sample_validate (data : SchoolData) (w : nat)
  : nat * (str + SchoolData) := (w, inr data).

(** ** Reading aids for fenced blocks *)




(** ** [models.py]: the other field validators and accessors *)

(** [PhoneNumber.normalize_phone], the validator of the [normalized]
    field. *)
Definition normalize_phone (v : str) : str :=
  let cleaned := clean_phone v in
  if startswith (txt "08") cleaned then txt "+62" ++ drop 1 cleaned
  else if startswith (txt "62") cleaned then txt "+" ++ cleaned
  else if startswith (txt "+62") cleaned then cleaned
  else cleaned.

(** [DecisionMaker.validate_linkedin] *)
Definition validate_linkedin (v : option str) : option str :=
  match v with
  | None | Some [] => None
  | Some v =>
    if negb (contains (txt "linkedin.com") (lower v)) then None else Some v
  end.

(** [SchoolData.validate_npsn]; [re.sub(r'\D', '', v)] keeps the digits. *)
Definition validate_npsn (v : option str) : option str :=
  match v with
  | None | Some [] => None
  | Some v =>
    let cleaned := List.filter is_digit v in
    if length cleaned =? 8 then Some cleaned else None
  end.

(** The [for dm in self.decision_makers] loop of [get_primary_whatsapp]. *)
Fixpoint first_whatsapp (dms : list DecisionMaker) : option str :=
  match dms with
  | [] => None
  | dm :: dms' => if truthy (whatsapp dm) then whatsapp dm else first_whatsapp dms'
  end.

(** [SchoolData.get_primary_whatsapp] *)
Definition get_primary_whatsapp (self : SchoolData) : option str :=
  if truthy (whatsapp_business self) then whatsapp_business self
  else first_whatsapp (decision_makers self).

(** [dm.whatsapp or dm.email or dm.phone] as a condition. *)
Definition has_contact (dm : DecisionMaker) : bool :=
  truthy (whatsapp dm) || truthy (email dm) || truthy (phone dm).

(** [SchoolData.get_primary_contact]: the first record with contact data
    in [sorted(self.decision_makers, key=...)]. *)
Definition get_primary_contact (self : SchoolData) : option DecisionMaker :=
  List.find has_contact (sort_by tier (decision_makers self)).

(** ** Reading aids for the validator's cache *)

(** A cache whose entries are the verdicts of the heuristic check. *)
Definition coherent (whatsapp_cache : gmap str bool) : Prop :=
  forall n b, whatsapp_cache !! n = Some b -> (b = true <-> mobile_number n).

(** People with and without contact data. *)
Definition reachable (nm : string) (p : RolePriority) (mail : string)
  : DecisionMaker :=
  mkDecisionMaker (Some (txt nm)) None None p (Some (txt mail)) None None
                  false false false None None 0%Q.

(** ** [extractor.py]: the tier of a role title *)

(** [any(kw in s for kw in kws)] *)
Definition any_in (kws : list string) (s : str) : bool :=
  existsb (fun kw => contains (txt kw) s) kws.

(** The keyword lists of [_get_role_priority], in the order it tries
    them. *)
Definition HIGHEST_KEYWORDS : list string :=
  ["ketua yayasan"; "chairman"; "founder"; "pendiri"]%string.

Definition HIGH_KEYWORDS : list string :=
  ["pembina"; "patron"; "direktur"; "director"]%string.

Definition MEDIUM_KEYWORDS : list string :=
  ["kepala sekolah"; "principal"; "head of school"]%string.

Definition LOW_KEYWORDS : list string :=
  ["wakil"; "vice"; "bendahara"; "treasurer"; "sekretaris"]%string.

(** [LLMExtractor._get_role_priority] *)
Definition _get_role_priority (role : option str) : RolePriority :=
  let role_lower := if truthy role then lower (default [] role) else [] in
  if any_in HIGHEST_KEYWORDS role_lower then HIGHEST
  else if any_in HIGH_KEYWORDS role_lower then HIGH
  else if any_in MEDIUM_KEYWORDS role_lower then MEDIUM
  else if any_in LOW_KEYWORDS role_lower then LOW
  else LOWEST.

(** The keywords of a tier; the last tier has none. *)
Definition tier_keywords (p : RolePriority) : list string :=
  match p with
  | HIGHEST => HIGHEST_KEYWORDS
  | HIGH => HIGH_KEYWORDS
  | MEDIUM => MEDIUM_KEYWORDS
  | LOW => LOW_KEYWORDS
  | LOWEST => []
  end.

(** ** [models.py]: person-centric leads *)

(** [sep.join(parts)] *)
Fixpoint join (sep : str) (parts : list str) : str :=
  match parts with
  | [] => []
  | p :: parts' =>
    match parts' with
    | [] => p
    | _ :: _ => p ++ sep ++ join sep parts'
    end
  end.

(** [o or d] for an [Optional[str]] and a text. *)
Definition or_text (o : option str) (d : str) : str :=
  if truthy o then default [] o else d.

Module PersonLead.

Record t : Type := mk {
  school_name : str;
  foundation_name : option str;
  school_type : str;
  location : str;
  person_name : str;
  role : str;
  role_indonesian : option str;
  priority_tier : Z;
  direct_whatsapp : option str;
  direct_email : option str;
  linkedin : option str;
  tech_stack : str;
  source_url : option str;
  confidence : Q
}.

End PersonLead.

(** [tier_map.get(dm.priority, 5)] *)
Definition tier_map (p : RolePriority) : Z :=
  match p with
  | HIGHEST => 1
  | HIGH => 2
  | MEDIUM => 3
  | LOW => 4
  | LOWEST => 5
  end.

(** [PersonLead.from_decision_maker] *)
Definition from_decision_maker (dm : DecisionMaker) (school_data : SchoolData)
  : PersonLead.t :=
  PersonLead.mk
    (school_name school_data) (foundation_name school_data)
    (school_type school_data) (location school_data)
    (or_text (name dm) (txt "Unknown")) (or_text (role dm) [])
    (role_indonesian dm) (tier_map (priority dm))
    (whatsapp dm) (email dm) (linkedin_url dm)
    (match tech_stack school_data with
     | [] => []
     | _ :: _ => join (txt ", ") (tech_stack school_data)
     end)
    (source_url dm) (confidence dm).

(** ** [main.py]: verification status and foundation clusters *)

(** The label a person adds to [statuses], if any. *)
Definition status_label (dm : DecisionMaker) : option str :=
  if whatsapp_verified dm && email_verified dm
  then Some (txt "Verified WA + Email")
  else if whatsapp_verified dm then Some (txt "Verified WA")
  else if email_verified dm then Some (txt "Valid Email")
  else None.

(** [LeadEnrichmentEngine._get_verification_status] *)
Definition _get_verification_status (data : SchoolData) : str :=
  let statuses := omap status_label (decision_makers data) in
  match statuses with
  | [] => txt "Guess"
  | _ :: _ => join (txt " / ") (list_set statuses)
  end.

Module FoundationData.

(** A value of the [foundation_data] dict. *)
Record t : Type := mk {
  schools : list str;
  contacts : list PersonLead.t;
  tech_stacks : gset str;
  has_whatsapp : bool;
  has_linkedin : bool
}.

(** The [defaultdict]'s factory. *)
Definition fresh : t := mk [] [] ∅ false false.

End FoundationData.

Module FoundationCluster.

Record t : Type := mk {
  foundation_name : str;
  schools : list str;
  total_schools : nat;
  foundation_contacts : list PersonLead.t;
  total_decision_makers : nat;
  has_whatsapp : bool;
  has_linkedin : bool;
  common_tech_stack : list str
}.

End FoundationCluster.

(** [foundation_data[key]] updated by [f]: a missing key gets the factory's
    value first, at the end of the dict (insertion order). *)
Fixpoint update_entry (key : str) (f : FoundationData.t -> FoundationData.t)
    (foundation_data : list (str * FoundationData.t))
  : list (str * FoundationData.t) :=
  match foundation_data with
  | [] => [(key, f FoundationData.fresh)]
  | (k, v) :: rest =>
    if str_eqb k key then (k, f v) :: rest
    else (k, v) :: update_entry key f rest
  end.

(** [data.foundation_name or "Unknown Foundation"] *)
Definition foundation_key (data : SchoolData) : str :=
  or_text (foundation_name data) (txt "Unknown Foundation").

(** One turn of [for dm in data.decision_makers]. *)
Definition add_contact (data : SchoolData) (e : FoundationData.t)
    (dm : DecisionMaker) : FoundationData.t :=
  if truthy (name dm) then
    FoundationData.mk
      (FoundationData.schools e)
      (FoundationData.contacts e ++ [from_decision_maker dm data])
      (FoundationData.tech_stacks e)
      (if truthy (whatsapp dm) then true else FoundationData.has_whatsapp e)
      (if truthy (linkedin_url dm) then true else FoundationData.has_linkedin e)
  else e.

(** What one school with data does to the entry of its foundation. *)
Definition add_school (data : SchoolData) (e : FoundationData.t)
  : FoundationData.t :=
  let e :=
    FoundationData.mk
      (FoundationData.schools e ++ [school_name data])
      (FoundationData.contacts e) (FoundationData.tech_stacks e)
      (FoundationData.has_whatsapp e) (FoundationData.has_linkedin e) in
  let e := fold_left (add_contact data) (decision_makers data) e in
  FoundationData.mk
    (FoundationData.schools e) (FoundationData.contacts e)
    (fold_left (fun s tech => {[tech]} ∪ s) (tech_stack data)
               (FoundationData.tech_stacks e))
    (FoundationData.has_whatsapp e) (FoundationData.has_linkedin e).

(** One turn of [for result in results]. *)
Definition cluster_step (foundation_data : list (str * FoundationData.t))
    (result : ProcessingResult) : list (str * FoundationData.t) :=
  match school_data result with
  | Some data => update_entry (foundation_key data) (add_school data) foundation_data
  | None => foundation_data
  end.

Definition make_cluster (kv : str * FoundationData.t) : FoundationCluster.t :=
  let '(foundation_name, data) := kv in
  FoundationCluster.mk
    foundation_name (FoundationData.schools data)
    (length (FoundationData.schools data))
    (FoundationData.contacts data) (length (FoundationData.contacts data))
    (FoundationData.has_whatsapp data) (FoundationData.has_linkedin data)
    (elements (FoundationData.tech_stacks data)).

(** [list.sort(key=..., reverse=True)]: stable, largest key first. *)
Fixpoint insert_by_desc {A} (key : A -> nat) (x : A) (l : list A) : list A :=
  match l with
  | [] => [x]
  | y :: l' => if key y <=? key x then x :: l else y :: insert_by_desc key x l'
  end.

Fixpoint sort_by_desc {A} (key : A -> nat) (l : list A) : list A :=
  match l with
  | [] => []
  | x :: l' => insert_by_desc key x (sort_by_desc key l')
  end.

(** [LeadEnrichmentEngine.cluster_by_foundation] *)
Definition cluster_by_foundation (results : list ProcessingResult)
  : list FoundationCluster.t :=
  let foundation_data := fold_left cluster_step results [] in
  sort_by_desc FoundationCluster.total_schools (make_cluster <$> foundation_data).

(** The person leads of [export_person_leads], before they are sorted and
    written: one per named person of each result that has data. *)
Definition person_leads (results : list ProcessingResult) : list PersonLead.t :=
  mjoin ((fun result =>
            match school_data result with
            | Some data =>
              (fun dm => from_decision_maker dm data)
                <$> List.filter (fun dm => truthy (name dm)) (decision_makers data)
            | None => []
            end) <$> results).

(** ** Reading aids for the clusters *)

(** The schools with data, in result order. *)
Definition with_data (results : list ProcessingResult) : list SchoolData :=
  omap school_data results.

(** The schools of one foundation. *)
Definition of_foundation (key : str) (datas : list SchoolData) : list SchoolData :=
  List.filter (fun d => str_eqb (foundation_key d) key) datas.

(** The named people of a school. *)
Definition named_people (data : SchoolData) : list DecisionMaker :=
  List.filter (fun dm => truthy (name dm)) (decision_makers data).

(** The leads of the named people of some schools, school by school. *)
Definition leads_of (ds : list SchoolData) : list PersonLead.t :=
  mjoin ((fun d => (fun dm => from_decision_maker dm d) <$> named_people d) <$> ds).

(** The entry a foundation with the schools [ds] ends with. *)
Definition entry_of (ds : list SchoolData) : FoundationData.t :=
  FoundationData.mk
    (school_name <$> ds) (leads_of ds)
    (list_to_set (mjoin (tech_stack <$> ds)))
    (existsb (fun d => existsb (fun dm => truthy (whatsapp dm)) (named_people d)) ds)
    (existsb (fun d => existsb (fun dm => truthy (linkedin_url dm)) (named_people d)) ds).

(** Sample results: a completed school of a foundation, and a failed one. *)
Definition completed (nm : string) (foundation : option string)
    (dms : list DecisionMaker) : ProcessingResult :=
  mkResult (sample_input nm)
    (Some (mkSchoolData (txt nm) (txt "Private National") (txt "Surabaya")
             None None (option_map txt foundation) None dms None None None []
             None None None [] [] None 0%Q None))
    COMPLETED None 0 0.

Definition failed_result (nm : string) : ProcessingResult :=
  mkResult (sample_input nm) None FAILED (Some (txt "boom")) 0 0.

(** ** Reading aids for the crawl's queue and scope *)

(** The to-visit list holds no URL twice and no visited URL. *)
Definition queue_inv (st : crawl_state) : Prop :=
  NoDup (to_visit st) /\ (forall u, u ∈ to_visit st -> u ∉ visited_urls st).

(** [u] is the start URL or a link of a page, among those at [seen], whose
    fetch succeeded. *)
Definition found_from (scrape_page : str -> ScrapedPage) (base_url : str)
    (seen : list str) (u : str) : Prop :=
  u = base_url
  \/ exists v, v ∈ seen /\ success (scrape_page v) = true
               /\ u ∈ links (scrape_page v).

(** Every fetched URL is on the start URL's host, and every fetched or
    listed URL was found from the start URL; the start URL is fetched
    first. *)
Definition scope_inv (scrape_page : str -> ScrapedPage) (netloc : str -> str)
    (base_url : str) (st : crawl_state) : Prop :=
  (forall u, u ∈ scraped_log st ->
     netloc u = netloc base_url
     /\ found_from scrape_page base_url (scraped_log st) u)
  /\ (forall u, u ∈ to_visit st ->
        found_from scrape_page base_url (scraped_log st) u)
  /\ match scraped_log st with
     | [] => to_visit st = [base_url] /\ pages st = []
     | first :: _ => first = base_url
     end.

(** ** [scraper.py]: the text handed to the extractor *)

(** The limit per page, the 8000 of [page.text_content[:8000]]. *)
Definition PAGE_TEXT_LIMIT : nat := 8000.

(** What [compile_scraped_content] appends for one page. *)
Definition page_parts (page : ScrapedPage) : list str :=
  if success page && truthy (Some (text_content page)) then
    [ newline :: newline :: txt "=== PAGE: " ++ url page ++ txt " ===";
      txt "Title: " ++ title page;
      take PAGE_TEXT_LIMIT (text_content page) ]
  else [].

(** [WebScraper.compile_scraped_content] *)
Definition compile_scraped_content (pages : list ScrapedPage) : str :=
  join [newline] (mjoin (page_parts <$> pages)).

(** A page that contributes, and a page cut to what is read of it. *)
Definition usable (page : ScrapedPage) : bool :=
  success page && truthy (Some (text_content page)).

Definition truncated (page : ScrapedPage) : ScrapedPage :=
  mkScrapedPage (url page) (title page) (html_content page)
                (take PAGE_TEXT_LIMIT (text_content page)) (links page)
                (success page)
                (error page).

(** ** [scraper.py]: platform detection *)

(** [config.LMS_INDICATORS], in the order of the dict. *)
Definition LMS_INDICATORS : list (string * list string) :=
  [ ("canvas", ["canvas"; "instructure.com"; "canvas.instructure"]);
    ("moodle", ["moodle"; "/moodle/"; "moodle.org"]);
    ("google_classroom",
     ["classroom.google.com"; "google classroom"; "googleclassroom"]);
    ("schoology", ["schoology"; "schoology.com"]);
    ("managebac", ["managebac"; "managebac.com"]);
    ("seesaw", ["seesaw"; "web.seesaw.me"]);
    ("edmodo", ["edmodo"; "edmodo.com"]);
    ("blackboard", ["blackboard"; "blackboard.com"]);
    ("powerschool", ["powerschool"; "powerschool.com"]) ]%string.

(** [(page.html_content + " " + page.text_content).lower()] *)
Definition page_content (page : ScrapedPage) : str :=
  lower (html_content page ++ txt " " ++ text_content page).

(** An indicator of the list occurs in the content. *)
Definition indicated (indicators : list string) (content : str) : bool :=
  existsb (fun indicator => contains (lower (txt indicator)) content) indicators.

(** One turn of [for lms_name, indicators in config.LMS_INDICATORS.items()]. *)
Definition detect_name (content : str) (detected_lms : list str)
    (entry : string * list string) : list str :=
  let '(lms_name, indicators) := entry in
  if negb (in_list (txt lms_name) detected_lms) then
    if indicated indicators content then detected_lms ++ [txt lms_name]
    else detected_lms
  else detected_lms.

(** One turn of [for page in pages]. *)
Definition detect_page (table : list (string * list string))
    (detected_lms : list str) (page : ScrapedPage) : list str :=
  if negb (success page) then detected_lms
  else fold_left (detect_name (page_content page)) table detected_lms.

(** [WebScraper.detect_lms_stack] *)
Definition detect_lms_stack (pages : list ScrapedPage) : list str :=
  fold_left (detect_page LMS_INDICATORS) pages [].

(** ** [scraper.py]: e-mail extraction *)

(** [[a-zA-Z]], [[a-zA-Z0-9._%+-]] and [[a-zA-Z0-9.-]] *)
Definition is_alpha (c : ascii) : bool :=
  ((65 <=? code c) && (code c <=? 90)) || ((97 <=? code c) && (code c <=? 122)).

Definition local_char (c : ascii) : bool :=
  is_alpha c || is_digit c || is_char "." c || is_char "_" c || is_char "%" c
  || is_char "+" c || is_char "-" c.

Definition domain_char (c : ascii) : bool :=
  is_alpha c || is_digit c || is_char "." c || is_char "-" c.

(** [re.compile(r'[a-zA-Z0-9._%+-]+@[a-zA-Z0-9.-]+\.[a-zA-Z]{2,}',
    re.IGNORECASE)]; the pattern has no group of its own, and the outer
    group stands for the whole match, which is what [findall] returns
    then. *)
Definition email_pattern : regex :=
  Grp (Cat (Plus true (Cls local_char))
           (Cat (lit (txt "@"))
                (Cat (Plus true (Cls domain_char))
                     (Cat (lit (txt "."))
                          (Cat (Rep 2 (Cls is_alpha))
                               (Star true (Cls is_alpha))))))).

Definition skip_patterns : list string :=
  ["example.com"; "domain.com"; "email.com"; "test.com"]%string.

(** The list [filtered] before [list(set(...))]. *)
Definition emails_filtered (text : str) : list str :=
  lower <$> List.filter (fun email => negb (any_in skip_patterns (lower email)))
                        (re_findall email_pattern text).

(** [WebScraper.extract_emails] *)
Definition extract_emails (text : str) : list str :=
  list_set (emails_filtered text).

(** ** Reading aids for e-mail addresses *)

(** [local@domain.tld], with at least two letters after the last dot. *)
Definition address_shape (m : str) : Prop :=
  exists local domain tld,
    m = local ++ txt "@" ++ domain ++ txt "." ++ tld
    /\ local <> [] /\ Forall (fun c => local_char c = true) local
    /\ domain <> [] /\ Forall (fun c => domain_char c = true) domain
    /\ 2 <= length tld /\ Forall (fun c => is_alpha c = true) tld.

(** ** [scraper.py]: the links of a page *)

(** The character class of the two quote characters, double and single. *)
Definition is_quote (c : ascii) : bool := is_char dquote c || is_char "'" c.

Definition not_quote (c : ascii) : bool := negb (is_quote c).

(** The [href_pattern] of the source, compiled with [re.IGNORECASE]:
    [href=], a quote, a group of one or more characters other than quotes,
    and a quote. *)
Definition href_pattern : regex :=
  Cat (lit_ci (txt "href="))
      (Cat (Cls is_quote)
           (Cat (Grp (Plus true (Cls not_quote))) (Cls is_quote))).

(** [href.startswith(('#', 'javascript:', 'mailto:', 'tel:'))] *)
Definition skipped_href (href : str) : bool :=
  existsb (fun p => startswith (txt p) href)
          ["#"; "javascript:"; "mailto:"; "tel:"]%string.

Section ExtractLinks.

(** [netloc] is [urlparse(u).netloc] and [urljoin] is
    [urllib.parse.urljoin], both taken as total functions. *)
Variable netloc : str -> str.
Variable urljoin : str -> str -> str.

(** What one [href] adds to [links], if anything; the two relative
    branches of the source are the same call. *)
Definition link_of_href (base_url href : str) : option str :=
  if skipped_href href then None
  else
    let full_url :=
      if startswith (txt "http") href then href else urljoin base_url href in
    if str_eqb (netloc full_url) (netloc base_url) then Some full_url else None.

(** [WebScraper._extract_links] *)
Definition _extract_links (html base_url : str) : list str :=
  list_set (omap (fun m => link_of_href base_url (group1 m))
                 (re_finditer href_pattern html)).

End ExtractLinks.

(** ** Sample link extraction *)

(** A resolver for relative links that is enough for the samples: the base
    URL followed by the link. *)
Definition sample_urljoin (base_url href : str) : str := base_url ++ href.

(** A site every page of which has the same HTML. *)
Definition sample_html : str :=
  txt "<a href='https://sekolah.sch.id/about'>About</a>".

Definition site_page (u : str) : ScrapedPage :=
  mkScrapedPage u [] sample_html []
                (_extract_links sample_netloc sample_urljoin sample_html u)
                true None.

(** ** [scraper.py]: fetching one page *)

(** [s.endswith(suffix)] *)
Definition endswith (suffix s : str) : bool := startswith (rev suffix) (rev s).

Definition skip_extensions : list string :=
  [".css"; ".js"; ".jpg"; ".jpeg"; ".png"; ".gif"; ".svg"; ".pdf"; ".doc";
   ".docx"; ".xls"; ".xlsx"; ".zip"; ".mp3"; ".mp4"]%string.

(** [any(url_lower.endswith(ext) for ext in skip_extensions)] *)
Definition non_html (url : str) : bool :=
  existsb (fun ext => endswith (txt ext) (lower url)) skip_extensions.

Module Crawl4ai.

(** What [crawler.arun] returns, as far as [scrape_page] reads it. *)
Record result : Type := mk {
  metadata : option (gmap str str);
  html : option str;
  markdown : option str;
  cleaned_html : option str
}.

End Crawl4ai.

Module Playwright.

(** What the browser gives: [page.content()], the body's [innerText] and
    [page.title()]. *)
Record result : Type := mk {
  content : str;
  inner_text : str;
  page_title : str
}.

End Playwright.

Section ScrapePage.

(** The outside world, what the browsers may raise, and the two browsers;
    [netloc] and [urljoin] as for [_extract_links]. *)
Variable World : Type.
Variable Exception : Type.
Variable exn_str : Exception -> str.
Variable netloc : str -> str.
Variable urljoin : str -> str -> str.
Variable _crawl4ai_available : bool.
Variable arun : str -> World -> World * (Exception + Crawl4ai.result).
Variable playwright : str -> World -> World * (Exception + Playwright.result).

(** The page of a fetch that did not succeed. *)
Definition failure (url msg : str) : ScrapedPage :=
  mkScrapedPage url [] [] [] [] false (Some msg).

(** [WebScraper._scrape_with_playwright] *)
Definition _scrape_with_playwright (url : str) (w : World)
  : World * ScrapedPage :=
  match playwright url w with
  | (w', inr r) =>
    (w', mkScrapedPage url (Playwright.page_title r) (Playwright.content r)
                       (Playwright.inner_text r)
                       (_extract_links netloc urljoin (Playwright.content r) url)
                       true None)
  | (w', inl e) => (w', failure url (exn_str e))
  end.

(** [WebScraper._scrape_with_crawl4ai] *)
Definition _scrape_with_crawl4ai (url : str) (w : World)
  : World * ScrapedPage :=
  match arun url w with
  | (w', inr r) =>
    (w', mkScrapedPage url
           (match Crawl4ai.metadata r with
            | Some m => if decide (m = ∅) then [] else default [] (m !! txt "title")
            | None => []
            end)
           (or_text (Crawl4ai.html r) [])
           (or_text (Crawl4ai.markdown r) (or_text (Crawl4ai.cleaned_html r) []))
           (_extract_links netloc urljoin (or_text (Crawl4ai.html r) []) url)
           true None)
  | (w', inl e) => _scrape_with_playwright url w'
  end.

(** [WebScraper.scrape_page] *)
Definition scrape_page (url : str) (w : World) : World * ScrapedPage :=
  if non_html url then (w, failure url (txt "Skipped non-HTML"))
  else if _crawl4ai_available then _scrape_with_crawl4ai url w
  else _scrape_with_playwright url w.

End ScrapePage.

(** ** Sample browsers *)

(** A browser that raises on every URL, counting its calls. *)
Definition broken_browser {A} (url : str) (w : nat) : nat * (str + A) :=
  (S w, inl (txt "timeout")).

(** ** [search.py]: reading the search results *)

Module SearchResult.

Record t : Type := mk {
  query : str;
  url : str;
  title : str;
  snippet : str;
  position : nat
}.

End SearchResult.

(** [SearchResult.is_linkedin] *)
Definition is_linkedin (self : SearchResult.t) : bool :=
  contains (txt "linkedin.com") (lower (SearchResult.url self)).

(** The results by category: a dict, its items in insertion order. *)
Definition SearchResults : Type := list (str * list SearchResult.t).

(** [results.get(key, [])] *)
Fixpoint results_get (key : str) (results : SearchResults)
  : list SearchResult.t :=
  match results with
  | [] => []
  | (k, items) :: results' =>
    if str_eqb k key then items else results_get key results'
  end.

(** The list [all_urls] of [find_official_website]. *)
Definition all_urls (results : SearchResults) : list str :=
  mjoin ((fun key => SearchResult.url <$> results_get (txt key) results)
           <$> ["website"; "contacts"; "local"; "foundation"]%string).

Definition skip_domains : list string :=
  ["linkedin.com"; "facebook.com"; "instagram.com"; "twitter.com";
   "youtube.com"; "tiktok.com"; "kemdikbud.go.id"; "wikipedia.org";
   "tripadvisor"; "google.com"]%string.

(** [any(skip in url_lower for skip in skip_domains)] *)
Definition skipped_url (url : str) : bool := any_in skip_domains (lower url).

(** ['.sch.id' in url_lower or '.ac.id' in url_lower] *)
Definition school_domain (url : str) : bool :=
  contains (txt ".sch.id") (lower url) || contains (txt ".ac.id") (lower url).

(** [SerperSearch.find_official_website]: the two passes over
    [all_urls]. *)
Definition find_official_website (results : SearchResults) : option str :=
  match List.find (fun url => negb (skipped_url url) && school_domain url)
                  (all_urls results) with
  | Some url => Some url
  | None => List.find (fun url => negb (skipped_url url)) (all_urls results)
  end.

(** [SerperSearch.find_linkedin_profiles] *)
Definition find_linkedin_profiles (results : SearchResults)
  : list SearchResult.t :=
  mjoin ((fun kv : str * list SearchResult.t =>
            List.filter
              (fun item => contains (txt "linkedin.com/in/")
                                    (lower (SearchResult.url item)))
              kv.2) <$> results).

(** ** Sample search results *)

Definition hit (u : string) : SearchResult.t :=
  SearchResult.mk (txt "q") (txt u) (txt "t") (txt "s") 1.

Definition sample_results : SearchResults :=
  [ (txt "official_data", [hit "https://data.sch.id/x"]);
    (txt "founders_linkedin", [hit "https://id.LinkedIn.com/in/budi"]);
    (txt "website",
     [hit "https://www.facebook.com/sekolahx"; hit "https://sekolahx.com";
      hit "https://referensi.data.kemdikbud.go.id/x.sch.id";
      hit "https://www.sekolahx.sch.id/"]) ].

(** ** [validator.py]: e-mail verification *)

Record email_result : Type := mkEmailResult {
  is_valid_syntax : bool;
  has_mx_record : bool;
  smtp_handshake : bool;
  is_personal : bool;
  is_live : bool
}.

Definition general_prefixes : list string :=
  ["info"; "admin"; "contact"; "support"; "help"; "noreply"; "no-reply";
   "mail"; "webmaster"; "kontak"; "hubungi"]%string.

(** [email.split("@")[0]] *)
Fixpoint before_at (email : str) : str :=
  match email with
  | [] => []
  | c :: email' => if is_char "@" c then [] else c :: before_at email'
  end.

(** [not any(local_part.startswith(prefix) for prefix in general_prefixes)] *)
Definition personal_address (email : str) : bool :=
  negb (existsb (fun prefix => startswith (txt prefix) (lower (before_at email)))
                general_prefixes).

Section VerifyEmail.

(** The outside world and what the look-ups may raise. [validate_email] is
    the syntax check of the [email_validator] package, without
    deliverability check: the domain, or [None] for [EmailNotValidError].
    [_check_mx_record] and [_smtp_handshake] are the DNS and SMTP
    look-ups. *)
Variable World : Type.
Variable Exception : Type.
Variable validate_email : str -> option str.
Variable _check_mx_record : str -> World -> World * (Exception + list str).
Variable _smtp_handshake :
  str -> option str -> World -> World * (Exception + bool).

(** [ContactValidator.verify_email_live], on the instance's [email_cache]
    and the world. *)
Definition verify_email_live (email : str) (email_cache : gmap str email_result)
    (w : World) : email_result * gmap str email_result * World :=
  match email_cache !! lower email with
  | Some cached => (cached, email_cache, w)
  | None =>
    match validate_email email with
    | None =>
      let result := mkEmailResult false false false false false in
      (result, <[lower email := result]> email_cache, w)
    | Some domain =>
      let personal := personal_address email in
      let '(w1, mx) := _check_mx_record domain w in
      let mx_records := match mx with inr l => l | inl _ => [] end in
      let has_mx := 0 <? length mx_records in
      let '(w2, smtp) :=
        if has_mx then
          match _smtp_handshake domain (head mx_records) w1 with
          | (w2, inr b) => (w2, b)
          | (w2, inl _) => (w2, false)
          end
        else (w1, false) in
      let result := mkEmailResult true has_mx smtp personal (true && has_mx && smtp) in
      (result, <[lower email := result]> email_cache, w2)
    end
  end.

(** A sequence of calls on one validator instance. *)
Fixpoint verify_emails (calls : list str) (email_cache : gmap str email_result)
    (w : World) : gmap str email_result * World :=
  match calls with
  | [] => (email_cache, w)
  | email :: calls' =>
    let '(_, email_cache', w') := verify_email_live email email_cache w in
    verify_emails calls' email_cache' w'
  end.

End VerifyEmail.

(** ** Reading aids for the e-mail cache *)

(** A result in which each check implies the ones before it and [is_live]
    is their conjunction. *)
Definition graded (r : email_result) : Prop :=
  is_live r = is_valid_syntax r && has_mx_record r && smtp_handshake r
  /\ (smtp_handshake r = true -> has_mx_record r = true)
  /\ (has_mx_record r = true -> is_valid_syntax r = true)
  /\ (is_personal r = true -> is_valid_syntax r = true).

(** ** Sample look-ups *)

(** A syntax check that accepts what has an "@" and takes what follows it
    for the domain, and look-ups that count their calls. *)
Definition sample_validate_email (email : str) : option str :=
  if contains (txt "@") email
  then Some (drop (S (length (before_at email))) email) else None.

Definition sample_mx (domain : str) (w : nat) : nat * (str + list str) :=
  (S w, inr [txt "mx." ++ domain]).

Definition sample_smtp (domain : str) (mx_host : option str) (w : nat)
  : nat * (str + bool) :=
  (S w, inl (txt "connection refused")).



(** * Part II: properties *)

(** ** Strings *)

Lemma startswith_app (p s : str) : startswith p (p ++ s) = true.
Proof.
  induction p as [|a p IH]; simpl; [reflexivity|].
  rewrite Ascii.eqb_refl. exact IH.
Qed.

Lemma startswith_spec (p s : str) :
  startswith p s = true <-> exists r, s = p ++ r.
Proof.
  split.
  - revert s. induction p as [|a p IH]; intros s H.
    + exists s. reflexivity.
    + destruct s as [|b s]; simpl in H; [discriminate|].
      apply andb_prop in H as [Hab H].
      apply Ascii.eqb_eq in Hab. subst b.
      destruct (IH _ H) as [r ->]. exists r. reflexivity.
  - intros [r ->]. apply startswith_app.
Qed.



(** ** Phone normalisation *)



(** ** The orchestrator *)

Section OrchestratorFacts.

Context {World Exception : Type} (exn_str : Exception -> str).
Context {SearchOut ScrapeOut : Type}.
Context (search_phase : SchoolInput -> World -> World * (Exception + SearchOut)).
Context (count_results : SearchOut -> nat) (has_official_url : SearchOut -> bool).
Context (scrape_phase :
           SchoolInput -> SearchOut -> World -> World * (Exception + ScrapeOut)).
Context (count_pages : ScrapeOut -> nat) (no_scrape : ScrapeOut).
Context (extract_and_merge :
           SchoolInput -> SearchOut -> ScrapeOut -> World
           -> World * (Exception + SchoolData)).
Context (validate_contacts :
           SchoolData -> World -> World * (Exception + SchoolData)).


Let run_school :=
  enrich_school World Exception exn_str SearchOut ScrapeOut search_phase
                count_results has_official_url scrape_phase count_pages
                no_scrape extract_and_merge validate_contacts.







End OrchestratorFacts.


(** ** The quality score *)

Section QualityScore.

Local Open Scope Q_scope.











Lemma round2_0 : round2 0 == 0.
Proof. reflexivity. Qed.

Lemma round2_1 : round2 1 == 1.
Proof. reflexivity. Qed.



End QualityScore.


(** ** Deduplication and ordering of people *)

Section Dedup.







Context {A : Type} (key : A -> nat).

Lemma insert_by_Permutation x l : insert_by key x l ≡ₚ x :: l.
Proof.
  induction l as [|y l IH]; cbn; [done|].
  destruct (key x <=? key y); [done|].
  rewrite IH. apply Permutation_swap.
Qed.

Lemma sort_by_Permutation l : sort_by key l ≡ₚ l.
Proof.
  induction l as [|x l IH]; cbn; [done|].
  by rewrite insert_by_Permutation, IH.
Qed.

Lemma insert_by_sorted x l :
  StronglySorted (fun a b => key a <= key b) l ->
  StronglySorted (fun a b => key a <= key b) (insert_by key x l).
Proof.
  induction 1 as [|y l Hs IH Hy]; cbn.
  - repeat constructor.
  - destruct (key x <=? key y) eqn:E.
    + apply Nat.leb_le in E. constructor; [by constructor|].
      constructor; [done|]. eapply Forall_impl; [exact Hy|].
      cbn. intros; lia.
    + apply Nat.leb_gt in E. constructor; [done|].
      rewrite insert_by_Permutation. constructor; [lia|done].
Qed.

Lemma sort_by_sorted l :
  StronglySorted (fun a b => key a <= key b) (sort_by key l).
Proof.
  induction l as [|x l IH]; cbn; [constructor|by apply insert_by_sorted].
Qed.

(** Stability: the records of one key keep their relative order. *)
Lemma insert_by_filter (t : nat) x l :
  filter (fun a => key a = t) (insert_by key x l)
  = filter (fun a => key a = t) (x :: l).
Proof.
  induction l as [|y l IH]; cbn; [done|].
  destruct (key x <=? key y) eqn:E; [done|].
  apply Nat.leb_gt in E.
  rewrite (filter_cons _ y), IH, !filter_cons.
  destruct (decide (key y = t)), (decide (key x = t)); try done; lia.
Qed.

Lemma sort_by_filter (t : nat) l :
  filter (fun a => key a = t) (sort_by key l) = filter (fun a => key a = t) l.
Proof.
  induction l as [|x l IH]; cbn; [done|].
  by rewrite insert_by_filter, !filter_cons, IH.
Qed.

End Dedup.





(** ** The matcher against the match relation *)

Section ReFacts.

Lemma orelse_Some {A} (x y : option A) (a : A) :
  orelse x y = Some a -> x = Some a \/ (x = None /\ y = Some a).
Proof. destruct x; cbn; auto. Qed.

Lemma orelse_is_Some {A} (x y : option A) :
  is_Some x \/ is_Some y -> is_Some (orelse x y).
Proof. destruct x; cbn; [eauto|]. intros [[? [=]]|?]. done. Qed.

(** A match reads a prefix of the text and moves the offset by its length. *)
Lemma rmatch_shape r st st' :
  rmatch r st st' ->
  exists u, rest st = u ++ rest st' /\ pos st' = pos st + length u.
Proof.
  induction 1 as [st|p st c s' Hr Hp|r1 r2 st st1 st2 _ IH1 _ IH2
                  |r1 r2 st st' _ IH|r1 r2 st st' _ IH|g r st
                  |g r st st1 st2 _ IH1 Hlt _ IH2|r st st' _ IH|st H|st H].
  - exists []. cbn. split; [done|lia].
  - exists [c]. cbn. split; [done|lia].
  - destruct IH1 as (u1 & E1 & P1), IH2 as (u2 & E2 & P2).
    exists (u1 ++ u2). rewrite <- app_assoc, <- E2, length_app. split; [done|lia].
  - exact IH.
  - exact IH.
  - exists []. cbn. split; [done|lia].
  - destruct IH1 as (u1 & E1 & P1), IH2 as (u2 & E2 & P2).
    exists (u1 ++ u2). rewrite <- app_assoc, <- E2, length_app. split; [done|lia].
  - exact IH.
  - exists []. cbn. split; [done|lia].
  - exists []. cbn. split; [done|lia].
Qed.

Lemma rmatch_consumed r st st' :
  rmatch r st st' ->
  rest st = take (pos st' - pos st) (rest st) ++ rest st'
  /\ pos st <= pos st'
  /\ length (rest st) = (pos st' - pos st) + length (rest st').
Proof.
  intros (u & E & P)%rmatch_shape.
  replace (pos st' - pos st) with (length u) by lia.
  rewrite E, take_app_length, length_app.
  split; [reflexivity|]. split; lia.
Qed.

Lemma star_loop_sound r g k :
  (forall k st res, bt r k st = Some res ->
                    exists st', rmatch r st st' /\ k st' = Some res) ->
  forall n st res,
    star_loop (bt r) g k n st = Some res ->
    exists st', rmatch (Star g r) st st' /\ k st' = Some res.
Proof.
  intros Hbody. induction n as [|n IH]; intros st res H.
  - cbn in H. exists st. split; [constructor|].
    destruct g; cbn in H; [done|].
    apply orelse_Some in H as [H|[_ [=]]]. done.
  - cbn [star_loop] in H.
    assert (Hmore : forall res,
               bt r (fun st' => if pos st <? pos st'
                                then star_loop (bt r) g k n st' else None) st
               = Some res ->
               exists st', rmatch (Star g r) st st' /\ k st' = Some res).
    { intros res' H'. apply Hbody in H' as (st1 & M1 & H').
      destruct (pos st <? pos st1) eqn:Hlt; [|done].
      apply Nat.ltb_lt in Hlt.
      apply IH in H' as (st2 & M2 & H').
      exists st2. split; [|done]. by eapply M_StarS. }
    destruct g; apply orelse_Some in H as [H|[_ H]];
      try (by apply Hmore); exists st; (split; [constructor|done]).
Qed.

(** Soundness: what the matcher returns comes from a match followed by a
    successful continuation. *)
Lemma bt_sound r :
  forall k st res,
    bt r k st = Some res -> exists st', rmatch r st st' /\ k st' = Some res.
Proof.
  induction r as [|p|r1 IH1 r2 IH2|r1 IH1 r2 IH2|g r IH|r IH| |];
    intros k st res H; cbn [bt] in H.
  - exists st. split; [constructor|done].
  - destruct (rest st) as [|c s'] eqn:Hr; [done|].
    destruct (p c) eqn:Hp; [|done].
    eexists. split; [by econstructor|done].
  - apply IH1 in H as (st1 & M1 & H). apply IH2 in H as (st2 & M2 & H).
    exists st2. split; [by econstructor|done].
  - apply orelse_Some in H as [H|[_ H]].
    + apply IH1 in H as (st' & M & H). exists st'. split; [by apply M_AltL|done].
    + apply IH2 in H as (st' & M & H). exists st'. split; [by apply M_AltR|done].
  - by eapply star_loop_sound.
  - apply IH in H as (st' & M & H). eexists. split; [by apply M_Grp|done].
  - destruct (pos st =? 0) eqn:E; [|done]. apply Nat.eqb_eq in E.
    exists st. split; [by constructor|done].
  - exists st. destruct (rest st) as [|c [|c' s']] eqn:Hr.
    + split; [constructor; by left|done].
    + destruct (is_char "010" c) eqn:Hc; [|done].
      apply Ascii.eqb_eq in Hc. subst c. split; [constructor; by right|done].
    + done.
Qed.

(** Completeness: when some match lets the continuation succeed, the
    matcher succeeds (with that match or one it tries earlier). *)
Lemma bt_complete r st st' :
  rmatch r st st' ->
  forall k, is_Some (k st') ->
    is_Some (bt r k st)
    /\ match r with
       | Star g r1 =>
         forall n, length (rest st) <= n -> is_Some (star_loop (bt r1) g k n st)
       | _ => True
       end.
Proof.
  induction 1 as [st|p st c s' Hr Hp|r1 r2 st st1 st2 _ IH1 _ IH2
                  |r1 r2 st st' _ IH|r1 r2 st st' _ IH|g r st
                  |g r st st1 st2 M1 IH1 Hlt M2 IH2|r st st' _ IH|st H|st H];
    intros k Hk; cbn [bt].
  - done.
  - rewrite Hr, Hp. done.
  - split; [|done]. apply IH1. by apply IH2.
  - split; [|done]. apply orelse_is_Some. left. by apply IH.
  - split; [|done]. apply orelse_is_Some. right. by apply IH.
  - assert (forall n, is_Some (star_loop (bt r) g k n st)) as Hn.
    { intros [|n]; cbn [star_loop]; destruct g; apply orelse_is_Some; auto. }
    split; [apply Hn|]. intros n _. apply Hn.
  - assert (forall n, length (rest st) <= n ->
                      is_Some (star_loop (bt r) g k n st)) as Hn.
    { intros n Hle.
      apply rmatch_consumed in M1 as (_ & _ & Hlen).
      destruct n as [|n]; [lia|]. cbn [star_loop].
      assert (is_Some (bt r (fun st' => if pos st <? pos st'
                                        then star_loop (bt r) g k n st'
                                        else None) st)) as Hmore.
      { refine (proj1 (IH1 _ _)). cbv beta.
        rewrite (proj2 (Nat.ltb_lt _ _) Hlt).
        apply (proj2 (IH2 k Hk)). lia. }
      destruct g; apply orelse_is_Some; auto. }
    split; [by apply Hn|exact Hn].
  - split; [|done]. apply IH. done.
  - apply Nat.eqb_eq in H as ->. done.
  - split; [|done]. destruct H as [->| ->]; done.
Qed.

Lemma bt_is_Some r k st :
  is_Some (bt r k st) <-> exists st', rmatch r st st' /\ is_Some (k st').
Proof.
  split.
  - intros [res H]. apply bt_sound in H as (st' & M & H). eauto.
  - intros (st' & M & H). by apply (bt_complete _ _ _ M).
Qed.

End ReFacts.

(** ** Matches of literals and of runs of one character class *)

Section ClassRuns.

Lemma is_char_true x c : is_char x c = true <-> x = c.
Proof. apply Ascii.eqb_eq. Qed.

Lemma rmatch_Cls_inv p st st' :
  rmatch (Cls p) st st' ->
  exists c, p c = true /\ rest st = c :: rest st'
            /\ pos st' = S (pos st) /\ grp st' = grp st.
Proof. inversion 1; subst. exists c. cbn. done. Qed.

Lemma rmatch_lit_inv l st st' :
  rmatch (lit l) st st' ->
  rest st = l ++ rest st' /\ pos st' = pos st + length l /\ grp st' = grp st.
Proof.
  revert st. induction l as [|c l IH]; intros st H; cbn in H.
  - inversion H; subst. cbn. repeat split; first [done|lia].
  - inversion H as [| |? ? ? st1 ? H1 H2| | | | | | |]; subst.
    apply rmatch_Cls_inv in H1 as (c' & Hc & Hr & Hp & Hg).
    apply is_char_true in Hc as <-.
    apply IH in H2 as (Hr2 & Hp2 & Hg2).
    rewrite Hr, Hr2, Hp2, Hp, Hg2, Hg. cbn. repeat split; first [done|lia].
Qed.

Lemma rmatch_lit_intro l q r g :
  rmatch (lit l) (MState q (l ++ r) g) (MState (q + length l) r g).
Proof.
  revert q. induction l as [|c l IH]; intros q; cbn.
  - rewrite Nat.add_0_r. constructor.
  - econstructor.
    + eapply (M_Cls _ (MState q (c :: l ++ r) g)); [reflexivity|].
      by apply is_char_true.
    + cbn. replace (q + S (length l)) with (S q + length l) by lia. apply IH.
Qed.

Lemma rmatch_Rep_inv p n st st' :
  rmatch (Rep n (Cls p)) st st' ->
  exists u, length u = n /\ Forall (fun c => p c = true) u
            /\ rest st = u ++ rest st' /\ pos st' = pos st + n
            /\ grp st' = grp st.
Proof.
  revert st. induction n as [|n IH]; intros st H; cbn in H.
  - inversion H; subst. exists []. cbn. repeat split; first [done|lia].
  - inversion H as [| |? ? ? st1 ? H1 H2| | | | | | |]; subst.
    apply rmatch_Cls_inv in H1 as (c & Hc & Hr & Hp & Hg).
    apply IH in H2 as (u & Hl & Hu & Hr2 & Hp2 & Hg2).
    exists (c :: u). cbn. rewrite Hl, Hr, Hr2, Hp2, Hp, Hg2, Hg.
    repeat split; first [done|lia|by constructor].
Qed.

Lemma rmatch_Upto_inv p n st st' :
  rmatch (Upto n (Cls p)) st st' ->
  exists u, length u <= n /\ Forall (fun c => p c = true) u
            /\ rest st = u ++ rest st' /\ pos st' = pos st + length u
            /\ grp st' = grp st.
Proof.
  revert st. induction n as [|n IH]; intros st H; cbn in H.
  - inversion H; subst. exists []. cbn. repeat split; first [done|lia].
  - inversion H as [| | |? ? ? ? H1|? ? ? ? H1| | | | |]; subst.
    + inversion H1 as [| |? ? ? st1 ? H2 H3| | | | | | |]; subst.
      apply rmatch_Cls_inv in H2 as (c & Hc & Hr & Hp & Hg).
      apply IH in H3 as (u & Hl & Hu & Hr2 & Hp2 & Hg2).
      exists (c :: u). cbn. rewrite Hr, Hr2, Hp2, Hp, Hg2, Hg.
      repeat split; first [done|lia|by constructor].
    + inversion H1; subst. exists []. cbn. repeat split; first [done|lia].
Qed.

Lemma rmatch_Rep_intro p u q r g :
  Forall (fun c => p c = true) u ->
  rmatch (Rep (length u) (Cls p)) (MState q (u ++ r) g)
         (MState (q + length u) r g).
Proof.
  intros Hu. revert q. induction Hu as [|c u Hc _ IH]; intros q; cbn.
  - rewrite Nat.add_0_r. constructor.
  - econstructor.
    + by eapply (M_Cls _ (MState q (c :: u ++ r) g)).
    + cbn. replace (q + S (length u)) with (S q + length u) by lia. apply IH.
Qed.

Lemma rmatch_Upto_intro p n u q r g :
  Forall (fun c => p c = true) u -> length u <= n ->
  rmatch (Upto n (Cls p)) (MState q (u ++ r) g) (MState (q + length u) r g).
Proof.
  intros Hu. revert q n. induction Hu as [|c u Hc _ IH]; intros q n Hn; cbn.
  - rewrite Nat.add_0_r. destruct n; cbn; [constructor|].
    apply M_AltR. constructor.
  - destruct n as [|n]; [cbn in Hn; lia|]. cbn. apply M_AltL. econstructor.
    + by eapply (M_Cls _ (MState q (c :: u ++ r) g)).
    + cbn. replace (q + S (length u)) with (S q + length u) by lia.
      apply IH. cbn in Hn. lia.
Qed.

(** A star over one class reads a run of that class and leaves the group. *)
Lemma rmatch_Star_Cls_inv g p st st' :
  rmatch (Star g (Cls p)) st st' ->
  exists u, Forall (fun c => p c = true) u
            /\ rest st = u ++ rest st' /\ pos st' = pos st + length u
            /\ grp st' = grp st.
Proof.
  intros H. remember (Star g (Cls p)) as r eqn:Er.
  induction H as [| | | | |g' r' st|g' r' st st1 st2 H1 _ Hlt H2 IH| | |];
    try discriminate; injection Er as -> ->.
  - exists []. cbn. repeat split; first [done|lia].
  - apply rmatch_Cls_inv in H1 as (c & Hc & Hr & Hp & Hg).
    destruct (IH eq_refl) as (u & Hu & Hr2 & Hp2 & Hg2).
    exists (c :: u). cbn. rewrite Hr, Hr2, Hp2, Hp, Hg2, Hg.
    repeat split; first [done|lia|by constructor].
Qed.

End ClassRuns.

(** ** Messaging-channel verification *)

Section VerifyWhatsapp.

Lemma keep_digit_plus_drop1 (s : str) :
  Forall (fun c => keep_digit_plus c = true) s ->
  Forall (fun c => keep_digit_plus c = true) (drop 1 s).
Proof. intros H. by apply Forall_drop. Qed.

Lemma clean_phone_kept (phone : str) :
  Forall (fun c => keep_digit_plus c = true) (clean_phone phone).
Proof.
  unfold clean_phone. apply List.Forall_forall. intros c Hc.
  by apply List.filter_In in Hc as [_ Hc].
Qed.

(** What [_normalize_phone] returns is never empty and made of digits and
    "+" only. *)
Lemma _normalize_phone_chars (phone n : str) :
  _normalize_phone phone = Some n ->
  n <> [] /\ Forall (fun c => keep_digit_plus c = true) n.
Proof.
  unfold _normalize_phone. destruct phone as [|c0 phone0]; [done|].
  set (cleaned := clean_phone (c0 :: phone0)).
  pose proof (clean_phone_kept (c0 :: phone0)) as Hk. fold cleaned in Hk.
  cbv zeta.
  destruct (startswith (txt "08") cleaned).
  { intros [= <-]. split; [done|].
    repeat (constructor; [reflexivity|]). by apply keep_digit_plus_drop1. }
  destruct (startswith (txt "62") cleaned && negb (startswith (txt "+") cleaned)).
  { intros [= <-]. split; [done|]. by constructor. }
  destruct (startswith (txt "+62") cleaned) eqn:E; [|done].
  intros [= <-]. split; [|done].
  apply startswith_spec in E as [r ->]. done.
Qed.

Lemma remove_spaces_kept (n : str) :
  Forall (fun c => keep_digit_plus c = true) n -> remove_spaces n = n.
Proof.
  induction 1 as [|c n Hc _ IH]; [done|].
  unfold remove_spaces in *. cbn [List.filter]. rewrite IH.
  destruct (is_char " " c) eqn:E; [|done].
  apply is_char_true in E as <-. discriminate.
Qed.

(** The heuristic test [re.match(mobile_pattern, ...)] on a normalised
    number. *)
Lemma mobile_pattern_match (n : str) :
  Forall (fun c => keep_digit_plus c = true) n ->
  is_Some (re_match mobile_pattern n) <-> mobile_number n.
Proof.
  intros Hn. unfold re_match. rewrite bt_is_Some. split.
  - intros (st' & M & _). unfold mobile_pattern in M.
    inversion M as [| |? ? ? st1 ? M1 M2| | | | | | |]; subst.
    inversion M1; subst.
    inversion M2 as [| |? ? ? st2 ? M3 M4| | | | | | |]; subst.
    apply (rmatch_lit_inv (txt "+628")) in M3 as (R3 & _ & _).
    inversion M4 as [| |? ? ? st3 ? M5 M6| | | | | | |]; subst.
    inversion M5 as [| |? ? ? st4 ? M7 M8| | | | | | |]; subst.
    apply (rmatch_Rep_inv is_digit 8) in M7 as (u1 & L1 & D1 & R1 & _).
    apply (rmatch_Upto_inv is_digit 2) in M8 as (u2 & L2 & D2 & R2 & _).
    inversion M6 as [| | | | | | | | |? Hend]; subst.
    cbn [rest] in R3. rewrite R1, R2 in R3.
    exists (u1 ++ u2). split; [|split].
    + destruct Hend as [E|E]; rewrite E in R3.
      * rewrite app_nil_r in R3. by rewrite R3.
      * exfalso. rewrite R3 in Hn.
        rewrite !Forall_app in Hn. destruct Hn as (_ & _ & _ & Hn).
        by inversion Hn.
    + by apply Forall_app.
    + rewrite length_app. cbn in L2. lia.
  - intros (ds & -> & Hd & Hl).
    set (a := take 8 ds). set (b := drop 8 ds).
    assert (Eds : ds = a ++ b) by (symmetry; apply take_drop).
    assert (La : length a = 8) by (unfold a; rewrite length_take; lia).
    assert (Lb : length b <= 2) by (unfold b; rewrite length_drop; lia).
    assert (Da : Forall (fun c => is_digit c = true) a) by (by apply Forall_take).
    assert (Db : Forall (fun c => is_digit c = true) b) by (by apply Forall_drop).
    clearbody a b. subst ds.
    pose proof (rmatch_lit_intro (txt "+628") 0 (a ++ b) None) as R1.
    pose proof (rmatch_Rep_intro is_digit a (0 + length (txt "+628")) b None Da)
      as R2.
    rewrite La in R2.
    pose proof (rmatch_Upto_intro is_digit 2 b (0 + length (txt "+628") + 8)
                                  [] None Db Lb) as R3.
    rewrite app_nil_r in R3.
    eexists. split; [|done]. unfold mobile_pattern.
    econstructor; [by constructor|].
    econstructor; [exact R1|].
    econstructor; [unfold Range; econstructor; [exact R2|exact R3]|].
    constructor. by left.
Qed.

Lemma verify_whatsapp_keeps (phone_number : str) (use_api : bool)
    (cache : gmap str bool) (n : str) (b : bool) :
  cache !! n = Some b ->
  (verify_whatsapp phone_number use_api cache).2 !! n = Some b.
Proof.
  intros Hn. unfold verify_whatsapp.
  destruct (_normalize_phone phone_number) as [[|c m]|]; [done| |done].
  destruct (cache !! (c :: m)) eqn:Hm; [done|]. cbn [snd].
  rewrite lookup_insert_ne; [done|]. intros <-. congruence.
Qed.

Lemma verify_all_keeps (calls : list (str * bool)) (cache : gmap str bool)
    (n : str) (b : bool) :
  cache !! n = Some b -> verify_all calls cache !! n = Some b.
Proof.
  revert cache. induction calls as [|[p u] calls IH]; intros cache Hn; [done|].
  cbn. apply IH. by apply verify_whatsapp_keeps.
Qed.

(** C8. [verify_whatsapp] normalises first and answers [exists = false]
    (with nothing cached) when the number does not normalise; otherwise the
    format is valid and: a cached answer for the normalised number is
    returned as it is; with no cached answer the answer is stored under the
    normalised number, and in heuristic mode it is [true] exactly for a
    number of the shape "+628" plus 8 to 10 digits; and every later call on
    the same validator, for any input with the same normalised number and
    in either mode, returns the answer of this call. *)
Theorem verify_whatsapp_cached (phone_number : str) (use_api : bool)
    (cache : gmap str bool) :
  let out := verify_whatsapp phone_number use_api cache in
  (_normalize_phone phone_number = None ->
     out = (mkWaResult false false false, cache))
  /\ (forall n, _normalize_phone phone_number = Some n ->
        is_valid_format out.1 = true
        /\ (forall b, cache !! n = Some b -> wa_exists out.1 = b /\ out.2 = cache)
        /\ (cache !! n = None ->
              out.2 = <[n := wa_exists out.1]> cache
              /\ (use_api = false ->
                    (wa_exists out.1 = true <-> mobile_number n)))
        /\ (forall (calls : list (str * bool)) phone' use_api',
              _normalize_phone phone' = Some n ->
              wa_exists (verify_whatsapp phone' use_api'
                                         (verify_all calls out.2)).1
              = wa_exists out.1)).
Proof.
  cbv zeta. split.
  - intros Hn. unfold verify_whatsapp. by rewrite Hn.
  - intros n Hn.
    destruct (_normalize_phone_chars _ _ Hn) as [Hne Hk].
    assert (Hstored :
              (verify_whatsapp phone_number use_api cache).2 !! n
              = Some (wa_exists (verify_whatsapp phone_number use_api cache).1)).
    { unfold verify_whatsapp. rewrite Hn. destruct n as [|c m]; [done|].
      destruct (cache !! (c :: m)) eqn:Hc; cbn [fst snd wa_exists]; [done|].
      by rewrite lookup_insert_eq. }
    split; [|split; [|split]].
    + unfold verify_whatsapp. rewrite Hn. destruct n as [|c m]; [done|].
      destruct (cache !! (c :: m)); [done|].
      destruct use_api; [done|]. by destruct (re_match _ _).
    + intros b Hb. unfold verify_whatsapp. rewrite Hn.
      destruct n as [|c m]; [done|]. by rewrite Hb.
    + intros Hnone. unfold verify_whatsapp. rewrite Hn.
      destruct n as [|c m]; [done|]. rewrite Hnone. cbn [fst snd].
      split; [done|]. intros ->.
      rewrite <- (mobile_pattern_match _ Hk), (remove_spaces_kept _ Hk).
      destruct (re_match mobile_pattern (c :: m)) eqn:E; cbn.
      * split; [eauto|done].
      * split; [done|]. by intros [? [=]].
    + intros calls phone' use_api' Hn'.
      pose proof (verify_all_keeps calls _ _ _ Hstored) as Hlater.
      unfold verify_whatsapp at 1. rewrite Hn'.
      destruct n as [|c m]; [done|]. by rewrite Hlater.
Qed.

End VerifyWhatsapp.

Lemma verify_whatsapp_cached_witness :
  is_valid_format (verify_whatsapp (txt "0812 3456 7890") false ∅).1 = true
  /\ (verify_whatsapp (txt "0812 3456 7890") false ∅).2
     = <[txt "+6281234567890" :=
           wa_exists (verify_whatsapp (txt "0812 3456 7890") false ∅).1]> ∅.
Proof.
  pose proof (proj2 (verify_whatsapp_cached (txt "0812 3456 7890") false ∅)
                    (txt "+6281234567890") eq_refl) as (H1 & _ & H3 & _).
  split; [exact H1|]. exact (proj1 (H3 (lookup_empty _))).
Defined.

(** ** Running the matcher on literals and greedy runs *)

Section RunningTheMatcher.




Lemma bt_Cls_nil p k q g : bt (Cls p) k (MState q [] g) = None.
Proof. reflexivity. Qed.






Lemma bt_lit l k st :
  bt (lit l) k st
  = if startswith l (rest st)
    then k (MState (pos st + length l) (drop (length l) (rest st)) (grp st))
    else None.
Proof.
  revert st. induction l as [|c l IH]; intros [q s g]; cbn.
  - by rewrite Nat.add_0_r.
  - destruct s as [|d s]; [done|]. unfold is_char.
    destruct (Ascii.eqb c d); [|done]. cbn.
    rewrite IH. cbn [pos rest grp].
    by replace (q + S (length l)) with (S q + length l) by lia.
Qed.

(** A greedy star over a class reads the whole run when the continuation
    accepts there. *)
Lemma star_loop_greedy_run p k n q u r g :
  Forall (fun c => p c = true) u ->
  match r with c :: _ => p c = false | [] => True end ->
  length (u ++ r) <= n ->
  is_Some (k (MState (q + length u) r g)) ->
  star_loop (bt (Cls p)) true k n (MState q (u ++ r) g)
  = k (MState (q + length u) r g).
Proof.
  intros Hu Hr. revert q n. induction Hu as [|c u Hc _ IH]; intros q n Hn Hk.
  - cbn in *. rewrite Nat.add_0_r in *.
    destruct n as [|n]; cbn; [done|].
    destruct r as [|c r]; [done|]. by rewrite Hr.
  - destruct n as [|n]; [cbn in Hn; lia|].
    cbn [star_loop]. cbn [bt rest app pos grp]. rewrite Hc.
    replace (q <? S q) with true by (symmetry; apply Nat.ltb_lt; lia).
    cbn [length app] in *.
    replace (q + S (length u)) with (S q + length u) in * by lia.
    rewrite IH; [|lia|done]. by destruct Hk as [? ->].
Qed.

Lemma bt_lit_digits_here L q ds r :
  ds <> [] -> all_digits ds -> digit_free_start r = true ->
  bt (lit_digits L) Some (MState q (L ++ ds ++ r) None)
  = Some (MState (q + length L + length ds) r (Some ds)).
Proof.
  intros Hne Hds Hr. unfold lit_digits. cbn [bt]. rewrite bt_lit. cbn [rest pos grp].
  rewrite startswith_app, drop_app_length.
  destruct ds as [|d ds]; [done|]. inversion Hds as [|? ? Hd Hds']; subst.
  unfold Plus. cbn [bt rest app pos grp]. rewrite Hd. cbn [rest length].
  etrans.
  { apply (star_loop_greedy_run is_digit _ _ _ ds r None); [done| |done|done].
    destruct r as [|c r]; [done|]. cbn in Hr. by destruct (is_digit c). }
  cbn [pos rest]. f_equal. f_equal; [lia|].
  replace (S (q + length L) + length ds - (q + length L))
    with (length (d :: ds)) by (cbn; lia).
  change (d :: ds ++ r) with ((d :: ds) ++ r).
  by rewrite take_app_length.
Qed.

Lemma bt_lit_digits_none L q s :
  link_at L s = false -> bt (lit_digits L) Some (MState q s None) = None.
Proof.
  unfold link_at, lit_digits. intros H. cbn [bt]. rewrite bt_lit. cbn [rest].
  destruct (startswith L s); [|done]. cbn in H.
  unfold Plus. cbn [bt rest]. destruct (drop (length L) s) as [|c s']; [done|].
  by rewrite H.
Qed.

Lemma forallb_seq_S (f : nat -> bool) a n :
  forallb f (seq (S a) n) = forallb (fun i => f (S i)) (seq a n).
Proof.
  revert a. induction n as [|n IH]; intros a; cbn; [done|]. by rewrite IH.
Qed.

Lemma no_link_before_S L n c s :
  no_link_before L (S n) (c :: s)
  = negb (link_at L (c :: s)) && no_link_before L n s.
Proof.
  unfold no_link_before. cbn [seq forallb drop]. f_equal.
  by rewrite forallb_seq_S.
Qed.

Lemma search_lit_digits L pre ds r q :
  ds <> [] -> all_digits ds -> digit_free_start r = true ->
  no_link_before L (length pre) (pre ++ L ++ ds ++ r) = true ->
  search_from (lit_digits L) q (pre ++ L ++ ds ++ r)
  = Some (MState (q + length pre + length L + length ds) r (Some ds)).
Proof.
  intros Hne Hds Hr. revert q. induction pre as [|c pre IH]; intros q Hno.
  - cbn [app length]. rewrite Nat.add_0_r.
    destruct (L ++ ds ++ r) eqn:E; cbn [search_from]; rewrite <- ?E;
      by rewrite bt_lit_digits_here.
  - cbn [app length] in *. rewrite no_link_before_S in Hno.
    apply andb_prop in Hno as [Hc Hno]. apply negb_true_iff in Hc.
    cbn [search_from]. rewrite (bt_lit_digits_none _ _ _ Hc).
    rewrite IH by done. f_equal. f_equal. lia.
Qed.

Lemma search_lit_digits_none L s q :
  no_link_before L (S (length s)) s = true ->
  search_from (lit_digits L) q s = None.
Proof.
  revert q. induction s as [|c s IH]; intros q Hno.
  - cbn [search_from]. rewrite bt_lit_digits_none; [done|].
    unfold no_link_before in Hno. cbn in Hno.
    by destruct (link_at L []).
  - rewrite no_link_before_S in Hno.
    apply andb_prop in Hno as [Hc Hno]. apply negb_true_iff in Hc.
    cbn [search_from]. rewrite (bt_lit_digits_none _ _ _ Hc). by apply IH.
Qed.

End RunningTheMatcher.

(** ** The model-level WhatsApp validator *)

Lemma normalize_whatsapp_unfold (v : str) :
  v <> [] ->
  normalize_whatsapp (Some v)
  = match search_from (lit_digits (txt "wa.me/")) 0 v with
    | Some wa_me_match => Some (txt "+" ++ group1 wa_me_match)
    | None =>
      match search_from (lit_digits (txt "phone=")) 0 v with
      | Some api_match => Some (txt "+" ++ group1 api_match)
      | None =>
        let cleaned := clean_phone v in
        if startswith (txt "08") cleaned then Some (txt "+62" ++ drop 1 cleaned)
        else if startswith (txt "62") cleaned then Some (txt "+" ++ cleaned)
        else if startswith (txt "+62") cleaned then Some cleaned
        else Some v
      end
    end.
Proof. by destruct v. Qed.

(** C10. When the value holds a [wa.me/<digits>] link, the validator
    returns "+" followed by the digits of the first such link, unchanged;
    when it holds no such link but a [phone=<digits>] parameter, "+"
    followed by the digits of the first such parameter. Nothing else is
    done to the digits: a leading 0 stays and no length is required, so the
    result need not start with "+62", as with "wa.me/0812", which gives
    "+0812", a value the extractor's normalisation rejects. *)
Theorem normalize_whatsapp_deep_link (pre ds post : str) :
  ds <> [] -> all_digits ds -> digit_free_start post = true ->
  (no_link_before (txt "wa.me/") (length pre)
                  (pre ++ txt "wa.me/" ++ ds ++ post) = true ->
   normalize_whatsapp (Some (pre ++ txt "wa.me/" ++ ds ++ post))
   = Some (txt "+" ++ ds))
  /\ (no_link (txt "wa.me/") (pre ++ txt "phone=" ++ ds ++ post) = true ->
      no_link_before (txt "phone=") (length pre)
                     (pre ++ txt "phone=" ++ ds ++ post) = true ->
      normalize_whatsapp (Some (pre ++ txt "phone=" ++ ds ++ post))
      = Some (txt "+" ++ ds))
  /\ (normalize_whatsapp (Some (txt "https://wa.me/0812")) = Some (txt "+0812")
      /\ startswith (txt "+62") (txt "+0812") = false
      /\ _normalize_indonesian_phone (txt "0812") = None).
Proof.
  intros Hne Hds Hpost. split; [|split].
  - intros Hno. rewrite normalize_whatsapp_unfold by (by destruct pre).
    by rewrite search_lit_digits.
  - intros Hno1 Hno2. rewrite normalize_whatsapp_unfold by (by destruct pre).
    rewrite search_lit_digits_none by exact Hno1.
    by rewrite search_lit_digits.
  - repeat split; vm_compute; reflexivity.
Qed.

Lemma normalize_whatsapp_deep_link_witness :
  normalize_whatsapp (Some (txt "https://www.wa.me/081234567890?text=halo"))
  = Some (txt "+081234567890")
  /\ normalize_whatsapp
       (Some (txt "https://api.whatsapp.com/send?phone=6281234567890&text=halo"))
     = Some (txt "+6281234567890").
Proof.
  split.
  - apply (proj1 (normalize_whatsapp_deep_link
                    (txt "https://www.") (txt "081234567890") (txt "?text=halo")
                    ltac:(discriminate) ltac:(repeat constructor) eq_refl)).
    vm_compute. reflexivity.
  - apply (proj1 (proj2 (normalize_whatsapp_deep_link
                    (txt "https://api.whatsapp.com/send?")
                    (txt "6281234567890") (txt "&text=halo")
                    ltac:(discriminate) ltac:(repeat constructor) eq_refl)));
      vm_compute; reflexivity.
Defined.

(** ** Parsing the provider's response *)

Section ExtractJsonFacts.

Context {JSON : Type} (json_loads : str -> option JSON).





End ExtractJsonFacts.

Section BraceCandidate.








End BraceCandidate.

Section FencedCandidates.













End FencedCandidates.







(** ** WhatsApp extraction *)

Section ExtractWhatsapp.

Lemma finditer_from_match fuel r p s m :
  m ∈ finditer_from fuel r p s ->
  exists q s', bt r Some (MState q s' None) = Some m.
Proof.
  revert p s. induction fuel as [|fuel IH]; intros p s; cbn [finditer_from].
  - intros H. inversion H.
  - destruct (bt r Some (MState p s None)) as [st|] eqn:E.
    + intros [->|H]%elem_of_cons; [eauto|].
      destruct (p <? pos st); [by eapply IH|].
      destruct s; [inversion H|by eapply IH].
    + destruct s; [intros H; inversion H|apply IH].
Qed.

Lemma finditer_rmatch r text m :
  m ∈ re_finditer r text -> exists q s', rmatch r (MState q s' None) m.
Proof.
  intros (q & s' & H)%finditer_from_match.
  apply bt_sound in H as (st' & M & [= ->]). eauto.
Qed.

Lemma rmatch_Plus_Cls_inv g p st st' :
  rmatch (Plus g (Cls p)) st st' ->
  exists u, u <> [] /\ Forall (fun c => p c = true) u
            /\ rest st = u ++ rest st' /\ pos st' = pos st + length u.
Proof.
  unfold Plus. inversion 1 as [| |? ? ? st1 ? H1 H2| | | | | | |]; subst.
  apply rmatch_Cls_inv in H1 as (c & Hc & Hr & Hp & _).
  apply rmatch_Star_Cls_inv in H2 as (u & Hu & Hr2 & Hp2 & _).
  exists (c :: u). rewrite Hr, Hr2, Hp2, Hp. cbn.
  repeat split; first [done|lia|by constructor].
Qed.

(** The group of a pattern [prefix(\d+)] is a non-empty run of digits. *)
Lemma group_of_digits prefix st m :
  rmatch (Cat prefix (Grp (Plus true (Cls is_digit)))) st m ->
  group1 m <> [] /\ all_digits (group1 m).
Proof.
  inversion 1 as [| |? ? ? st1 ? _ H2| | | | | | |]; subst.
  inversion H2 as [| | | | | | |? ? st2 H3| |]; subst.
  apply rmatch_Plus_Cls_inv in H3 as (u & Hne & Hu & Hr & Hp).
  unfold group1. cbn [grp default].
  replace (pos st2 - pos st1) with (length u) by lia.
  rewrite Hr, take_app_length. done.
Qed.

Lemma all_digits_drop n (ds : str) : all_digits ds -> all_digits (drop n ds).
Proof. apply Forall_drop. Qed.

Lemma startswith_drop (p s : str) :
  startswith p s = true -> s = p ++ drop (length p) s.
Proof.
  intros [r ->]%startswith_spec. by rewrite drop_app_length.
Qed.

Lemma deep_link_number_form (num : str) :
  all_digits num -> intl_form (deep_link_number num).
Proof.
  intros Hn. unfold deep_link_number.
  destruct (startswith (txt "62") num) eqn:E.
  - exists (drop 2 num). split; [|by apply all_digits_drop].
    rewrite (startswith_drop _ _ E) at 1. reflexivity.
  - by exists num.
Qed.

Lemma clean_phone_cons (c : ascii) (s : str) :
  clean_phone (c :: s)
  = if keep_digit_plus c then c :: clean_phone s else clean_phone s.
Proof. reflexivity. Qed.

Lemma clean_phone_idemp (s : str) : clean_phone (clean_phone s) = clean_phone s.
Proof.
  induction s as [|c s IH]; [done|]. rewrite clean_phone_cons.
  destruct (keep_digit_plus c) eqn:E; [|done].
  by rewrite clean_phone_cons, E, IH.
Qed.

Lemma clean_phone_app (a b : str) :
  clean_phone (a ++ b) = clean_phone a ++ clean_phone b.
Proof. apply List.filter_app. Qed.

Lemma clean_phone_body (u : str) :
  Forall (fun c => phone_body c = true) u -> all_digits (clean_phone u).
Proof.
  induction 1 as [|c u Hc _ IH]; [constructor|].
  rewrite clean_phone_cons. unfold keep_digit_plus.
  destruct (is_digit c) eqn:Hd; [by constructor|].
  destruct (is_char "+" c) eqn:Hp; [|exact IH].
  apply is_char_true in Hp as <-. discriminate.
Qed.

(** On an input whose cleaned text is an optional "+" followed by digits,
    the scraper's normalisation gives the international form or nothing. *)
Lemma normalize_plus_digits (phone n : str) :
  plus_digits (clean_phone phone) ->
  _normalize_indonesian_phone phone = Some n -> intl_form n.
Proof.
  intros (ds & Hds & Hc). unfold _normalize_indonesian_phone.
  destruct phone as [|c0 s0] eqn:Ec; [done|]. rewrite <- Ec in *. clear Ec.
  set (cleaned := clean_phone phone) in *. cbv zeta.
  destruct (length cleaned <? 10); [done|].
  destruct (startswith (txt "08") cleaned) eqn:E08.
  { intros [= <-]. exists (drop 1 cleaned). split; [done|].
    destruct Hc as [->| ->]; [by apply all_digits_drop|discriminate]. }
  destruct (startswith (txt "62") cleaned && negb (startswith (txt "+") cleaned))
    eqn:E62.
  { intros [= <-]. apply andb_prop in E62 as [E62 _].
    exists (drop 2 cleaned). split.
    - rewrite (startswith_drop _ _ E62) at 1. reflexivity.
    - destruct Hc as [->| ->]; [by apply all_digits_drop|discriminate]. }
  destruct (startswith (txt "+62") cleaned) eqn:Ep62.
  { intros [= <-]. exists (drop 3 cleaned). split.
    - rewrite (startswith_drop _ _ Ep62) at 1. reflexivity.
    - destruct Hc as [->| ->]; [by apply all_digits_drop|].
      by apply (all_digits_drop 2). }
  destruct (startswith (txt "0") cleaned) eqn:E0; [|done].
  intros [= <-]. exists (drop 1 cleaned). split; [done|].
  destruct Hc as [->| ->]; [by apply all_digits_drop|discriminate].
Qed.


(** A match reads a text of the pattern's language. *)
Lemma rmatch_lang r st st' :
  rmatch r st st' ->
  exists u, lang r u /\ rest st = u ++ rest st'
            /\ pos st' = pos st + length u.
Proof.
  induction 1 as [st|p st c s' Hr Hp|r1 r2 st st1 st2 _ IH1 _ IH2
                  |r1 r2 st st' _ IH|r1 r2 st st' _ IH|g r st
                  |g r st st1 st2 _ IH1 Hlt _ IH2|r st st' _ IH|st H|st H].
  - exists []. cbn. repeat split; first [done|lia].
  - exists [c]. cbn. repeat split; first [done|lia|eauto].
  - destruct IH1 as (u1 & L1 & E1 & P1), IH2 as (u2 & L2 & E2 & P2).
    exists (u1 ++ u2). rewrite <- app_assoc, <- E2, length_app. cbn.
    repeat split; first [done|lia|eauto].
  - destruct IH as (u & L & E & P). exists u. cbn. eauto.
  - destruct IH as (u & L & E & P). exists u. cbn. eauto.
  - exists []. cbn. repeat split; first [done|lia|idtac].
    exists []. by split.
  - destruct IH1 as (u1 & L1 & E1 & P1), IH2 as (u2 & L2 & E2 & P2).
    exists (u1 ++ u2). rewrite <- app_assoc, <- E2, length_app.
    repeat split; first [done|lia|idtac].
    cbn in L2. destruct L2 as (us & -> & Hus).
    exists (u1 :: us). split; [done|by constructor].
  - destruct IH as (u & L & E & P). exists u. cbn. eauto.
  - exists []. cbn. repeat split; first [done|lia].
  - exists []. cbn. repeat split; first [done|lia].
Qed.

Lemma lang_within (P : ascii -> Prop) r :
  classes_within P r -> forall u, lang r u -> Forall P u.
Proof.
  induction r as [|p|r1 IH1 r2 IH2|r1 IH1 r2 IH2|g r IH|r IH| |];
    cbn; intros HP u Hu.
  - by subst.
  - destruct Hu as (c & -> & Hc). constructor; [by apply HP|constructor].
  - destruct HP as [HP1 HP2], Hu as (u1 & u2 & -> & H1 & H2).
    apply Forall_app. split; [by apply IH1|by apply IH2].
  - destruct HP as [HP1 HP2], Hu as [Hu|Hu]; [by apply IH1|by apply IH2].
  - destruct Hu as (us & -> & Hus). induction Hus as [|v us Hv _ IHus]; cbn.
    + constructor.
    + apply Forall_app. split; [by apply IH|done].
  - by apply IH.
  - by subst.
  - by subst.
Qed.

Lemma lang_lit l u : lang (lit l) u -> u = l.
Proof.
  revert u. induction l as [|c l IH]; cbn; intros u Hu; [done|].
  destruct Hu as (u1 & u2 & -> & (d & -> & Hd) & H2).
  apply is_char_true in Hd as <-. cbn. f_equal. by apply IH.
Qed.

(** The text of group 1 belongs to the language of the group's body. *)
Lemma group_lang r st m : rmatch (Grp r) st m -> lang r (group1 m).
Proof.
  inversion 1 as [| | | | | | |? ? st' M| |]; subst.
  apply rmatch_lang in M as (u & L & E & P).
  unfold group1. cbn [grp default].
  replace (pos st' - pos st) with (length u) by lia.
  by rewrite E, take_app_length.
Qed.

Lemma lit_within (P : ascii -> Prop) (l : str) :
  Forall P l -> classes_within P (lit l).
Proof.
  induction 1 as [|c l Hc _ IH]; cbn; [done|]. split; [|done].
  by intros d <-%is_char_true.
Qed.

Lemma Rep_within (P : ascii -> Prop) n r :
  classes_within P r -> classes_within P (Rep n r).
Proof. intros Hr. induction n; cbn; done. Qed.

Lemma Upto_within (P : ascii -> Prop) n r :
  classes_within P r -> classes_within P (Upto n r).
Proof. intros Hr. induction n; cbn; done. Qed.

Lemma Range_within (P : ascii -> Prop) lo hi r :
  classes_within P r -> classes_within P (Range lo hi r).
Proof. intros Hr. split; [by apply Rep_within|by apply Upto_within]. Qed.

Lemma digit_space_hyphen_body c :
  digit_space_hyphen c = true -> phone_body c = true.
Proof.
  unfold digit_space_hyphen, phone_body.
  destruct (is_digit c), (is_space c), (is_char "-" c); cbn; done.
Qed.

(** The groups of the four phone patterns, once cleaned, are an optional
    "+" followed by digits. *)
Lemma phone_pattern_group pattern st m :
  pattern ∈ phone_patterns -> rmatch pattern st m ->
  plus_digits (clean_phone (group1 m)).
Proof.
  unfold phone_patterns. rewrite !elem_of_cons.
  intros [->|[->|[->|[->|H]]]] M; [| | | |inversion H];
    apply group_lang in M.
  - destruct M as (u1 & u2 & -> & ->%lang_lit & H2).
    apply (lang_within (fun c => phone_body c = true)) in H2;
      [|apply Range_within; exact digit_space_hyphen_body].
    rewrite clean_phone_app. exists (txt "62" ++ clean_phone u2). split.
    + apply Forall_app. split; [repeat constructor|by apply clean_phone_body].
    + by right.
  - exists (clean_phone (group1 m)). split; [|by left].
    apply clean_phone_body.
    eapply (lang_within (fun c => phone_body c = true)); [|exact M].
    split; [apply lit_within; repeat constructor|].
    apply Range_within. exact digit_space_hyphen_body.
  - exists (clean_phone (group1 m)). split; [|by left].
    apply clean_phone_body.
    eapply (lang_within (fun c => phone_body c = true)); [|exact M].
    split; [apply lit_within; repeat constructor|].
    apply Range_within. exact digit_space_hyphen_body.
  - exists (clean_phone (group1 m)). split; [|by left].
    apply clean_phone_body.
    eapply (lang_within (fun c => phone_body c = true)); [|exact M].
    split; [apply lit_within; repeat constructor|].
    split; [apply Range_within; intros c Hc; unfold phone_body; by rewrite Hc|].
    split; [|apply Range_within; intros c Hc; unfold phone_body; by rewrite Hc].
    split; [|done]. intros c. unfold space_or_hyphen, phone_body.
    destruct (is_digit c), (is_space c), (is_char "-" c); cbn; done.
Qed.

Lemma phones_found_form (text x : str) : x ∈ phones_found text -> intl_form x.
Proof.
  unfold phones_found. intros (l & Hx & Hl)%list_elem_of_join.
  apply list_elem_of_fmap_1 in Hl as (pattern & -> & Hp).
  apply list_elem_of_omap in Hx as (m & Hm & Hx).
  apply finditer_rmatch in Hm as (q & s' & M).
  eapply normalize_plus_digits; [|exact Hx].
  by eapply phone_pattern_group.
Qed.

(** The group of [phone_pattern], once cleaned, is an optional "+" followed
    by digits. *)
Lemma labelled_group_clean st m :
  rmatch phone_pattern st m -> plus_digits (clean_phone (group1 m)).
Proof.
  unfold phone_pattern.
  inversion 1 as [| |? ? ? st1 ? _ H2| | | | | | |]; subst.
  inversion H2 as [| |? ? ? st2 ? _ H3| | | | | | |]; subst.
  inversion H3 as [| | | | | | |? ? st3 H4| |]; subst.
  inversion H4 as [| |? ? ? st4 ? H5 H6| | | | | | |]; subst.
  apply (rmatch_Plus_Cls_inv true phone_body) in H6 as (u & _ & Hu & Hr & Hp).
  unfold group1. cbn [grp default].
  inversion H5 as [| | |? ? ? ? H7|? ? ? ? H7| | | | |]; subst.
  - apply rmatch_Cls_inv in H7 as (c & Hc & Hr7 & Hp7 & _).
    apply is_char_true in Hc as <-.
    replace (pos st3 - pos st2) with (length ("+"%char :: u)) by (cbn; lia).
    rewrite Hr7, Hr. change ("+"%char :: u ++ rest st3)
      with (("+"%char :: u) ++ rest st3).
    rewrite take_app_length.
    exists (clean_phone u). split; [by apply clean_phone_body|]. by right.
  - inversion H7; subst.
    replace (pos st3 - pos st4) with (length u) by lia.
    rewrite Hr, take_app_length.
    exists (clean_phone u). split; [by apply clean_phone_body|]. by left.
Qed.


Lemma whatsapp_numbers_form (text x : str) :
  x ∈ whatsapp_numbers text -> intl_form x.
Proof.
  unfold whatsapp_numbers. rewrite !elem_of_app.
  intros [H|[H|H]].
  - apply list_elem_of_fmap_1 in H as (m & -> & Hm).
    apply finditer_rmatch in Hm as (q & s' & M).
    apply deep_link_number_form. by apply group_of_digits in M as [_ ?].
  - apply list_elem_of_fmap_1 in H as (m & -> & Hm).
    apply finditer_rmatch in Hm as (q & s' & M).
    apply deep_link_number_form. by apply group_of_digits in M as [_ ?].
  - apply list_elem_of_omap in H as (m & Hm & Hx).
    apply finditer_rmatch in Hm as (q & s' & M).
    unfold labelled_number in Hx.
    eapply normalize_plus_digits; [|exact Hx].
    rewrite clean_phone_idemp. by eapply labelled_group_clean.
Qed.




End ExtractWhatsapp.

(** ** Crawl traversal *)

Section CrawlFacts.

Context (scrape_page : str -> ScrapedPage) (netloc : str -> str).

Let body := loop_body scrape_page netloc.
Let loop := crawl_loop scrape_page netloc.

(** What one turn of the loop does to a state whose list starts with [url]:
    it skips [url] (visited or off scope), or fetches it and fails, or
    fetches it and succeeds. *)
Lemma loop_body_cases domain st url tv :
  to_visit st = url :: tv ->
  (body domain st
   = mkCrawl tv (visited_urls (body domain st)) (pages st) (scraped_log st)
   /\ visited_urls st ⊆ visited_urls (body domain st))
  \/ ((url ∉ visited_urls st) /\ netloc url = domain
      /\ success (scrape_page url) = false
      /\ body domain st
         = mkCrawl tv ({[url]} ∪ visited_urls st) (pages st)
                   (scraped_log st ++ [url]))
  \/ ((url ∉ visited_urls st) /\ netloc url = domain
      /\ success (scrape_page url) = true
      /\ exists tv',
           body domain st
           = mkCrawl tv' ({[url]} ∪ visited_urls st)
                     (pages st ++ [scrape_page url]) (scraped_log st ++ [url])).
Proof.
  intros Htv. unfold body, loop_body. rewrite Htv.
  unfold in_set, str_eqb.
  destruct (bool_decide (url ∈ visited_urls st)) eqn:Hv.
  { left. cbn. split; [done|set_solver]. }
  apply bool_decide_eq_false in Hv.
  destruct (bool_decide (netloc url = domain)) eqn:Hd; cbn [negb].
  2:{ left. cbn. split; [done|set_solver]. }
  apply bool_decide_eq_true in Hd.
  destruct (success (scrape_page url)) eqn:Hs.
  - right. right. repeat split; try done.
    destruct (classify_links _ _) as [pl ol]. eauto.
  - right. left. done.
Qed.

(** The loop ends, whatever the page graph: a turn either adds a page, and
    there is room for fewer than [max_pages] of them, or shortens the list. *)
Lemma crawl_loop_terminates domain max_pages :
  forall budget n st,
    Z.to_nat (max_pages - Z.of_nat (length (pages st))) = budget ->
    length (to_visit st) = n ->
    exists fuel st', loop fuel domain max_pages st = Some st'.
Proof.
  induction budget as [budget IHb] using lt_wf_ind.
  induction n as [|n IHn]; intros st Hb Hn.
  - exists 1, st. cbn. unfold loop_cond.
    destruct (to_visit st); [done|discriminate].
  - destruct (loop_cond max_pages st) eqn:Hc.
    2:{ exists 1, st. cbn. by rewrite Hc. }
    assert (exists fuel st',
               loop fuel domain max_pages (body domain st) = Some st')
      as (fuel & st' & Hrun).
    { unfold loop_cond in Hc.
      destruct (to_visit st) as [|url tv] eqn:Htv; [done|].
      apply Z.ltb_lt in Hc. cbn in Hn.
      destruct (loop_body_cases domain st url tv Htv)
        as [[E _]|[(_ & _ & _ & E)|(_ & _ & _ & tv' & E)]].
      - apply IHn; rewrite E; cbn; [done|lia].
      - apply IHn; rewrite E; cbn; [done|lia].
      - eapply (IHb (Z.to_nat (max_pages
                               - Z.of_nat (length (pages (body domain st))))));
          [|reflexivity|reflexivity].
        rewrite E. cbn. rewrite length_app. cbn. lia. }
    exists (S fuel), st'. cbn. rewrite Hc. exact Hrun.
Qed.

(** More fuel does not change the result. *)
Lemma crawl_loop_deterministic domain max_pages fuel1 fuel2 st st1 st2 :
  loop fuel1 domain max_pages st = Some st1 ->
  loop fuel2 domain max_pages st = Some st2 -> st1 = st2.
Proof.
  revert fuel2 st. induction fuel1 as [|fuel1 IH]; intros fuel2 st; [done|].
  destruct fuel2 as [|fuel2]; [done|]. cbn.
  destruct (loop_cond max_pages st); [apply IH|congruence].
Qed.

Lemma crawl_inv_body domain max_pages st :
  loop_cond max_pages st = true ->
  crawl_inv scrape_page max_pages st -> crawl_inv scrape_page max_pages (body domain st).
Proof.
  intros Hc (Hp & Hv & Hn & Hb). unfold loop_cond in Hc.
  destruct (to_visit st) as [|url tv] eqn:Htv; [done|].
  apply Z.ltb_lt in Hc.
  destruct (loop_body_cases domain st url tv Htv)
    as [[E Hsub]|[(Hu & _ & Hs & E)|(Hu & _ & Hs & tv' & E)]].
  - rewrite E. unfold crawl_inv. cbn. repeat split; try done.
    intros u Hin. apply Hsub. by apply Hv.
  - rewrite E. unfold crawl_inv. cbn. repeat split; try done.
    + rewrite filter_app, filter_cons, filter_nil.
      destruct (decide (fetched_ok scrape_page url)) as [Hok|_].
      * unfold fetched_ok in Hok. congruence.
      * by rewrite app_nil_r.
    + intros u [Hin|Hin%list_elem_of_singleton]%elem_of_app; [|set_solver].
      specialize (Hv u Hin). set_solver.
    + apply NoDup_app. repeat split; [done| |apply NoDup_singleton].
      intros u Hin Hin'%list_elem_of_singleton. subst u. by apply Hu, Hv.
  - rewrite E. unfold crawl_inv. cbn. repeat split.
    + rewrite filter_app, filter_cons, filter_nil.
      destruct (decide (fetched_ok scrape_page url)) as [_|Hno]; [|done].
      by rewrite fmap_app, Hp.
    + intros u [Hin|Hin%list_elem_of_singleton]%elem_of_app; [|set_solver].
      specialize (Hv u Hin). set_solver.
    + apply NoDup_app. repeat split; [done| |apply NoDup_singleton].
      intros u Hin Hin'%list_elem_of_singleton. subst u. by apply Hu, Hv.
    + rewrite length_app. cbn. lia.
Qed.

Lemma crawl_loop_inv domain max_pages fuel st st' :
  loop fuel domain max_pages st = Some st' ->
  crawl_inv scrape_page max_pages st ->
  crawl_inv scrape_page max_pages st' /\ loop_cond max_pages st' = false.
Proof.
  revert st. induction fuel as [|fuel IH]; intros st; [done|]. cbn.
  destruct (loop_cond max_pages st) eqn:Hc.
  - intros Hrun Hinv. apply (IH _ Hrun). by apply crawl_inv_body.
  - intros [= <-] Hinv. done.
Qed.

Lemma crawl_inv_init max_pages base_url :
  crawl_inv scrape_page max_pages (crawl_init base_url).
Proof.
  unfold crawl_inv, crawl_init. cbn. repeat split; try done.
  - intros u Hu. inversion Hu.
  - constructor.
  - lia.
Qed.

Lemma fetched_ok_pages (l : list str) :
  Forall (fun p => success p = true) (scrape_page <$> filter (fetched_ok scrape_page) l).
Proof.
  apply Forall_fmap, Forall_forall. intros u Hu.
  by apply list_elem_of_filter in Hu as [? _].
Qed.

End CrawlFacts.

(** C4, as the code has it. The crawl returns for every page graph and
    every bound, with a result that does not depend on the fuel. Its list
    holds the successfully fetched pages only, in fetch order: a URL whose
    fetch fails is marked visited, gets no entry, and the loop goes on with
    the rest of the list. The loop runs exactly while the to-visit list is
    non-empty and the number of pages collected so far, not the number of
    URLs visited, is below [max_pages]; so at the end that condition is
    false and at most [max_pages] pages are returned, each URL having been
    fetched at most once. *)
Theorem crawl_collects_successes (scrape_page : str -> ScrapedPage)
    (netloc : str -> str) (base_url : str) (max_pages : Z) :
  (exists fuel st,
      scrape_school_website scrape_page netloc fuel base_url max_pages = Some st)
  /\ (forall fuel1 fuel2 st1 st2,
        scrape_school_website scrape_page netloc fuel1 base_url max_pages
        = Some st1 ->
        scrape_school_website scrape_page netloc fuel2 base_url max_pages
        = Some st2 ->
        st1 = st2)
  /\ (forall fuel st,
        scrape_school_website scrape_page netloc fuel base_url max_pages = Some st ->
        Forall (fun p => success p = true) (pages st)
        /\ pages st
           = scrape_page <$> filter (fetched_ok scrape_page) (scraped_log st)
        /\ NoDup (scraped_log st)
        /\ (Z.of_nat (length (pages st)) <= Z.max 0 max_pages)%Z
        /\ loop_cond max_pages st = false)
  /\ (forall st,
        loop_cond max_pages st = true
        <-> to_visit st <> []
            /\ (Z.of_nat (length (pages st)) < max_pages)%Z)
  /\ (forall fuel domain st,
        crawl_loop scrape_page netloc (S fuel) domain max_pages st
        = if loop_cond max_pages st
          then crawl_loop scrape_page netloc fuel domain max_pages
                          (loop_body scrape_page netloc domain st)
          else Some st)
  /\ (forall domain st url tv,
        to_visit st = url :: tv ->
        url ∉ visited_urls st ->
        netloc url = domain ->
        success (scrape_page url) = false ->
        loop_body scrape_page netloc domain st
        = mkCrawl tv ({[url]} ∪ visited_urls st) (pages st)
                  (scraped_log st ++ [url])).
Proof.
  split; [|split; [|split; [|split; [|split]]]].
  - unfold scrape_school_website.
    eapply crawl_loop_terminates; reflexivity.
  - unfold scrape_school_website. intros fuel1 fuel2 st1 st2.
    apply crawl_loop_deterministic.
  - intros fuel st Hrun. unfold scrape_school_website in Hrun.
    destruct (crawl_loop_inv _ _ _ _ _ _ _ Hrun (crawl_inv_init _ _ _))
      as [(Hp & _ & Hn & Hb) Hc].
    repeat split; try done. rewrite Hp. apply fetched_ok_pages.
  - intros st. unfold loop_cond. destruct (to_visit st).
    + split; [done|]. by intros [? _].
    + rewrite Z.ltb_lt. split; [done|]. by intros [_ ?].
  - reflexivity.
  - intros domain st url tv Htv Hv Hd Hs. unfold loop_body. rewrite Htv.
    unfold in_set, str_eqb.
    rewrite (bool_decide_eq_false_2 _ Hv), (bool_decide_eq_true_2 _ Hd), Hs.
    reflexivity.
Qed.

Lemma failing_news_run :
  option_map (fun st => (scraped_log st, success <$> pages st,
                         size (visited_urls st)))
             (scrape_school_website graph_failing_news sample_netloc 4 url_root 2)
  = Some ([url_root; url_news; url_gallery], [true; true], 3).
Proof. vm_compute. reflexivity. Qed.

Lemma crawl_collects_successes_witness :
  loop_body graph_failing_news sample_netloc (sample_netloc url_root)
            (mkCrawl [url_news; url_gallery] {[url_root]}
                     [graph_failing_news url_root] [url_root])
  = mkCrawl [url_gallery] ({[url_news]} ∪ {[url_root]})
            [graph_failing_news url_root] ([url_root] ++ [url_news]).
Proof.
  pose proof (proj2 (proj2 (proj2 (proj2 (proj2
                (crawl_collects_successes graph_failing_news sample_netloc
                                          url_root 2)))))
                (sample_netloc url_root)
                (mkCrawl [url_news; url_gallery] {[url_root]}
                         [graph_failing_news url_root] [url_root])
                url_news [url_gallery] eq_refl) as H.
  cbn [visited_urls pages scraped_log] in H. apply H.
  - intros Hin%elem_of_singleton. vm_compute in Hin. discriminate.
  - reflexivity.
  - reflexivity.
Defined.

(** C4 as stated fails: with [max_pages = 2] the root is fetched, then
    "news", whose fetch fails, then "gallery". The returned list has two
    successful pages and nothing for "news", and the loop has gone on with
    two URLs already visited (three at the end). *)
Lemma crawl_failure_not_recorded :
  exists st,
    scrape_school_website graph_failing_news sample_netloc 4 url_root 2 = Some st
    /\ url_news ∈ scraped_log st
    /\ success (graph_failing_news url_news) = false
    /\ ~ failure_recorded url_news (pages st)
    /\ (2 < Z.of_nat (size (visited_urls st)))%Z.
Proof.
  pose proof failing_news_run as E.
  destruct (scrape_school_website graph_failing_news sample_netloc 4 url_root 2)
    as [st|]; [|discriminate].
  cbn [option_map] in E. injection E as Elog Eok Esize.
  exists st. split; [done|]. split; [|split; [|split]].
  - rewrite Elog. set_solver.
  - reflexivity.
  - intros (p & Hp & _ & Hfail).
    apply (list_elem_of_fmap_2 success) in Hp. rewrite Eok, Hfail in Hp.
    set_solver.
  - rewrite Esize. lia.
Qed.

(** ** The to-visit list as a priority stack and a normal queue *)

Section SplitRefinement.

Context (scrape_page : str -> ScrapedPage) (netloc : str -> str).

Lemma in_list_app (x : str) (p n : list str) :
  in_list x (p ++ n) = in_list x p || in_list x n.
Proof.
  unfold in_list. repeat case_bool_decide; try done; set_solver.
Qed.

Lemma add_priority_links_split visited pl p n :
  add_priority_links visited pl (p ++ n)
  = push_priority_links visited pl p n ++ n.
Proof.
  revert p. induction pl as [|link pl IH]; intros p; [done|].
  unfold add_priority_links, push_priority_links in *. cbn [fold_left].
  unfold split_queued. rewrite in_list_app.
  destruct (negb (in_set link visited)
            && negb (in_list link p || in_list link n)).
  - apply (IH (link :: p)).
  - apply IH.
Qed.

Lemma add_other_links_split visited ol p n :
  add_other_links visited ol (p ++ n)
  = p ++ enqueue_other_links visited ol p n.
Proof.
  revert n. induction ol as [|link ol IH]; intros n; [done|].
  unfold add_other_links, enqueue_other_links in *. cbn [fold_left].
  unfold split_queued. rewrite in_list_app.
  destruct (negb (in_set link visited)
            && negb (in_list link p || in_list link n)).
  - rewrite <- app_assoc. apply IH.
  - apply IH.
Qed.

Lemma split_cond_merge max_pages st :
  split_cond max_pages st = loop_cond max_pages (merge_state st).
Proof.
  unfold split_cond, loop_cond, merge_state. cbn.
  by destruct (priority_stack st), (normal_queue st).
Qed.

Lemma split_body_merge domain st :
  merge_state (split_body scrape_page netloc domain st)
  = loop_body scrape_page netloc domain (merge_state st).
Proof.
  destruct st as [p n v pg lg]. unfold split_body, loop_body, merge_state.
  cbn [priority_stack normal_queue s_visited s_pages s_log to_visit
       visited_urls pages scraped_log split_pop].
  assert (Hpop : forall url p' n',
             merge_state
               (if in_set url v then mkSplit p' n' v pg lg
                else if negb (str_eqb (netloc url) domain)
                     then mkSplit p' n' ({[url]} ∪ v) pg lg
                     else if success (scrape_page url)
                          then let '(priority_links, other_links) :=
                                 classify_links ({[url]} ∪ v)
                                                (links (scrape_page url)) in
                               mkSplit
                                 (push_priority_links ({[url]} ∪ v)
                                                      priority_links p' n')
                                 (enqueue_other_links
                                    ({[url]} ∪ v) other_links
                                    (push_priority_links ({[url]} ∪ v)
                                                         priority_links p' n')
                                    n')
                                 ({[url]} ∪ v) (pg ++ [scrape_page url])
                                 (lg ++ [url])
                          else mkSplit p' n' ({[url]} ∪ v) pg (lg ++ [url]))
             = if in_set url v then mkCrawl (p' ++ n') v pg lg
               else if negb (str_eqb (netloc url) domain)
                    then mkCrawl (p' ++ n') ({[url]} ∪ v) pg lg
                    else if success (scrape_page url)
                         then let '(priority_links, other_links) :=
                                classify_links ({[url]} ∪ v)
                                               (links (scrape_page url)) in
                              mkCrawl
                                (add_other_links
                                   ({[url]} ∪ v) other_links
                                   (add_priority_links ({[url]} ∪ v)
                                                       priority_links
                                                       (p' ++ n')))
                                ({[url]} ∪ v) (pg ++ [scrape_page url])
                                (lg ++ [url])
                         else mkCrawl (p' ++ n') ({[url]} ∪ v) pg (lg ++ [url])).
  { intros url p' n'. destruct (in_set url v); [done|].
    destruct (negb (str_eqb (netloc url) domain)); [done|].
    destruct (success (scrape_page url)); [|done].
    destruct (classify_links _ _) as [pl ol]. unfold merge_state. cbn.
    by rewrite add_priority_links_split, add_other_links_split. }
  destruct p as [|url p]; [destruct n as [|url n]|]; [done|apply Hpop..].
Qed.

Lemma split_loop_merge fuel domain max_pages st :
  crawl_loop scrape_page netloc fuel domain max_pages (merge_state st)
  = merge_state <$> split_loop scrape_page netloc fuel domain max_pages st.
Proof.
  revert st. induction fuel as [|fuel IH]; intros st; [done|].
  cbn [crawl_loop split_loop]. rewrite <- split_cond_merge.
  destruct (split_cond max_pages st); [|done].
  by rewrite <- split_body_merge, IH.
Qed.

End SplitRefinement.

Lemma about_news_run :
  option_map scraped_log
             (scrape_school_website graph_about_news sample_netloc 3 url_root 2)
  = Some [url_root; url_about].
Proof. vm_compute. reflexivity. Qed.

(** C5, as the code has it. Pushing priority links one by one at the front
    of the single to-visit list and appending the others at its back gives,
    for every page graph, bound and amount of fuel, the same run (same
    fetch order, same pages, same visited set) as a priority stack, last in
    first out, and a normal queue, first in first out, drained
    priority-first. In particular, when the root links to a page without
    keyword and to an "about" page, with [max_pages = 2] the fetches are
    the root and then the "about" page. *)
Theorem crawl_is_stack_then_queue (scrape_page : str -> ScrapedPage)
    (netloc : str -> str) (fuel : nat) (base_url : str) (max_pages : Z) :
  scrape_school_website scrape_page netloc fuel base_url max_pages
  = merge_state <$> crawl_stack_queue scrape_page netloc fuel base_url max_pages
  /\ option_map scraped_log
       (scrape_school_website graph_about_news sample_netloc 3 url_root 2)
     = Some [url_root; url_about].
Proof.
  split; [|exact about_news_run].
  unfold scrape_school_website, crawl_stack_queue.
  rewrite <- split_loop_merge. reflexivity.
Qed.

(** C5 as stated fails: when the root links to two priority pages, "about"
    then "contact", the code fetches "contact" before "about", while two
    queues drained priority-first fetch them in the order found. *)
Lemma crawl_priority_not_fifo :
  option_map scraped_log
    (scrape_school_website graph_two_priority sample_netloc 4 url_root 3)
  = Some [url_root; url_contact; url_about]
  /\ option_map q_log
       (spec_crawl graph_two_priority sample_netloc 4 url_root 3)
     = Some [url_root; url_about; url_contact]
  /\ option_map scraped_log
       (scrape_school_website graph_two_priority sample_netloc 4 url_root 3)
     <> option_map q_log
          (spec_crawl graph_two_priority sample_netloc 4 url_root 3).
Proof.
  assert (E1 : option_map scraped_log
                 (scrape_school_website graph_two_priority sample_netloc 4
                                        url_root 3)
               = Some [url_root; url_contact; url_about])
    by (vm_compute; reflexivity).
  assert (E2 : option_map q_log
                 (spec_crawl graph_two_priority sample_netloc 4 url_root 3)
               = Some [url_root; url_about; url_contact])
    by (vm_compute; reflexivity).
  split; [exact E1|]. split; [exact E2|].
  rewrite E1, E2. intros H. vm_compute in H. discriminate.
Qed.

(** ** The other validators of [models.py] *)

Lemma clean_phone_fixed (s : str) :
  Forall (fun c => keep_digit_plus c = true) s -> clean_phone s = s.
Proof.
  induction 1 as [|c s Hc _ IH]; [done|].
  rewrite clean_phone_cons, Hc. by f_equal.
Qed.

Lemma all_digits_keep (ds : str) :
  all_digits ds -> Forall (fun c => keep_digit_plus c = true) ds.
Proof.
  intros H. eapply Forall_impl; [exact H|].
  intros c Hc. unfold keep_digit_plus. by rewrite Hc.
Qed.

Lemma intl_form_keep (n : str) :
  intl_form n -> Forall (fun c => keep_digit_plus c = true) n.
Proof.
  intros (ds & -> & Hds). repeat (constructor; [done|]). by apply all_digits_keep.
Qed.

(** What [normalize_phone] gives in terms of the cleaned text. *)
Lemma normalize_phone_cases (v : str) :
  normalize_phone v = clean_phone v
  \/ (startswith (txt "+62") (normalize_phone v) = true
      /\ Forall (fun c => keep_digit_plus c = true) (normalize_phone v)).
Proof.
  unfold normalize_phone. cbn zeta.
  pose proof (clean_phone_kept v) as Hk.
  destruct (startswith (txt "08") (clean_phone v)) eqn:E1.
  { right. split; [done|]. repeat (constructor; [done|]). by apply Forall_drop. }
  destruct (startswith (txt "62") (clean_phone v)) eqn:E2.
  { right. apply startswith_spec in E2 as [s' E2]. rewrite E2 in *.
    split; [done|]. by constructor. }
  destruct (startswith (txt "+62") (clean_phone v)); by left.
Qed.

Lemma normalize_phone_plus62 (s : str) :
  Forall (fun c => keep_digit_plus c = true) s ->
  startswith (txt "+62") s = true -> normalize_phone s = s.
Proof.
  intros Hk Hs. unfold normalize_phone. cbn zeta.
  rewrite (clean_phone_fixed s Hk).
  apply startswith_spec in Hs as [s' ->]. reflexivity.
Qed.

(** X1. [PhoneNumber.normalize_phone] is idempotent: validating a value a
    second time changes nothing. Its result holds digits and "+" only, and
    when [ContactValidator._normalize_phone] accepts a number the two give
    the same text. *)
Theorem normalize_phone_idempotent (v : str) :
  normalize_phone (normalize_phone v) = normalize_phone v
  /\ Forall (fun c => keep_digit_plus c = true) (normalize_phone v)
  /\ (forall n, _normalize_phone v = Some n -> normalize_phone v = n)
  /\ (v <> [] -> _normalize_phone v = None -> normalize_phone v = clean_phone v).
Proof.
  split; [|split; [|split]].
  - destruct (normalize_phone_cases v) as [E|[H1 H2]].
    + rewrite E. rewrite <- E at 2. unfold normalize_phone. cbn zeta.
      by rewrite clean_phone_idemp.
    + by apply normalize_phone_plus62.
  - destruct (normalize_phone_cases v) as [E|[H1 H2]]; [|done].
    rewrite E. apply clean_phone_kept.
  - intros n. unfold _normalize_phone, normalize_phone. cbn zeta.
    destruct v as [|c v]; [done|].
    destruct (startswith (txt "08") (clean_phone (c :: v))); [congruence|].
    destruct (startswith (txt "62") (clean_phone (c :: v))) eqn:E2.
    { apply startswith_spec in E2 as [s' ->]. cbn. congruence. }
    cbn [andb]. destruct (startswith (txt "+62") (clean_phone (c :: v))); congruence.
  - intros Hv. unfold _normalize_phone, normalize_phone. cbn zeta.
    destruct v as [|c v]; [done|].
    destruct (startswith (txt "08") (clean_phone (c :: v))); [done|].
    destruct (startswith (txt "62") (clean_phone (c :: v))) eqn:E2.
    { apply startswith_spec in E2 as [s' ->]. done. }
    cbn [andb]. by destruct (startswith (txt "+62") (clean_phone (c :: v))).
Qed.

Lemma normalize_phone_idempotent_witness :
  normalize_phone (txt "0812-3456-7890") = txt "+6281234567890"
  /\ normalize_phone (normalize_phone (txt "0812-3456-7890"))
     = normalize_phone (txt "0812-3456-7890").
Proof.
  split.
  - apply (proj1 (proj2 (proj2 (normalize_phone_idempotent (txt "0812-3456-7890"))))).
    vm_compute. reflexivity.
  - apply (proj1 (normalize_phone_idempotent (txt "0812-3456-7890"))).
Defined.

(** A text of digits and "+" holds no deep link: the literals start with a
    letter. *)
Lemma link_at_keep (c0 : ascii) (L s : str) :
  keep_digit_plus c0 = false ->
  Forall (fun c => keep_digit_plus c = true) s ->
  link_at (c0 :: L) s = false.
Proof.
  intros H0 Hs. unfold link_at. destruct s as [|c s]; [done|].
  inversion Hs as [|? ? Hc _]; subst. cbn [startswith].
  destruct (Ascii.eqb_spec c0 c) as [->|]; [congruence|done].
Qed.

Lemma no_link_keep (c0 : ascii) (L s : str) (n : nat) :
  keep_digit_plus c0 = false ->
  Forall (fun c => keep_digit_plus c = true) s ->
  no_link_before (c0 :: L) n s = true.
Proof.
  intros H0 Hs. unfold no_link_before. apply forallb_forall. intros i _.
  rewrite link_at_keep; [done|done|]. by apply Forall_drop.
Qed.

(** On a text of digits and "+" that starts with "+", the validator of the
    [whatsapp] field changes nothing. *)
Lemma normalize_whatsapp_fixed (s : str) :
  Forall (fun c => keep_digit_plus c = true) s ->
  startswith (txt "+") s = true ->
  normalize_whatsapp (Some s) = Some s.
Proof.
  intros Hk Hs. apply startswith_spec in Hs as [s' ->].
  rewrite normalize_whatsapp_unfold by done.
  rewrite (search_lit_digits_none (txt "wa.me/"))
    by (apply (no_link_keep "w"); [reflexivity|exact Hk]).
  rewrite (search_lit_digits_none (txt "phone="))
    by (apply (no_link_keep "p"); [reflexivity|exact Hk]).
  cbn zeta. rewrite (clean_phone_fixed _ Hk).
  change (txt "+" ++ s') with ("+"%char :: s').
  change (startswith (txt "08") ("+"%char :: s')) with false.
  change (startswith (txt "62") ("+"%char :: s')) with false.
  cbn match. by destruct (startswith (txt "+62") ("+"%char :: s')).
Qed.

Lemma search_from_match r p s m :
  search_from r p s = Some m ->
  exists q s', bt r Some (MState q s' None) = Some m.
Proof.
  revert p. induction s as [|c s IH]; intros p; cbn [search_from].
  - destruct (bt r Some (MState p [] None)) eqn:E; [|done].
    intros [= <-]. eauto.
  - destruct (bt r Some (MState p (c :: s) None)) eqn:E.
    + intros [= <-]. eauto.
    + apply IH.
Qed.

Lemma search_lit_digits_group L q s m :
  search_from (lit_digits L) q s = Some m ->
  group1 m <> [] /\ all_digits (group1 m).
Proof.
  intros (q' & s' & H)%search_from_match.
  apply bt_sound in H as (st' & Hm & [= <-]).
  by apply group_of_digits in Hm.
Qed.

(** X3. [DecisionMaker.normalize_whatsapp] is idempotent, and it keeps
    truthiness: it gives [None] exactly for a missing or empty value and
    never an empty text. *)
Theorem normalize_whatsapp_idempotent (v : option str) :
  normalize_whatsapp (normalize_whatsapp v) = normalize_whatsapp v
  /\ truthy (normalize_whatsapp v) = truthy v.
Proof.
  destruct v as [[|c v]|]; [done| |done].
  assert (Hne : c :: v <> []) by done.
  rewrite normalize_whatsapp_unfold by done. cbn zeta.
  pose proof (clean_phone_kept (c :: v)) as Hk.
  destruct (search_from (lit_digits (txt "wa.me/")) 0 (c :: v)) as [m|] eqn:E1.
  { apply search_lit_digits_group in E1 as [_ Hd]. split; [|done].
    apply normalize_whatsapp_fixed; [|done].
    constructor; [done|]. by apply all_digits_keep. }
  destruct (search_from (lit_digits (txt "phone=")) 0 (c :: v)) as [m|] eqn:E2.
  { apply search_lit_digits_group in E2 as [_ Hd]. split; [|done].
    apply normalize_whatsapp_fixed; [|done].
    constructor; [done|]. by apply all_digits_keep. }
  destruct (startswith (txt "08") (clean_phone (c :: v))) eqn:E3.
  { split; [|done]. apply normalize_whatsapp_fixed; [|done].
    repeat (constructor; [done|]). by apply Forall_drop. }
  destruct (startswith (txt "62") (clean_phone (c :: v))) eqn:E4.
  { split; [|done]. apply normalize_whatsapp_fixed; [|done]. by constructor. }
  destruct (startswith (txt "+62") (clean_phone (c :: v))) eqn:E5.
  { apply startswith_spec in E5 as [s' E5]. rewrite E5 in *. split; [|done].
    by apply normalize_whatsapp_fixed. }
  split; [|done].
  rewrite normalize_whatsapp_unfold by done. cbn zeta.
  by rewrite E1, E2, E3, E4, E5.
Qed.

Lemma normalize_whatsapp_idempotent_witness :
  normalize_whatsapp (normalize_whatsapp (Some (txt "https://wa.me/0812")))
  = Some (txt "+0812").
Proof.
  rewrite (proj1 (normalize_whatsapp_idempotent (Some (txt "https://wa.me/0812")))).
  vm_compute. reflexivity.
Defined.

Lemma intl_form_normalize_phone (x : str) :
  intl_form x -> _normalize_phone x = Some x.
Proof.
  intros Hx. pose proof (intl_form_keep x Hx) as Hk.
  destruct Hx as (ds & -> & _).
  unfold _normalize_phone. cbn zeta.
  change (txt "+62" ++ ds) with ("+"%char :: "6"%char :: "2"%char :: ds) in *.
  cbv beta iota. by rewrite (clean_phone_fixed _ Hk).
Qed.

(** X2. Every number that [extract_all_phone_numbers] or
    [extract_whatsapp_links] returns is accepted unchanged by the
    validators it meets later: [ContactValidator._normalize_phone],
    [PhoneNumber.normalize_phone] and [DecisionMaker.normalize_whatsapp]
    all give it back as it is, and [verify_whatsapp] finds its format
    valid. *)
Theorem scraped_numbers_pass_validators (text x : str) :
  x ∈ extract_all_phone_numbers text \/ x ∈ extract_whatsapp_links text ->
  _normalize_phone x = Some x
  /\ normalize_phone x = x
  /\ normalize_whatsapp (Some x) = Some x
  /\ (forall use_api cache,
        is_valid_format (verify_whatsapp x use_api cache).1 = true).
Proof.
  intros Hx.
  assert (Hf : intl_form x).
  { unfold extract_all_phone_numbers, extract_whatsapp_links, list_set in Hx.
    rewrite !elem_of_elements, !elem_of_list_to_set in Hx.
    destruct Hx as [Hx|Hx];
      [by apply (phones_found_form text)|by apply (whatsapp_numbers_form text)]. }
  pose proof (intl_form_keep x Hf) as Hk.
  pose proof (intl_form_normalize_phone x Hf) as Hn.
  assert (Hs : startswith (txt "+62") x = true) by (by destruct Hf as (ds & -> & _)).
  split; [done|]. split; [by apply normalize_phone_plus62|].
  split.
  - apply normalize_whatsapp_fixed; [done|]. by destruct Hf as (ds & -> & _).
  - intros use_api cache. unfold verify_whatsapp. rewrite Hn.
    destruct Hf as (ds & -> & _).
    change (txt "+62" ++ ds) with ("+"%char :: "6"%char :: "2"%char :: ds).
    cbv beta iota. destruct (cache !! _); [done|].
    destruct use_api; [done|]. by destruct (re_match _ _).
Qed.

Lemma scraped_numbers_pass_validators_witness :
  _normalize_phone (txt "+6281234567890") = Some (txt "+6281234567890")
  /\ normalize_whatsapp (Some (txt "+6281234567890"))
     = Some (txt "+6281234567890").
Proof.
  assert (H : txt "+6281234567890"
              ∈ extract_whatsapp_links (txt "https://wa.me/6281234567890"))
    by (vm_compute; left).
  pose proof (scraped_numbers_pass_validators
                (txt "https://wa.me/6281234567890") (txt "+6281234567890")
                (or_intror H)) as (H1 & _ & H3 & _).
  exact (conj H1 H3).
Defined.

(** X4. [validate_npsn] looks at the digits of the value only: it returns
    them when there are exactly eight and [None] otherwise, so a result is
    always eight digits and validating it again gives it back. *)
Theorem validate_npsn_eight_digits (v : option str) :
  (forall c, validate_npsn v = Some c ->
     length c = 8 /\ all_digits c /\ validate_npsn (Some c) = Some c)
  /\ (validate_npsn v = None <->
      length (List.filter is_digit (default [] v)) <> 8)
  /\ validate_npsn (Some (List.filter is_digit (default [] v))) = validate_npsn v.
Proof.
  assert (Hd : forall s : str, all_digits (List.filter is_digit s)).
  { intros s. apply List.Forall_forall. intros c Hc.
    apply List.filter_In in Hc. tauto. }
  assert (Hfix : forall s : str, all_digits s -> List.filter is_digit s = s).
  { induction 1 as [|c s Hc _ IH]; [done|]. cbn. rewrite Hc. by f_equal. }
  assert (Hsome : forall s : str,
             validate_npsn (Some s)
             = if length (List.filter is_digit s) =? 8
               then Some (List.filter is_digit s) else None).
  { intros [|c s]; [done|]. reflexivity. }
  split; [|split].
  - intros c Hc.
    assert (Hc' : c = List.filter is_digit (default [] v)
                  /\ length (List.filter is_digit (default [] v)) = 8).
    { destruct v as [s|]; [|done]. rewrite Hsome in Hc. cbn [default].
      destruct (Nat.eqb_spec (length (List.filter is_digit s)) 8); [|done].
      by injection Hc as <-. }
    destruct Hc' as [-> Hlen]. split; [done|]. split; [apply Hd|].
    rewrite Hsome, (Hfix _ (Hd _)), Hlen. reflexivity.
  - destruct v as [s|]; cbn [default]; [|done]. rewrite Hsome.
    destruct (Nat.eqb_spec (length (List.filter is_digit s)) 8); split; done.
  - destruct v as [s|]; cbn [default]; [|done].
    by rewrite !Hsome, (Hfix _ (Hd _)).
Qed.

Lemma validate_npsn_eight_digits_witness :
  validate_npsn (Some (txt "NPSN: 2053-2168")) = Some (txt "20532168")
  /\ validate_npsn (Some (txt "20532168")) = Some (txt "20532168").
Proof.
  assert (H : validate_npsn (Some (txt "NPSN: 2053-2168")) = Some (txt "20532168"))
    by reflexivity.
  split; [exact H|].
  exact (proj2 (proj2 (proj1 (validate_npsn_eight_digits
                                (Some (txt "NPSN: 2053-2168"))) _ H))).
Defined.

Lemma first_whatsapp_None (dms : list DecisionMaker) :
  first_whatsapp dms = None
  <-> Forall (fun dm => truthy (whatsapp dm) = false) dms.
Proof.
  induction dms as [|dm dms IH]; cbn; [by split|].
  destruct (truthy (whatsapp dm)) eqn:E.
  - split; [by destruct (whatsapp dm)|]. intros H. inversion H. congruence.
  - rewrite IH. split; [by constructor|]. intros H. by inversion H.
Qed.

Lemma first_whatsapp_Some (dms : list DecisionMaker) (w : str) :
  first_whatsapp dms = Some w ->
  w <> []
  /\ exists before dm after,
       dms = before ++ dm :: after /\ whatsapp dm = Some w
       /\ Forall (fun d => truthy (whatsapp d) = false) before.
Proof.
  induction dms as [|dm dms IH]; cbn; [done|].
  destruct (truthy (whatsapp dm)) eqn:E.
  - intros H. rewrite H in E. split; [by destruct w|].
    exists [], dm, dms. by repeat split.
  - intros (Hw & b & d & a & -> & Hd & Hb)%IH. split; [done|].
    exists (dm :: b), d, a. repeat split; [done|]. by constructor.
Qed.

(** X5. [get_primary_whatsapp] returns the school-level number when there
    is one, otherwise the number of the first person, in list order, who
    has one; it returns [None] exactly when no number is recorded
    anywhere, and never an empty text. *)
Theorem get_primary_whatsapp_first (self : SchoolData) :
  (truthy (whatsapp_business self) = true ->
     get_primary_whatsapp self = whatsapp_business self)
  /\ (get_primary_whatsapp self = None <->
      truthy (whatsapp_business self) = false
      /\ Forall (fun dm => truthy (whatsapp dm) = false) (decision_makers self))
  /\ (forall w, get_primary_whatsapp self = Some w ->
        w <> []
        /\ (whatsapp_business self = Some w
            \/ (truthy (whatsapp_business self) = false
                /\ exists before dm after,
                     decision_makers self = before ++ dm :: after
                     /\ whatsapp dm = Some w
                     /\ Forall (fun d => truthy (whatsapp d) = false) before))).
Proof.
  unfold get_primary_whatsapp. split; [|split].
  - by intros ->.
  - destruct (truthy (whatsapp_business self)) eqn:E.
    + split; [by destruct (whatsapp_business self)|by intros []].
    + rewrite first_whatsapp_None. tauto.
  - intros w. destruct (truthy (whatsapp_business self)) eqn:E.
    + intros H. rewrite H in E. split; [by destruct w|by left].
    + intros [Hw H]%first_whatsapp_Some. split; [done|]. right. by split.
Qed.

Lemma get_primary_whatsapp_first_witness :
  get_primary_whatsapp
    (set_decision_makers full_school
       [person "Ani" HIGH]) = whatsapp_business full_school.
Proof.
  apply (proj1 (get_primary_whatsapp_first
                  (set_decision_makers full_school [person "Ani" HIGH]))).
  reflexivity.
Defined.

Lemma find_split {A} (f : A -> bool) (l : list A) (x : A) :
  List.find f l = Some x ->
  exists before after,
    l = before ++ x :: after /\ f x = true
    /\ Forall (fun y => f y = false) before.
Proof.
  induction l as [|y l IH]; cbn; [done|].
  destruct (f y) eqn:E.
  - intros [= ->]. exists [], l. by repeat split.
  - intros (b & a & -> & Hx & Hb)%IH. exists (y :: b), a.
    repeat split; [done|]. by constructor.
Qed.

Lemma find_app_none {A} (f : A -> bool) (l1 l2 : list A) :
  Forall (fun y => f y = false) l1 ->
  List.find f (l1 ++ l2) = List.find f l2.
Proof. induction 1 as [|y l1 Hy _ IH]; cbn; [done|]. by rewrite Hy. Qed.

Lemma find_filter {A} (P : A -> Prop) `{!forall x, Decision (P x)}
    (f : A -> bool) (l : list A) :
  List.find f (filter P l) = List.find (fun x => bool_decide (P x) && f x) l.
Proof.
  induction l as [|y l IH]; [done|]. rewrite filter_cons. cbn [List.find].
  destruct (decide (P y)) as [Hy|Hy].
  - rewrite (bool_decide_eq_true_2 _ Hy). cbn. by rewrite IH.
  - by rewrite (bool_decide_eq_false_2 _ Hy).
Qed.

Lemma StronglySorted_after {A} (R : A -> A -> Prop) (b a : list A) (x : A) :
  StronglySorted R (b ++ x :: a) -> Forall (R x) a.
Proof.
  induction b as [|y b IH]; cbn; intros H.
  - by apply StronglySorted_inv in H as [_ H].
  - apply StronglySorted_inv in H as [H _]. by apply IH.
Qed.

(** X6. [get_primary_contact] returns a person of the list who has a
    WhatsApp number, an e-mail address or a phone number, of the best tier
    among those who have one and, within that tier, the first in list
    order; it returns [None] exactly when nobody has contact data. *)
Theorem get_primary_contact_best (self : SchoolData) :
  (forall dm, get_primary_contact self = Some dm ->
     dm ∈ decision_makers self
     /\ has_contact dm = true
     /\ (forall dm', dm' ∈ decision_makers self -> has_contact dm' = true ->
           tier dm <= tier dm')
     /\ List.find (fun d => bool_decide (tier d = tier dm) && has_contact d)
                  (decision_makers self) = Some dm)
  /\ (get_primary_contact self = None <->
      Forall (fun dm => has_contact dm = false) (decision_makers self)).
Proof.
  unfold get_primary_contact. set (l := decision_makers self).
  pose proof (sort_by_Permutation tier l) as Hp.
  pose proof (sort_by_sorted tier l) as Hs.
  split.
  - intros dm (b & a & E & Hc & Hb)%find_split.
    rewrite E in Hs, Hp.
    assert (Hin : dm ∈ l) by (rewrite <- Hp; set_solver).
    split; [done|]. split; [done|]. split.
    + intros dm' Hin' Hc'. rewrite <- Hp in Hin'.
      apply elem_of_app in Hin' as [Hin'|Hin'].
      { rewrite Forall_forall in Hb. specialize (Hb _ Hin'). congruence. }
      apply elem_of_cons in Hin' as [->|Hin']; [done|].
      apply StronglySorted_after in Hs.
      rewrite Forall_forall in Hs. by apply Hs.
    + rewrite <- find_filter, <- (sort_by_filter tier), E.
      rewrite filter_app, filter_cons_True by done.
      rewrite find_app_none; [cbn; by rewrite Hc|].
      apply Forall_forall. intros y Hy%list_elem_of_filter.
      rewrite Forall_forall in Hb. apply Hb. tauto.
  - split.
    + intros H. apply Forall_forall. intros dm Hin. rewrite <- Hp in Hin.
      apply list_elem_of_In in Hin.
      destruct (has_contact dm) eqn:E; [|done].
      by rewrite (List.find_none _ _ H dm Hin) in E.
    + intros H. destruct (List.find has_contact (sort_by tier l)) as [dm|] eqn:E;
        [|done].
      apply List.find_some in E as [Hin E]. apply list_elem_of_In in Hin.
      rewrite Hp in Hin. rewrite Forall_forall in H.
      specialize (H _ Hin). congruence.
Qed.

Lemma get_primary_contact_best_witness :
  get_primary_contact
    (school_of [person "Ani" HIGHEST; reachable "Budi" LOW "budi@x.sch.id";
                reachable "Citra" HIGH "citra@x.sch.id";
                reachable "Dewi" HIGH "dewi@x.sch.id"])
  = Some (reachable "Citra" HIGH "citra@x.sch.id")
  /\ has_contact (reachable "Citra" HIGH "citra@x.sch.id") = true.
Proof.
  assert (H : get_primary_contact
                (school_of [person "Ani" HIGHEST;
                            reachable "Budi" LOW "budi@x.sch.id";
                            reachable "Citra" HIGH "citra@x.sch.id";
                            reachable "Dewi" HIGH "dewi@x.sch.id"])
              = Some (reachable "Citra" HIGH "citra@x.sch.id"))
    by reflexivity.
  split; [exact H|].
  exact (proj1 (proj2 (proj1 (get_primary_contact_best _) _ H))).
Defined.

(** ** The validator's cache in heuristic mode *)

Lemma mobile_number_prefix (n : str) :
  mobile_number n -> startswith (txt "+628") n = true.
Proof. intros (ds & -> & _). apply startswith_app. Qed.

Lemma verify_whatsapp_heuristic (phone_number : str) (cache : gmap str bool) :
  coherent cache ->
  coherent (verify_whatsapp phone_number false cache).2
  /\ (wa_exists (verify_whatsapp phone_number false cache).1 = true
      <-> exists n, _normalize_phone phone_number = Some n /\ mobile_number n)
  /\ (wa_exists (verify_whatsapp phone_number false cache).1 = true ->
      is_mobile (verify_whatsapp phone_number false cache).1 = true).
Proof.
  intros Hc. unfold verify_whatsapp.
  destruct (_normalize_phone phone_number) as [n|] eqn:Hn;
    [|split; [done|split; [split; [done|by intros (? & [=] & _)]|done]]].
  destruct (_normalize_phone_chars _ _ Hn) as [Hne Hk].
  destruct n as [|c m]; [done|]. clear Hne.
  destruct (cache !! (c :: m)) as [b|] eqn:Hb; cbn [fst snd wa_exists is_mobile].
  - pose proof (Hc _ _ Hb) as Hbm. split; [done|]. split.
    + rewrite Hbm. split; [eauto|]. by intros (? & [= <-] & ?).
    + intros ->%Hbm%mobile_number_prefix. reflexivity.
  - rewrite (remove_spaces_kept _ Hk).
    pose proof (mobile_pattern_match _ Hk) as Hm.
    destruct (re_match mobile_pattern (c :: m)) as [st|] eqn:E;
      cbn [fst snd wa_exists is_mobile].
    + assert (Hmob : mobile_number (c :: m)) by (apply Hm; eauto).
      split; [|split; [split; [eauto|done]|done]].
      intros n b. destruct (decide (n = c :: m)) as [->|Hne].
      * rewrite lookup_insert_eq. by intros [= <-].
      * rewrite lookup_insert_ne by done. apply Hc.
    + assert (Hmob : ~ mobile_number (c :: m)).
      { intros H%Hm. by destruct H. }
      split; [|split; [split; [done|by intros (? & [= <-] & ?)]|done]].
      intros n b. destruct (decide (n = c :: m)) as [->|Hne].
      * rewrite lookup_insert_eq. intros [= <-]. split; [done|by intros ?%Hmob].
      * rewrite lookup_insert_ne by done. apply Hc.
Qed.

(** X7. A validator that is only ever asked in heuristic mode keeps a
    coherent cache: every stored answer is the verdict of the format check
    for its number. So its answers do not depend on what was asked before:
    [exists] holds exactly when the number normalises to "+628" and 8 to 10
    further digits, and then [is_mobile] holds as well. *)
Theorem verify_whatsapp_heuristic_coherent (calls : list (str * bool))
    (phone_number : str) :
  Forall (fun c => c.2 = false) calls ->
  let cache := verify_all calls ∅ in
  let out := verify_whatsapp phone_number false cache in
  coherent cache
  /\ coherent out.2
  /\ (wa_exists out.1 = true
      <-> exists n, _normalize_phone phone_number = Some n /\ mobile_number n)
  /\ (wa_exists out.1 = true -> is_mobile out.1 = true).
Proof.
  intros Hcalls. cbv zeta.
  assert (Hall : forall cache, coherent cache -> coherent (verify_all calls cache)).
  { induction Hcalls as [|[p u] calls Hu _ IH]; intros cache Hc; [done|].
    cbn in Hu. subst u. cbn [verify_all]. apply IH.
    by apply verify_whatsapp_heuristic. }
  assert (H0 : coherent (verify_all calls ∅)).
  { apply Hall. intros n b. by rewrite lookup_empty. }
  split; [done|]. by apply verify_whatsapp_heuristic.
Qed.

Lemma verify_whatsapp_heuristic_coherent_witness :
  wa_exists (verify_whatsapp (txt "0812 3456 7890") false
               (verify_all [(txt "+62 812-3456-7890", false)] ∅)).1 = true.
Proof.
  apply (proj1 (proj2 (proj2 (verify_whatsapp_heuristic_coherent
                                [(txt "+62 812-3456-7890", false)]
                                (txt "0812 3456 7890")
                                ltac:(repeat constructor))))).
  exists (txt "+6281234567890"). split; [reflexivity|].
  exists (txt "1234567890"). split; [reflexivity|].
  split; [repeat constructor|cbn; lia].
Defined.

(** ** The tier of a role title *)

Lemma lower_char_idemp (c : ascii) : lower_char (lower_char c) = lower_char c.
Proof.
  destruct c as [[] [] [] [] [] [] [] []]; reflexivity.
Qed.

Lemma lower_idemp (s : str) : lower (lower s) = lower s.
Proof.
  unfold lower. rewrite map_map. apply map_ext. intros c. apply lower_char_idemp.
Qed.

Lemma truthy_lower (s : str) : truthy (Some (lower s)) = truthy (Some s).
Proof. by destruct s. Qed.

(** X8. [_get_role_priority] reads the title without regard to case, gives
    the lowest tier to a missing or empty title, and gives a title the
    tier of the first keyword list, from the top, that has a keyword
    occurring in it: a title with a keyword of some tier is never ranked
    below that tier, and a title ranked in one of the four upper tiers
    holds one of that tier's keywords. So a deputy head ("Wakil Kepala
    Sekolah", "Vice Principal") is ranked with the heads, and any title in
    which "vice" occurs, such as "Customer Service", is ranked [LOW]. *)
Theorem get_role_priority_first_keyword (role : str) :
  _get_role_priority (Some role) = _get_role_priority (Some (lower role))
  /\ _get_role_priority None = LOWEST
  /\ _get_role_priority (Some []) = LOWEST
  /\ (forall p, any_in (tier_keywords p) (lower role) = true ->
        priority_index (_get_role_priority (Some role)) <= priority_index p)
  /\ (_get_role_priority (Some role) <> LOWEST ->
        any_in (tier_keywords (_get_role_priority (Some role))) (lower role) = true)
  /\ (_get_role_priority (Some (txt "Wakil Kepala Sekolah")) = MEDIUM
      /\ _get_role_priority (Some (txt "Vice Principal")) = MEDIUM
      /\ _get_role_priority (Some (txt "Customer Service")) = LOW).
Proof.
  assert (Hl : forall r : str,
             _get_role_priority (Some r)
             = if any_in HIGHEST_KEYWORDS (lower r) then HIGHEST
               else if any_in HIGH_KEYWORDS (lower r) then HIGH
               else if any_in MEDIUM_KEYWORDS (lower r) then MEDIUM
               else if any_in LOW_KEYWORDS (lower r) then LOW
               else LOWEST).
  { intros [|c r]; reflexivity. }
  split; [by rewrite !Hl, lower_idemp|].
  split; [reflexivity|]. split; [reflexivity|].
  split; [|split].
  - intros p Hp. rewrite Hl.
    destruct (any_in HIGHEST_KEYWORDS (lower role)) eqn:E1; [cbn; lia|].
    destruct (any_in HIGH_KEYWORDS (lower role)) eqn:E2;
      [destruct p; cbn in *; try lia; congruence|].
    destruct (any_in MEDIUM_KEYWORDS (lower role)) eqn:E3;
      [destruct p; cbn in *; try lia; congruence|].
    destruct (any_in LOW_KEYWORDS (lower role)) eqn:E4;
      [destruct p; cbn in *; try lia; congruence|].
    destruct p; cbn in *; try lia; congruence.
  - rewrite Hl.
    destruct (any_in HIGHEST_KEYWORDS (lower role)) eqn:E1; [done|].
    destruct (any_in HIGH_KEYWORDS (lower role)) eqn:E2; [done|].
    destruct (any_in MEDIUM_KEYWORDS (lower role)) eqn:E3; [done|].
    destruct (any_in LOW_KEYWORDS (lower role)) eqn:E4; done.
  - repeat split; vm_compute; reflexivity.
Qed.

Lemma get_role_priority_first_keyword_witness :
  priority_index (_get_role_priority (Some (txt "Wakil Direktur Yayasan"))) <= 1.
Proof.
  apply (proj1 (proj2 (proj2 (proj2 (get_role_priority_first_keyword
                                       (txt "Wakil Direktur Yayasan"))))) HIGH).
  vm_compute. reflexivity.
Defined.

(** ** Foundation clusters *)

Section Clusters.

Lemma str_eqb_true (a b : str) : str_eqb a b = true <-> a = b.
Proof. unfold str_eqb. apply bool_decide_eq_true. Qed.

Lemma str_eqb_false (a b : str) : str_eqb a b = false <-> a <> b.
Proof. unfold str_eqb. apply bool_decide_eq_false. Qed.

Lemma add_contacts_fold (data : SchoolData) (dms : list DecisionMaker)
    (e : FoundationData.t) :
  fold_left (add_contact data) dms e
  = FoundationData.mk
      (FoundationData.schools e)
      (FoundationData.contacts e
       ++ ((fun dm => from_decision_maker dm data)
             <$> List.filter (fun dm => truthy (name dm)) dms))
      (FoundationData.tech_stacks e)
      (FoundationData.has_whatsapp e
       || existsb (fun dm => truthy (whatsapp dm))
                  (List.filter (fun dm => truthy (name dm)) dms))
      (FoundationData.has_linkedin e
       || existsb (fun dm => truthy (linkedin_url dm))
                  (List.filter (fun dm => truthy (name dm)) dms)).
Proof.
  revert e. induction dms as [|dm dms IH]; intros e; cbn [fold_left List.filter].
  - cbn. rewrite app_nil_r, !orb_false_r. by destruct e.
  - rewrite IH. unfold add_contact. destruct (truthy (name dm)); [|done].
    cbn. rewrite <- app_assoc. cbn.
    destruct (truthy (whatsapp dm)), (truthy (linkedin_url dm));
      cbn; rewrite ?orb_true_r; try done;
      by destruct (FoundationData.has_whatsapp e), (FoundationData.has_linkedin e).
Qed.

Lemma add_techs_fold (techs : list str) (s : gset str) :
  fold_left (fun s tech => {[tech]} ∪ s) techs s = s ∪ list_to_set techs.
Proof.
  revert s. induction techs as [|t techs IH]; intros s; cbn.
  - set_solver.
  - rewrite IH. set_solver.
Qed.

Lemma existsb_snoc {A} (f : A -> bool) (l : list A) (x : A) :
  existsb f (l ++ [x]) = existsb f l || f x.
Proof. rewrite existsb_app. cbn. by rewrite orb_false_r. Qed.

(** One more school changes the closed form as [add_school] changes the
    entry. *)
Lemma add_school_entry_of (ds : list SchoolData) (data : SchoolData) :
  add_school data (entry_of ds) = entry_of (ds ++ [data]).
Proof.
  unfold add_school. cbn zeta. rewrite add_contacts_fold, add_techs_fold.
  unfold entry_of, leads_of, named_people. cbn.
  rewrite !fmap_app, !existsb_snoc. cbn.
  rewrite !join_app. cbn. rewrite !app_nil_r.
  f_equal. apply set_eq. intros t. rewrite !elem_of_union, !elem_of_list_to_set.
  rewrite elem_of_app. tauto.
Qed.

Lemma update_entry_keys key f fd :
  (update_entry key f fd).*1
  = if bool_decide (key ∈ fd.*1) then fd.*1 else fd.*1 ++ [key].
Proof.
  induction fd as [|[k v] fd IH]; cbn; [done|].
  destruct (str_eqb k key) eqn:E.
  - apply str_eqb_true in E as ->. cbn.
    rewrite bool_decide_eq_true_2; [done|left].
  - apply str_eqb_false in E. cbn. rewrite IH.
    destruct (bool_decide (key ∈ fd.*1)) eqn:B.
    + apply bool_decide_eq_true in B. rewrite bool_decide_eq_true_2; [done|by right].
    + apply bool_decide_eq_false in B.
      rewrite bool_decide_eq_false_2; [done|]. set_solver.
Qed.

Lemma update_entry_elem key f fd k e :
  NoDup fd.*1 ->
  (k, e) ∈ update_entry key f fd ->
  (k <> key /\ (k, e) ∈ fd)
  \/ (k = key
      /\ exists e0, e = f e0
                    /\ ((key, e0) ∈ fd \/ ((key ∉ fd.*1) /\ e0 = FoundationData.fresh))).
Proof.
  induction fd as [|[k0 v0] fd IH]; cbn [update_entry fmap list_fmap fst].
  - intros _ [= -> ->]%list_elem_of_singleton. right. split; [done|].
    exists FoundationData.fresh. split; [done|]. right. split; [|done].
    intros H. inversion H.
  - intros [Hk0 Hnd]%NoDup_cons. destruct (str_eqb k0 key) eqn:E.
    + apply str_eqb_true in E as ->.
      intros [[= -> ->]|Hin]%elem_of_cons.
      * right. split; [done|]. exists v0. split; [done|]. left. left.
      * left. split; [|by right]. intros ->. apply Hk0.
        apply list_elem_of_fmap. by exists (key, e).
    + apply str_eqb_false in E.
      intros [[= -> ->]|Hin]%elem_of_cons.
      * left. split; [done|left].
      * destruct (IH Hnd Hin) as [[Hne H]|[-> (e0 & -> & H)]].
        -- left. split; [done|by right].
        -- right. split; [done|]. exists e0. split; [done|].
           destruct H as [H|[H ->]]; [left; by right|right].
           split; [|done]. intros [?|?]%elem_of_cons; congruence.
Qed.

Lemma add_school_schools (data : SchoolData) (e : FoundationData.t) :
  FoundationData.schools (add_school data e)
  = FoundationData.schools e ++ [school_name data].
Proof. unfold add_school. cbn zeta. by rewrite add_contacts_fold. Qed.

Lemma update_entry_sum key data fd :
  sum_list_with (fun kv => length (FoundationData.schools kv.2))
                (update_entry key (add_school data) fd)
  = sum_list_with (fun kv => length (FoundationData.schools kv.2)) fd + 1.
Proof.
  induction fd as [|[k v] fd IH]; cbn [update_entry].
  - cbn [snd sum_list_with]. rewrite add_school_schools. cbn. lia.
  - destruct (str_eqb k key); cbn [snd sum_list_with].
    + rewrite add_school_schools, length_app. cbn. lia.
    + rewrite IH. lia.
Qed.

Lemma add_school_contacts (data : SchoolData) (e : FoundationData.t) :
  FoundationData.contacts (add_school data e)
  = FoundationData.contacts e
    ++ ((fun dm => from_decision_maker dm data) <$> named_people data).
Proof. unfold add_school. cbn zeta. by rewrite add_contacts_fold. Qed.

Lemma update_entry_sum_contacts key data fd :
  sum_list_with (fun kv => length (FoundationData.contacts kv.2))
                (update_entry key (add_school data) fd)
  = sum_list_with (fun kv => length (FoundationData.contacts kv.2)) fd
    + length (named_people data).
Proof.
  induction fd as [|[k v] fd IH]; cbn [update_entry].
  - cbn [snd sum_list_with]. rewrite add_school_contacts. cbn.
    rewrite length_fmap. lia.
  - destruct (str_eqb k key); cbn [snd sum_list_with].
    + rewrite add_school_contacts, length_app, length_fmap. lia.
    + rewrite IH. lia.
Qed.

Lemma of_foundation_snoc key (D : list SchoolData) (data : SchoolData) :
  of_foundation key (D ++ [data])
  = of_foundation key D
    ++ (if str_eqb (foundation_key data) key then [data] else []).
Proof. unfold of_foundation. by rewrite List.filter_app. Qed.

Lemma of_foundation_nil key (D : list SchoolData) :
  key ∉ (foundation_key <$> D) -> of_foundation key D = [].
Proof.
  induction D as [|d D IH]; cbn; [done|]. intros H.
  destruct (str_eqb (foundation_key d) key) eqn:E.
  - apply str_eqb_true in E. set_solver.
  - apply IH. set_solver.
Qed.

(** What the dict holds after the loop over [results]. *)
Lemma cluster_fold (results : list ProcessingResult) :
  let fd := fold_left cluster_step results [] in
  let D := with_data results in
  NoDup fd.*1
  /\ (forall d, d ∈ D -> foundation_key d ∈ fd.*1)
  /\ (forall k e, (k, e) ∈ fd ->
        e = entry_of (of_foundation k D) /\ of_foundation k D <> [])
  /\ sum_list_with (fun kv => length (FoundationData.schools kv.2)) fd = length D
  /\ sum_list_with (fun kv => length (FoundationData.contacts kv.2)) fd
     = length (leads_of D).
Proof.
  induction results as [|r results IH] using rev_ind; cbn zeta.
  - cbn. split; [constructor|]. split; [intros d H; inversion H|].
    split; [intros k e H; inversion H|done].
  - cbn zeta in IH. destruct IH as (Hnd & Hcov & Hent & Hsum & Hsum2).
    rewrite fold_left_app. cbn [fold_left]. unfold with_data in *.
    rewrite omap_app. cbn [omap list_omap]. unfold cluster_step at 1 3 5 7 9.
    set (fd := fold_left cluster_step results []) in *.
    set (D := omap school_data results) in *.
    destruct (school_data r) as [data|]; cbn [option_bind mbind from_option];
      [|rewrite app_nil_r; done].
    set (key := foundation_key data).
    assert (Hkey : key ∉ fd.*1 -> of_foundation key D = []).
    { intros H. apply of_foundation_nil. intros Hin.
      apply list_elem_of_fmap in Hin as (d & -> & Hd). by apply H, Hcov. }
    split; [|split; [|split; [|split]]].
    + rewrite update_entry_keys. case_bool_decide; [done|].
      apply NoDup_app. split; [done|]. split; [|apply NoDup_singleton].
      intros x Hx Hx'%list_elem_of_singleton. by subst.
    + intros d Hd. rewrite update_entry_keys.
      apply elem_of_app in Hd as [Hd|Hd%list_elem_of_singleton]; [|subst d].
      * case_bool_decide; [by apply Hcov|]. apply elem_of_app. left. by apply Hcov.
      * fold key. case_bool_decide; [done|]. apply elem_of_app. right. left.
    + intros k e Hin. rewrite of_foundation_snoc. fold key.
      apply update_entry_elem in Hin as [[Hne Hin]|[Hk (e0 & He & H)]]; [| |done].
      * destruct (Hent _ _ Hin) as [-> Hnn].
        rewrite (proj2 (str_eqb_false key k)) by done. by rewrite app_nil_r.
      * rewrite Hk, He. clear k e Hk He.
        rewrite (proj2 (str_eqb_true key key)) by done.
        split; [|by destruct (of_foundation key D)].
        rewrite <- add_school_entry_of. f_equal.
        destruct H as [H|[H ->]]; [by apply Hent in H as [-> _]|].
        by rewrite Hkey.
    + rewrite length_app. cbn [length]. rewrite <- Hsum.
      apply update_entry_sum.
    + unfold leads_of in *. rewrite fmap_app, join_app, length_app, <- Hsum2.
      cbn. rewrite app_nil_r, length_fmap. apply update_entry_sum_contacts.
Qed.

Context {A : Type} (key : A -> nat).

Lemma insert_by_desc_Permutation x l : insert_by_desc key x l ≡ₚ x :: l.
Proof.
  induction l as [|y l IH]; cbn; [done|].
  destruct (key y <=? key x); [done|].
  rewrite IH. apply Permutation_swap.
Qed.

Lemma sort_by_desc_Permutation l : sort_by_desc key l ≡ₚ l.
Proof.
  induction l as [|x l IH]; cbn; [done|].
  by rewrite insert_by_desc_Permutation, IH.
Qed.

Lemma insert_by_desc_sorted x l :
  StronglySorted (fun a b => key b <= key a) l ->
  StronglySorted (fun a b => key b <= key a) (insert_by_desc key x l).
Proof.
  induction 1 as [|y l Hs IH Hy]; cbn.
  - repeat constructor.
  - destruct (key y <=? key x) eqn:E.
    + apply Nat.leb_le in E. constructor; [by constructor|].
      constructor; [done|]. eapply Forall_impl; [exact Hy|].
      cbn. intros; lia.
    + apply Nat.leb_gt in E. constructor; [done|].
      rewrite insert_by_desc_Permutation. constructor; [lia|done].
Qed.

Lemma sort_by_desc_sorted l :
  StronglySorted (fun a b => key b <= key a) (sort_by_desc key l).
Proof.
  induction l as [|x l IH]; cbn; [constructor|by apply insert_by_desc_sorted].
Qed.

End Clusters.

Lemma elem_of_clusters (results : list ProcessingResult) (c : FoundationCluster.t) :
  c ∈ cluster_by_foundation results
  <-> exists kv, kv ∈ fold_left cluster_step results [] /\ c = make_cluster kv.
Proof.
  unfold cluster_by_foundation. cbn zeta.
  rewrite sort_by_desc_Permutation, list_elem_of_fmap. naive_solver.
Qed.

(** X9. [cluster_by_foundation] partitions the schools that have data by
    foundation name, a missing or empty name counting as "Unknown
    Foundation": the clusters have distinct names, every school with data
    is in the cluster of its name, and a cluster lists exactly the schools
    of its name, in result order, with their count, the leads of their
    named people and the count of those, whether one of these people has a
    WhatsApp number or a LinkedIn address, and each technology of these
    schools once. No cluster is empty, the clusters come largest first,
    and their school counts and contact counts add up to the number of
    schools with data and of named people. *)
Theorem cluster_by_foundation_partition (results : list ProcessingResult) :
  let clusters := cluster_by_foundation results in
  let D := with_data results in
  NoDup (FoundationCluster.foundation_name <$> clusters)
  /\ (forall d, d ∈ D ->
        exists c, c ∈ clusters
                  /\ FoundationCluster.foundation_name c = foundation_key d)
  /\ (forall c, c ∈ clusters ->
        let ds := of_foundation (FoundationCluster.foundation_name c) D in
        ds <> []
        /\ FoundationCluster.schools c = school_name <$> ds
        /\ FoundationCluster.total_schools c = length ds
        /\ FoundationCluster.foundation_contacts c = leads_of ds
        /\ FoundationCluster.total_decision_makers c = length (leads_of ds)
        /\ FoundationCluster.has_whatsapp c
           = existsb (fun d => existsb (fun dm => truthy (whatsapp dm))
                                       (named_people d)) ds
        /\ FoundationCluster.has_linkedin c
           = existsb (fun d => existsb (fun dm => truthy (linkedin_url dm))
                                       (named_people d)) ds
        /\ NoDup (FoundationCluster.common_tech_stack c)
        /\ (forall t, t ∈ FoundationCluster.common_tech_stack c
                      <-> exists d, d ∈ ds /\ t ∈ tech_stack d))
  /\ StronglySorted
       (fun a b => FoundationCluster.total_schools b
                   <= FoundationCluster.total_schools a) clusters
  /\ sum_list_with FoundationCluster.total_schools clusters = length D
  /\ sum_list_with FoundationCluster.total_decision_makers clusters
     = length (leads_of D).
Proof.
  cbv zeta.
  destruct (cluster_fold results) as (Hnd & Hcov & Hent & Hsum & Hsum2).
  assert (Hperm : cluster_by_foundation results
                  ≡ₚ make_cluster <$> fold_left cluster_step results [])
    by apply sort_by_desc_Permutation.
  split; [|split; [|split; [|split; [|split]]]].
  - rewrite Hperm, <- list_fmap_compose.
    erewrite list_fmap_ext; [exact Hnd|]. by intros i [k e] _.
  - intros d Hd. apply Hcov in Hd.
    apply list_elem_of_fmap in Hd as ([k e] & Hk & Hin). cbn in Hk.
    exists (make_cluster (k, e)). split; [|by rewrite Hk].
    apply elem_of_clusters. eauto.
  - intros c ([k e] & Hin & ->)%elem_of_clusters.
    destruct (Hent _ _ Hin) as [-> Hne]. cbn.
    repeat split; try done.
    + by rewrite length_fmap.
    + apply NoDup_elements.
    + rewrite elem_of_elements, elem_of_list_to_set, list_elem_of_join.
      intros (l & Ht & (d & -> & Hd)%list_elem_of_fmap). eauto.
    + intros (d & Hd & Ht).
      rewrite elem_of_elements, elem_of_list_to_set, list_elem_of_join.
      exists (tech_stack d). split; [done|]. apply list_elem_of_fmap. eauto.
  - apply sort_by_desc_sorted.
  - rewrite Hperm, <- Hsum. clear.
    induction (fold_left cluster_step results []) as [|[k e] l IH]; [done|].
    cbn. by rewrite <- IH.
  - rewrite Hperm, <- Hsum2. clear.
    induction (fold_left cluster_step results []) as [|[k e] l IH]; [done|].
    cbn. by rewrite <- IH.
Qed.

Lemma cluster_by_foundation_partition_witness :
  FoundationCluster.schools
    <$> cluster_by_foundation
          [completed "SD A" (Some "Yayasan X") [person "Ani" HIGH];
           failed_result "SD B";
           completed "SD C" None [];
           completed "SMP A" (Some "Yayasan X") []]
  = [[txt "SD A"; txt "SMP A"]; [txt "SD C"]]
  /\ sum_list_with FoundationCluster.total_schools
       (cluster_by_foundation
          [completed "SD A" (Some "Yayasan X") [person "Ani" HIGH];
           failed_result "SD B";
           completed "SD C" None [];
           completed "SMP A" (Some "Yayasan X") []]) = 3.
Proof.
  split; [vm_compute; reflexivity|].
  exact (proj1 (proj2 (proj2 (proj2 (proj2
           (cluster_by_foundation_partition
              [completed "SD A" (Some "Yayasan X") [person "Ani" HIGH];
               failed_result "SD B";
               completed "SD C" None [];
               completed "SMP A" (Some "Yayasan X") []])))))).
Defined.

(** ** Verification status and person leads *)

Lemma join_head (sep : str) (c : ascii) (p : str) (parts : list str) :
  exists r, join sep ((c :: p) :: parts) = c :: r.
Proof. destruct parts; cbn; eauto. Qed.

Lemma status_label_V (dm : DecisionMaker) (L : str) :
  status_label dm = Some L -> exists r, L = "V"%char :: r.
Proof.
  unfold status_label.
  destruct (whatsapp_verified dm), (email_verified dm); cbn;
    intros [= <-]; eauto.
Qed.

Lemma status_label_None (dm : DecisionMaker) :
  status_label dm = None
  <-> whatsapp_verified dm = false /\ email_verified dm = false.
Proof.
  unfold status_label.
  destruct (whatsapp_verified dm), (email_verified dm); cbn; naive_solver.
Qed.

Lemma omap_status_label_nil (dms : list DecisionMaker) :
  omap status_label dms = []
  <-> Forall (fun dm => whatsapp_verified dm = false /\ email_verified dm = false)
             dms.
Proof.
  induction dms as [|dm dms IH]; [by split|].
  change (omap status_label (dm :: dms))
    with (match status_label dm with
          | Some L => L :: omap status_label dms
          | None => omap status_label dms
          end).
  destruct (status_label dm) as [L|] eqn:E.
  - split; [done|]. intros H. inversion H as [|? ? Hd _]; subst.
    apply status_label_None in Hd. congruence.
  - apply status_label_None in E. rewrite IH.
    split; [by constructor|]. intros H. by inversion H.
Qed.

(** X10. [_get_verification_status] answers "Guess" exactly when no person
    of the school has a verified WhatsApp number or e-mail address.
    Otherwise it joins with " / " the labels of the verified people, each
    label once, a label being among them exactly when some person earns
    it. *)
Theorem verification_status_guess (data : SchoolData) :
  (_get_verification_status data = txt "Guess"
   <-> Forall (fun dm => whatsapp_verified dm = false /\ email_verified dm = false)
              (decision_makers data))
  /\ (_get_verification_status data <> txt "Guess" ->
      exists parts,
        _get_verification_status data = join (txt " / ") parts
        /\ NoDup parts
        /\ forall L, L ∈ parts
                     <-> exists dm, dm ∈ decision_makers data
                                    /\ status_label dm = Some L).
Proof.
  unfold _get_verification_status. cbn zeta.
  set (dms := decision_makers data).
  pose proof (omap_status_label_nil dms) as Hnone.
  assert (Hparts : forall L, L ∈ list_set (omap status_label dms)
                             <-> exists dm, dm ∈ dms /\ status_label dm = Some L).
  { intros L. unfold list_set.
    by rewrite elem_of_elements, elem_of_list_to_set, list_elem_of_omap. }
  destruct (omap status_label dms) as [|s0 statuses] eqn:E.
  - split; [by rewrite <- Hnone|done].
  - split.
    + split; [|intros H%Hnone; done].
      assert (Hin : s0 ∈ list_set (s0 :: statuses)).
      { unfold list_set. rewrite elem_of_elements, elem_of_list_to_set. left. }
      destruct (list_set (s0 :: statuses)) as [|p parts] eqn:Ep;
        [inversion Hin|].
      assert (Hp : p ∈ p :: parts) by left.
      apply Hparts in Hp as (dm & _ & Hl).
      destruct (status_label_V _ _ Hl) as [r ->].
      destruct (join_head (txt " / ") "V" r parts) as [r' ->]. done.
    + intros _. exists (list_set (s0 :: statuses)).
      split; [done|]. split; [|exact Hparts].
      unfold list_set. apply NoDup_elements.
Qed.

Lemma verification_status_guess_witness :
  _get_verification_status (school_of [person "Ani" HIGH; person "Budi" LOW])
  = txt "Guess".
Proof.
  apply (proj1 (verification_status_guess
                  (school_of [person "Ani" HIGH; person "Budi" LOW]))).
  repeat constructor.
Defined.

Lemma tier_map_index (p : RolePriority) :
  tier_map p = (Z.of_nat (priority_index p) + 1)%Z.
Proof. by destruct p. Qed.

(** X11. The person leads that [export_person_leads] writes are the leads
    of the named people of the results that have data, school by school
    and in list order: a failed result and a person without a name give
    no lead. Each lead carries the name of its person (the default
    "Unknown" of [from_decision_maker] is never needed), and its priority
    tier is the position of the person's priority plus one, from 1 to 5,
    so that leads order by tier as the people do. *)
Theorem person_leads_named (results : list ProcessingResult) :
  person_leads results = leads_of (with_data results)
  /\ length (person_leads results)
     = sum_list_with (fun d => length (named_people d)) (with_data results)
  /\ (forall l, l ∈ person_leads results ->
        exists d dm,
          d ∈ with_data results /\ dm ∈ decision_makers d
          /\ truthy (name dm) = true
          /\ l = from_decision_maker dm d
          /\ name dm = Some (PersonLead.person_name l)
          /\ PersonLead.person_name l <> []
          /\ PersonLead.priority_tier l = (Z.of_nat (tier dm) + 1)%Z
          /\ (1 <= PersonLead.priority_tier l <= 5)%Z).
Proof.
  assert (H1 : person_leads results = leads_of (with_data results)).
  { unfold person_leads, leads_of, with_data, named_people.
    induction results as [|r results IH]; [done|].
    rewrite fmap_cons. cbn [mjoin list_join omap list_omap].
    destruct (school_data r) as [d|]; [|exact IH].
    rewrite fmap_cons. cbn [mjoin list_join]. f_equal. exact IH. }
  split; [done|]. split.
  - rewrite H1. unfold leads_of. clear H1.
    induction (with_data results) as [|d D IH]; [done|].
    rewrite fmap_cons. cbn [mjoin list_join sum_list_with].
    rewrite length_app, length_fmap. f_equal. exact IH.
  - intros l. rewrite H1. unfold leads_of.
    rewrite list_elem_of_join.
    intros (ls & Hl & (d & -> & Hd)%list_elem_of_fmap).
    apply list_elem_of_fmap in Hl as (dm & -> & Hdm).
    unfold named_people in Hdm. apply list_elem_of_In, List.filter_In in Hdm.
    destruct Hdm as [Hdm Hn]. apply list_elem_of_In in Hdm.
    exists d, dm. repeat split; try done.
    + cbn. unfold or_text. rewrite Hn. by destruct (name dm).
    + cbn. unfold or_text. rewrite Hn. by destruct (name dm) as [[|??]|].
    + cbn. apply tier_map_index.
    + cbn. destruct (priority dm); cbn; lia.
    + cbn. destruct (priority dm); cbn; lia.
Qed.

Lemma person_leads_named_witness :
  PersonLead.person_name
    <$> person_leads
          [completed "SD A" (Some "Yayasan X")
                     [person "Ani" HIGH;
                      mkDecisionMaker None None None LOW None None None
                                      false false false None None 0%Q];
           failed_result "SD B"]
  = [txt "Ani"].
Proof.
  rewrite (proj1 (person_leads_named
                    [completed "SD A" (Some "Yayasan X")
                               [person "Ani" HIGH;
                                mkDecisionMaker None None None LOW None None None
                                                false false false None None 0%Q];
                     failed_result "SD B"])).
  reflexivity.
Defined.

(** ** The crawl's queue and scope *)

Section CrawlScope.

Context (scrape_page : str -> ScrapedPage) (netloc : str -> str).

Lemma classify_links_sub visited page_links :
  (forall u, u ∈ (classify_links visited page_links).1 -> u ∈ page_links)
  /\ (forall u, u ∈ (classify_links visited page_links).2 -> u ∈ page_links).
Proof.
  unfold classify_links.
  assert (H : forall l acc,
             (forall u, u ∈ acc.1 -> u ∈ page_links) ->
             (forall u, u ∈ acc.2 -> u ∈ page_links) ->
             (forall u, u ∈ l -> u ∈ page_links) ->
             let r := fold_left
               (fun '(priority_links, other_links) link =>
                  if is_priority_link link
                  then (priority_links ++ [link], other_links)
                  else if negb (in_set link visited)
                       then (priority_links, other_links ++ [link])
                       else (priority_links, other_links)) l acc in
             (forall u, u ∈ r.1 -> u ∈ page_links)
             /\ (forall u, u ∈ r.2 -> u ∈ page_links)).
  { induction l as [|x l IH]; intros [p o] Hp Ho Hl; cbn [fold_left]; [done|].
    apply IH.
    - destruct (is_priority_link x); [|by destruct (negb _)].
      cbn. intros u [Hu|Hu%list_elem_of_singleton]%elem_of_app; [by apply Hp|].
      subst. apply Hl. left.
    - destruct (is_priority_link x); [done|]. destruct (negb _); [|done].
      cbn. intros u [Hu|Hu%list_elem_of_singleton]%elem_of_app; [by apply Ho|].
      subst. apply Hl. left.
    - intros u Hu. apply Hl. by right. }
  apply H; try done; intros u Hu; inversion Hu.
Qed.

Lemma add_priority_links_queue visited pl tv :
  NoDup tv ->
  NoDup (add_priority_links visited pl tv)
  /\ (forall u, u ∈ add_priority_links visited pl tv ->
        u ∈ tv \/ (u ∈ pl /\ u ∉ visited)).
Proof.
  unfold add_priority_links. revert tv.
  induction pl as [|x pl IH]; intros tv Hnd; cbn [fold_left]; [by split; eauto|].
  unfold in_set, in_list at 1.
  destruct (IH (if negb (bool_decide (x ∈ visited))
                   && negb (bool_decide (x ∈ tv)) then x :: tv else tv))
    as [H1 H2].
  { repeat case_bool_decide; cbn; try done. by constructor. }
  split; [exact H1|]. intros u Hu. destruct (H2 u Hu) as [Hin|[Hin Hv]].
  - repeat case_bool_decide; cbn in Hin; eauto.
    apply elem_of_cons in Hin as [->|Hin]; [|by left].
    right. split; [left|done].
  - right. split; [by right|done].
Qed.

Lemma add_other_links_queue visited ol tv :
  NoDup tv ->
  NoDup (add_other_links visited ol tv)
  /\ (forall u, u ∈ add_other_links visited ol tv ->
        u ∈ tv \/ (u ∈ ol /\ u ∉ visited)).
Proof.
  unfold add_other_links. revert tv.
  induction ol as [|x ol IH]; intros tv Hnd; cbn [fold_left]; [by split; eauto|].
  unfold in_set, in_list at 1.
  destruct (IH (if negb (bool_decide (x ∈ visited))
                   && negb (bool_decide (x ∈ tv)) then tv ++ [x] else tv))
    as [H1 H2].
  { repeat case_bool_decide; cbn; try done.
    apply NoDup_app. split; [done|]. split; [|apply NoDup_singleton].
    intros y Hy Hy'%list_elem_of_singleton. by subst. }
  split; [exact H1|]. intros u Hu. destruct (H2 u Hu) as [Hin|[Hin Hv]].
  - repeat case_bool_decide; cbn in Hin; eauto.
    apply elem_of_app in Hin as [Hin|Hin%list_elem_of_singleton]; [by left|].
    subst. right. split; [left|done].
  - right. split; [by right|done].
Qed.

(** What a successful fetch leaves in the to-visit list. *)
Lemma new_to_visit visited page_links tv :
  NoDup tv ->
  let '(pl, ol) := classify_links visited page_links in
  let tv' := add_other_links visited ol (add_priority_links visited pl tv) in
  NoDup tv'
  /\ (forall u, u ∈ tv' -> u ∈ tv \/ (u ∈ page_links /\ u ∉ visited)).
Proof.
  intros Hnd. pose proof (classify_links_sub visited page_links) as [Hp Ho].
  destruct (classify_links visited page_links) as [pl ol]. cbn [fst snd] in *.
  destruct (add_priority_links_queue visited pl tv Hnd) as [N1 E1].
  destruct (add_other_links_queue visited ol _ N1) as [N2 E2].
  split; [exact N2|]. intros u Hu.
  destruct (E2 u Hu) as [Hin|[Hin Hv]]; [|right; split; [by apply Ho|done]].
  destruct (E1 u Hin) as [?|[? ?]]; [by left|right; split; [by apply Hp|done]].
Qed.

Lemma queue_inv_body domain st :
  queue_inv st -> queue_inv (loop_body scrape_page netloc domain st).
Proof.
  intros [Hnd Hv]. unfold loop_body.
  destruct (to_visit st) as [|url tv] eqn:Htv;
    [unfold queue_inv; by rewrite Htv|].
  apply NoDup_cons in Hnd as [Hurl Hnd].
  assert (Hfresh : url ∉ visited_urls st) by (apply Hv; left).
  assert (Htv' : forall u, u ∈ tv -> u ∉ {[url]} ∪ visited_urls st).
  { intros u Hu [Hu'%elem_of_singleton|Hu']%elem_of_union; [by subst|].
    apply (Hv u); [by right|done]. }
  unfold in_set. rewrite bool_decide_eq_false_2 by done.
  destruct (negb (str_eqb (netloc url) domain)); [by split|].
  destruct (success (scrape_page url)); [|by split].
  pose proof (new_to_visit ({[url]} ∪ visited_urls st)
                           (links (scrape_page url)) tv Hnd) as H.
  destruct (classify_links _ _) as [pl ol]. destruct H as [N E].
  split; [exact N|]. cbn. intros u Hu.
  destruct (E u Hu) as [Hin|[_ Hn]]; [by apply Htv'|done].
Qed.

Lemma found_from_mono base_url seen seen' u :
  (forall v, v ∈ seen -> v ∈ seen') ->
  found_from scrape_page base_url seen u ->
  found_from scrape_page base_url seen' u.
Proof. intros Hs [->|(v & Hv & Hok & Hu)]; [by left|right; eauto]. Qed.

Lemma scope_inv_body base_url st :
  queue_inv st ->
  scope_inv scrape_page netloc base_url st ->
  scope_inv scrape_page netloc base_url
            (loop_body scrape_page netloc (netloc base_url) st).
Proof.
  intros [Hnd Hv] (Hlog & Hq & Hfirst). unfold loop_body.
  destruct (to_visit st) as [|url tv] eqn:Htv;
    [unfold scope_inv; by rewrite Htv|].
  assert (Hfresh : url ∉ visited_urls st) by (apply Hv; left).
  unfold in_set. rewrite bool_decide_eq_false_2 by done.
  assert (Hsub : forall v, v ∈ scraped_log st -> v ∈ scraped_log st ++ [url])
    by (intros v Hv'; apply elem_of_app; by left).
  assert (Hurl : found_from scrape_page base_url (scraped_log st) url)
    by (apply Hq; left).
  assert (Hhead : match scraped_log st ++ [url] with
                  | [] => False
                  | first :: _ => first = base_url
                  end).
  { destruct (scraped_log st) as [|f l] eqn:El; [|done].
    destruct Hfirst as [Hb _]. by injection Hb as ->. }
  destruct (str_eqb (netloc url) (netloc base_url)) eqn:Hd; cbn [negb].
  2:{ split; [exact Hlog|]. split; [intros u Hu; apply Hq; by right|].
      cbn [scraped_log to_visit pages].
      destruct (scraped_log st) as [|f l] eqn:El; [|done].
      destruct Hfirst as [Hb _]. injection Hb as -> ->.
      unfold str_eqb in Hd. by rewrite bool_decide_eq_true_2 in Hd. }
  apply bool_decide_eq_true in Hd.
  assert (Hlog' : forall u, u ∈ scraped_log st ++ [url] ->
            netloc u = netloc base_url
            /\ found_from scrape_page base_url (scraped_log st ++ [url]) u).
  { intros u [Hu|Hu%list_elem_of_singleton]%elem_of_app.
    - destruct (Hlog u Hu) as [H1 H2]. split; [done|].
      by apply (found_from_mono _ _ _ _ Hsub).
    - subst u. split; [done|]. by apply (found_from_mono _ _ _ _ Hsub). }
  destruct (success (scrape_page url)) eqn:Hok.
  - pose proof (new_to_visit ({[url]} ∪ visited_urls st)
                             (links (scrape_page url)) tv) as H.
    destruct (classify_links _ _) as [pl ol].
    destruct H as [_ E]; [by apply NoDup_cons in Hnd as [_ ?]|].
    split; [exact Hlog'|]. cbn [scraped_log to_visit pages].
    split.
    + intros u Hu. destruct (E u Hu) as [Hin|[Hin _]].
      * apply (found_from_mono _ _ _ _ Hsub). apply Hq. by right.
      * right. exists url. split; [|done]. apply elem_of_app. right. left.
    + destruct (scraped_log st ++ [url]); [done|exact Hhead].
  - split; [exact Hlog'|]. cbn [scraped_log to_visit pages].
    split.
    + intros u Hu. apply (found_from_mono _ _ _ _ Hsub). apply Hq. by right.
    + destruct (scraped_log st ++ [url]); [done|exact Hhead].
Qed.

(** A property the loop body keeps holds at the end of the loop. *)
Lemma crawl_loop_keeps (P : crawl_state -> Prop) domain max_pages :
  (forall st, P st -> P (loop_body scrape_page netloc domain st)) ->
  forall fuel st st',
    crawl_loop scrape_page netloc fuel domain max_pages st = Some st' ->
    P st -> P st' /\ loop_cond max_pages st' = false.
Proof.
  intros Hbody. induction fuel as [|fuel IH]; intros st st'; cbn; [done|].
  destruct (loop_cond max_pages st) eqn:Hc.
  - intros Hrun HP. apply (IH _ _ Hrun). by apply Hbody.
  - intros [= <-] HP. by split.
Qed.

End CrawlScope.

Lemma crawl_loop_iter (scrape_page : str -> ScrapedPage) (netloc : str -> str)
    domain max_pages fuel st st' :
  crawl_loop scrape_page netloc fuel domain max_pages st = Some st' ->
  exists n, st' = Nat.iter n (loop_body scrape_page netloc domain) st.
Proof.
  revert st. induction fuel as [|fuel IH]; intros st; cbn; [done|].
  destruct (loop_cond max_pages st).
  - intros (n & ->)%IH. exists (S n). by rewrite Nat.iter_succ_r.
  - intros [= <-]. by exists 0.
Qed.

(** X12. The crawl stays in scope. Every URL it fetches is on the host of
    the start URL and is the start URL itself or a link of a page fetched
    successfully before; with [max_pages <= 0] it fetches nothing and
    returns no page, and otherwise the first fetch is the start URL. *)
Theorem crawl_stays_in_scope (scrape_page : str -> ScrapedPage)
    (netloc : str -> str) (fuel : nat) (base_url : str) (max_pages : Z)
    (st : crawl_state) :
  scrape_school_website scrape_page netloc fuel base_url max_pages = Some st ->
  (forall u, u ∈ scraped_log st ->
     netloc u = netloc base_url
     /\ found_from scrape_page base_url (scraped_log st) u)
  /\ ((max_pages <= 0)%Z -> st = crawl_init base_url)
  /\ ((0 < max_pages)%Z -> exists others, scraped_log st = base_url :: others).
Proof.
  unfold scrape_school_website. intros Hrun.
  assert (Hinit : queue_inv (crawl_init base_url)
                  /\ scope_inv scrape_page netloc base_url (crawl_init base_url)).
  { split; split.
    - apply NoDup_singleton.
    - intros u _. cbn. set_solver.
    - intros u Hu. inversion Hu.
    - split; [|done]. intros u Hu%list_elem_of_singleton. by left. }
  assert (Hbody : forall s,
             queue_inv s /\ scope_inv scrape_page netloc base_url s ->
             queue_inv (loop_body scrape_page netloc (netloc base_url) s)
             /\ scope_inv scrape_page netloc base_url
                          (loop_body scrape_page netloc (netloc base_url) s)).
  { intros s [Hq Hs]. split; [by apply queue_inv_body|by apply scope_inv_body]. }
  destruct (crawl_loop_keeps scrape_page netloc _ _ max_pages Hbody _ _ _
                             Hrun Hinit) as [[_ Hs] Hc].
  destruct Hs as (Hlog & _ & Hfirst). split; [exact Hlog|]. split.
  - intros Hmax. destruct fuel as [|fuel]; [done|].
    cbn [crawl_loop] in Hrun.
    assert (Hc0 : loop_cond max_pages (crawl_init base_url) = false).
    { cbn. apply Z.ltb_ge. lia. }
    rewrite Hc0 in Hrun. by injection Hrun.
  - intros Hmax. destruct (scraped_log st) as [|f l]; [|subst; eauto].
    destruct Hfirst as [Htv Hp]. unfold loop_cond in Hc.
    rewrite Htv, Hp in Hc. cbn in Hc. apply Z.ltb_ge in Hc. lia.
Qed.

Lemma failing_news_returns :
  is_Some (scrape_school_website graph_failing_news sample_netloc 4 url_root 2).
Proof.
  pose proof failing_news_run as H.
  destruct (scrape_school_website graph_failing_news sample_netloc 4 url_root 2);
    [eauto|discriminate].
Qed.

Lemma crawl_stays_in_scope_witness :
  exists st,
    scrape_school_website graph_failing_news sample_netloc 4 url_root 2 = Some st
    /\ exists others, scraped_log st = url_root :: others.
Proof.
  destruct failing_news_returns as [st E].
  exists st. split; [exact E|].
  apply (proj2 (proj2 (crawl_stays_in_scope _ _ _ _ _ _ E))). lia.
Defined.

(** X13. The to-visit list never holds a URL twice and never holds a
    visited URL, after any number of turns of the loop from its initial
    state; so the URL a turn takes from the list is never one already
    visited, and the "already visited" test of the loop never fires.
    Every run of the crawl ends in such a state. *)
Theorem crawl_queue_never_revisits (scrape_page : str -> ScrapedPage)
    (netloc : str -> str) (base_url : str) :
  (forall n,
     let st := Nat.iter n (loop_body scrape_page netloc (netloc base_url))
                        (crawl_init base_url) in
     NoDup (to_visit st)
     /\ (forall u, u ∈ to_visit st -> u ∉ visited_urls st)
     /\ (forall url tv, to_visit st = url :: tv ->
           in_set url (visited_urls st) = false))
  /\ (forall fuel max_pages st,
        scrape_school_website scrape_page netloc fuel base_url max_pages = Some st ->
        exists n, st = Nat.iter n (loop_body scrape_page netloc (netloc base_url))
                                (crawl_init base_url)).
Proof.
  split.
  - intros n. cbv zeta.
    assert (H : queue_inv (Nat.iter n (loop_body scrape_page netloc (netloc base_url))
                                    (crawl_init base_url))).
    { induction n as [|n IH]; cbn [Nat.iter nat_rect].
      - split; [apply NoDup_singleton|]. intros u _. cbn. set_solver.
      - by apply queue_inv_body. }
    destruct H as [H1 H2]. split; [done|]. split; [done|].
    intros url tv Htv. unfold in_set. apply bool_decide_eq_false.
    apply H2. rewrite Htv. left.
  - intros fuel max_pages st. unfold scrape_school_website.
    apply crawl_loop_iter.
Qed.

(** ** The text handed to the extractor *)

Lemma join_length (sep : str) (parts : list str) :
  length (join sep parts)
  <= sum_list_with (fun p => length p + length sep) parts.
Proof.
  induction parts as [|p parts IH]; [done|].
  cbn [join sum_list_with]. destruct parts as [|q parts]; [lia|].
  rewrite !length_app. cbn [sum_list_with] in *. lia.
Qed.

Lemma mjoin_cons {A} (x : list A) (l : list (list A)) :
  mjoin (x :: l) = x ++ mjoin l.
Proof. reflexivity. Qed.

Lemma page_parts_usable (page : ScrapedPage) :
  page_parts page = if usable page then page_parts page else [].
Proof. unfold page_parts, usable. by destruct (_ && _). Qed.

Lemma page_parts_filter (pages : list ScrapedPage) :
  mjoin (page_parts <$> List.filter usable pages) = mjoin (page_parts <$> pages).
Proof.
  induction pages as [|p pages IH]; [done|]. cbn [List.filter].
  rewrite (fmap_cons _ p), mjoin_cons, <- IH.
  destruct (usable p) eqn:E.
  - by rewrite fmap_cons, mjoin_cons.
  - by rewrite (page_parts_usable p), E.
Qed.

Lemma PAGE_TEXT_LIMIT_pos : exists n, PAGE_TEXT_LIMIT = S n.
Proof. eexists. vm_compute. reflexivity. Qed.

Lemma page_parts_truncated (page : ScrapedPage) :
  page_parts (truncated page) = page_parts page.
Proof.
  unfold page_parts, truncated. cbn [success text_content url title].
  destruct PAGE_TEXT_LIMIT_pos as [n ->].
  rewrite take_take, Nat.min_id.
  destruct (success page); [|done]. cbn [andb].
  by destruct (text_content page).
Qed.

(** X14. [compile_scraped_content] reads, of each page, the URL, the title
    and at most the first 8000 characters of the text: the result does not
    change when the pages are cut to 8000 characters, nor when the failed
    pages and the pages without text are left out; it is empty exactly
    when no page is left, and its length is bounded by the sizes of the
    URLs and titles plus 26 characters and the limit of 8000 for each page
    that counts. *)
Theorem compile_scraped_content_bounded (pages : list ScrapedPage) :
  compile_scraped_content (List.filter usable pages) = compile_scraped_content pages
  /\ compile_scraped_content (truncated <$> pages) = compile_scraped_content pages
  /\ (compile_scraped_content pages = [] <-> List.filter usable pages = [])
  /\ length (compile_scraped_content pages)
     <= sum_list_with
          (fun p => length (url p) + length (title p) + 26 + PAGE_TEXT_LIMIT)
          (List.filter usable pages).
Proof.
  unfold compile_scraped_content. split; [|split; [|split]].
  - by rewrite page_parts_filter.
  - rewrite <- list_fmap_compose. f_equal. f_equal.
    apply list_fmap_ext. intros i p _. apply page_parts_truncated.
  - rewrite <- page_parts_filter.
    destruct (List.filter usable pages) as [|p ps] eqn:E; [done|].
    assert (Hp : usable p = true).
    { assert (Hin : In p (List.filter usable pages)) by (rewrite E; left; done).
      apply List.filter_In in Hin. tauto. }
    rewrite fmap_cons, mjoin_cons. unfold page_parts at 1.
    fold (usable p). rewrite Hp. split; [|done]. cbn. by destruct (_ ++ _).
  - rewrite <- page_parts_filter.
    etrans; [apply join_length|].
    induction (List.filter usable pages) as [|p ps IH]; [done|].
    rewrite fmap_cons, mjoin_cons. cbn [sum_list_with].
    rewrite sum_list_with_app.
    assert (Hp : sum_list_with (fun q : str => length q + length [newline])
                               (page_parts p)
                 <= length (url p) + length (title p) + 26 + PAGE_TEXT_LIMIT).
    { unfold page_parts. generalize PAGE_TEXT_LIMIT as limit. intros limit.
      destruct (_ && _); [|cbn; lia].
      cbn [sum_list_with]. rewrite length_take.
      cbn [length]. rewrite !length_app. cbn [length txt list_ascii_of_string].
      lia. }
    lia.
Qed.

(** ** Platform detection *)

Section DetectLms.

Context (table : list (string * list string)).

Lemma detect_name_spec content det entry :
  NoDup det ->
  NoDup (detect_name content det entry)
  /\ (forall x, x ∈ detect_name content det entry
                <-> x ∈ det
                    \/ (x = txt entry.1 /\ indicated entry.2 content = true)).
Proof.
  intros Hnd. destruct entry as [lms_name indicators]. unfold detect_name, in_list.
  cbn [fst snd]. case_bool_decide as Hin; cbn [negb].
  - split; [done|]. intros x. split; [by left|]. by intros [?|[-> _]].
  - destruct (indicated indicators content).
    + split.
      * apply NoDup_app. split; [done|]. split; [|apply NoDup_singleton].
        intros y Hy Hy'%list_elem_of_singleton. by subst.
      * intros x. rewrite elem_of_app, list_elem_of_singleton. naive_solver.
    + split; [done|]. intros x. naive_solver.
Qed.

Lemma detect_names_spec content (entries : list (string * list string)) det :
  NoDup det ->
  NoDup (fold_left (detect_name content) entries det)
  /\ (forall x, x ∈ fold_left (detect_name content) entries det
                <-> x ∈ det
                    \/ exists entry, entry ∈ entries /\ x = txt entry.1
                                     /\ indicated entry.2 content = true).
Proof.
  revert det. induction entries as [|e entries IH]; intros det Hnd; cbn [fold_left].
  - split; [done|]. intros x. split; [by left|].
    intros [?|(entry & H & _)]; [done|inversion H].
  - destruct (detect_name_spec content det e Hnd) as [N1 E1].
    destruct (IH _ N1) as [N2 E2]. split; [done|].
    intros x. rewrite E2, E1. split.
    + intros [[?|[-> ?]]|(entry & Hin & ? & ?)]; [by left| |].
      * right. exists e. split; [left|done].
      * right. exists entry. split; [by right|done].
    + intros [?|(entry & [->|Hin]%elem_of_cons & ? & ?)]; [by left; left| |].
      * left. by right.
      * right. eauto.
Qed.

Lemma detect_pages_spec (pages : list ScrapedPage) det :
  NoDup det ->
  NoDup (fold_left (detect_page table) pages det)
  /\ (forall x, x ∈ fold_left (detect_page table) pages det
                <-> x ∈ det
                    \/ exists page entry,
                         page ∈ pages /\ success page = true
                         /\ entry ∈ table /\ x = txt entry.1
                         /\ indicated entry.2 (page_content page) = true).
Proof.
  revert det. induction pages as [|p pages IH]; intros det Hnd; cbn [fold_left].
  - split; [done|]. intros x. split; [by left|].
    intros [?|(page & ? & H & _)]; [done|inversion H].
  - assert (H1 : NoDup (detect_page table det p)
                 /\ forall x, x ∈ detect_page table det p
                              <-> x ∈ det
                                  \/ (success p = true
                                      /\ exists entry,
                                           entry ∈ table /\ x = txt entry.1
                                           /\ indicated entry.2 (page_content p)
                                              = true)).
    { unfold detect_page. destruct (success p); cbn [negb].
      - destruct (detect_names_spec (page_content p) table det Hnd) as [N E].
        split; [done|]. intros x. rewrite E. naive_solver.
      - split; [done|]. intros x. naive_solver. }
    destruct H1 as [N1 E1]. destruct (IH _ N1) as [N2 E2]. split; [done|].
    intros x. rewrite E2, E1. split.
    + intros [[?|[? (entry & ? & ? & ?)]]|(page & entry & Hin & ?)]; [by left| |].
      * right. exists p, entry. split; [left|done].
      * right. exists page, entry. split; [by right|done].
    + intros [?|(page & entry & [->|Hin]%elem_of_cons & ? & ?)]; [by left; left| |].
      * left. right. split; [done|]. eauto.
      * right. eauto.
Qed.

Lemma detect_pages_filter (pages : list ScrapedPage) det :
  fold_left (detect_page table) (List.filter success pages) det
  = fold_left (detect_page table) pages det.
Proof.
  revert det. induction pages as [|p pages IH]; intros det; [done|].
  cbn [List.filter fold_left]. destruct (success p) eqn:E.
  - cbn [fold_left]. apply IH.
  - rewrite IH. f_equal. unfold detect_page. by rewrite E.
Qed.

End DetectLms.

(** X15. [detect_lms_stack] returns each platform at most once, and a
    platform is returned exactly when one of its indicators occurs,
    whatever the case of the letters, in the HTML or the text of a page
    that was fetched successfully; failed pages change nothing. *)
Theorem detect_lms_stack_indicated (pages : list ScrapedPage) :
  NoDup (detect_lms_stack pages)
  /\ (forall x, x ∈ detect_lms_stack pages
                <-> exists page entry,
                      page ∈ pages /\ success page = true
                      /\ entry ∈ LMS_INDICATORS /\ x = txt entry.1
                      /\ indicated entry.2 (page_content page) = true)
  /\ detect_lms_stack (List.filter success pages) = detect_lms_stack pages.
Proof.
  unfold detect_lms_stack.
  destruct (detect_pages_spec LMS_INDICATORS pages [] (NoDup_nil_2)) as [N E].
  split; [done|]. split; [|apply detect_pages_filter].
  intros x. rewrite E. split; [|by right].
  intros [H|H]; [inversion H|done].
Qed.

Lemma detect_lms_stack_indicated_witness :
  txt "moodle"
  ∈ detect_lms_stack
      [failed_page (txt "https://x.sch.id/canvas");
       mkScrapedPage (txt "https://x.sch.id/") (txt "X")
                     (txt "<a href='https://elearning.x.sch.id/Moodle/'>LMS</a>")
                     (txt "LMS") [] true None].
Proof.
  apply (proj1 (proj2 (detect_lms_stack_indicated _))).
  exists (mkScrapedPage (txt "https://x.sch.id/") (txt "X")
                        (txt "<a href='https://elearning.x.sch.id/Moodle/'>LMS</a>")
                        (txt "LMS") [] true None),
         ("moodle", ["moodle"; "/moodle/"; "moodle.org"])%string.
  split; [right; left|]. split; [reflexivity|].
  split; [right; left|]. split; [reflexivity|]. vm_compute. reflexivity.
Defined.

(** ** E-mail extraction *)

Lemma lang_Cls (p : ascii -> bool) (u : str) :
  lang (Cls p) u -> u <> [] /\ Forall (fun c => p c = true) u.
Proof. intros (c & -> & Hc). split; [done|]. by constructor. Qed.

Lemma lang_Star_Cls (g : bool) (p : ascii -> bool) (u : str) :
  lang (Star g (Cls p)) u -> Forall (fun c => p c = true) u.
Proof.
  intros (us & -> & Hus). induction Hus as [|x us Hx _ IH]; [constructor|].
  cbn. apply Forall_app. split; [|done]. by apply lang_Cls in Hx as [_ ?].
Qed.

Lemma lang_Plus_Cls (g : bool) (p : ascii -> bool) (u : str) :
  lang (Plus g (Cls p)) u -> u <> [] /\ Forall (fun c => p c = true) u.
Proof.
  intros (u1 & u2 & -> & H1 & H2).
  apply lang_Cls in H1 as [Hne H1]. apply (lang_Star_Cls g) in H2.
  split; [by destruct u1|]. by apply Forall_app.
Qed.

Lemma lang_Rep_Cls (n : nat) (p : ascii -> bool) (u : str) :
  lang (Rep n (Cls p)) u -> length u = n /\ Forall (fun c => p c = true) u.
Proof.
  revert u. induction n as [|n IH]; intros u; cbn [Rep lang].
  - by intros ->.
  - intros (u1 & u2 & -> & (c & -> & Hc) & H2). apply IH in H2 as [<- H2].
    split; [done|]. by constructor.
Qed.

Lemma email_pattern_shape st m :
  rmatch email_pattern st m -> address_shape (group1 m).
Proof.
  intros H%group_lang. cbn [lang] in H.
  destruct H as (lo & r1 & -> & Hlo & at_ & r2 & -> & Hat & dom & r3 & -> & Hdom
                 & dot & r4 & -> & Hdot & t2 & t3 & -> & Ht2 & Ht3).
  change (exists u1 u2, lo = u1 ++ u2 /\ lang (Cls local_char) u1
                        /\ lang (Star true (Cls local_char)) u2)
    with (lang (Plus true (Cls local_char)) lo) in Hlo.
  change (exists u1 u2, dom = u1 ++ u2 /\ lang (Cls domain_char) u1
                        /\ lang (Star true (Cls domain_char)) u2)
    with (lang (Plus true (Cls domain_char)) dom) in Hdom.
  apply (lang_Plus_Cls true) in Hlo as [Hlo1 Hlo2].
  apply (lang_Plus_Cls true) in Hdom as [Hdom1 Hdom2].
  apply (lang_lit (txt "@")) in Hat as ->.
  apply (lang_lit (txt ".")) in Hdot as ->.
  apply (lang_Rep_Cls 2) in Ht2 as [Hlen Ht2].
  apply (lang_Star_Cls true) in Ht3.
  exists lo, dom, (t2 ++ t3). repeat split; try done.
  - rewrite length_app. lia.
  - by apply Forall_app.
Qed.

Lemma elem_of_emails_filtered (text e : str) :
  e ∈ emails_filtered text
  <-> exists m, m ∈ re_findall email_pattern text
                /\ any_in skip_patterns (lower m) = false /\ e = lower m.
Proof.
  unfold emails_filtered. rewrite list_elem_of_fmap. split.
  - intros (m & -> & Hm). apply list_elem_of_In, List.filter_In in Hm as [Hm Hs].
    exists m. apply list_elem_of_In in Hm. apply negb_true_iff in Hs. done.
  - intros (m & Hm & Hs & ->). exists m. split; [done|].
    apply list_elem_of_In, List.filter_In. split; [by apply list_elem_of_In|].
    by apply negb_true_iff.
Qed.

(** X16. [extract_emails] returns each address once, in lower case. Every
    address it returns is the lower-cased form of a text
    [local@domain.tld] found in the input, with a non-empty local part of
    letters, digits and [._%+-], a non-empty domain of letters, digits,
    dots and hyphens, and at least two letters after the last dot; and no
    address that holds "example.com", "domain.com", "email.com" or
    "test.com" is returned. *)
Theorem extract_emails_shape (text : str) :
  NoDup (extract_emails text)
  /\ (forall e, e ∈ extract_emails text ->
        lower e = e
        /\ any_in skip_patterns e = false
        /\ exists m, address_shape m /\ e = lower m
                     /\ m ∈ re_findall email_pattern text).
Proof.
  split; [unfold extract_emails, list_set; apply NoDup_elements|].
  intros e. unfold extract_emails, list_set.
  rewrite elem_of_elements, elem_of_list_to_set, elem_of_emails_filtered.
  intros (m & Hm & Hs & ->). split; [apply lower_idemp|]. split; [done|].
  exists m. split; [|done].
  unfold re_findall in Hm. apply list_elem_of_In, in_map_iff in Hm.
  destruct Hm as (st & <- & Hst). apply list_elem_of_In in Hst.
  apply finditer_rmatch in Hst as (q & s' & Hst).
  by apply email_pattern_shape in Hst.
Qed.

Lemma extract_emails_sample :
  extract_emails (txt "Email: Info@Sekolah.sch.id, noreply@example.com")
  = [txt "info@sekolah.sch.id"].
Proof. vm_compute. reflexivity. Qed.

Lemma extract_emails_shape_witness :
  lower (txt "info@sekolah.sch.id") = txt "info@sekolah.sch.id"
  /\ any_in skip_patterns (txt "info@sekolah.sch.id") = false.
Proof.
  assert (H : txt "info@sekolah.sch.id"
              ∈ extract_emails
                  (txt "Email: Info@Sekolah.sch.id, noreply@example.com")).
  { rewrite extract_emails_sample. left. }
  destruct (proj2 (extract_emails_shape _) _ H) as (H1 & H2 & _).
  exact (conj H1 H2).
Defined.

(** ** The links of a page *)

Section ExtractLinksFacts.

Context (netloc : str -> str) (urljoin : str -> str -> str).

Lemma href_pattern_group st m :
  rmatch href_pattern st m ->
  group1 m <> [] /\ Forall (fun c => not_quote c = true) (group1 m).
Proof.
  unfold href_pattern. intros H.
  inversion H as [| |? ? ? st1 ? M1 M2| | | | | | |]; subst.
  inversion M2 as [| |? ? ? st2 ? M3 M4| | | | | | |]; subst.
  inversion M4 as [| |? ? ? st3 ? M5 M6| | | | | | |]; subst.
  apply rmatch_Cls_inv in M6 as (c & _ & _ & _ & Hg).
  pose proof (group_lang _ _ _ M5) as Hl.
  apply (lang_Plus_Cls true) in Hl. unfold group1 in *. by rewrite Hg.
Qed.

Lemma elem_of_extract_links (html base_url link : str) :
  link ∈ _extract_links netloc urljoin html base_url ->
  netloc link = netloc base_url
  /\ exists href,
       href <> [] /\ Forall (fun c => not_quote c = true) href
       /\ skipped_href href = false
       /\ link = (if startswith (txt "http") href then href
                  else urljoin base_url href).
Proof.
  unfold _extract_links, list_set.
  rewrite elem_of_elements, elem_of_list_to_set, list_elem_of_omap.
  intros (m & Hm & Hl).
  apply finditer_rmatch in Hm as (q & s' & Hm).
  apply href_pattern_group in Hm as [Hne Hq].
  unfold link_of_href in Hl. destruct (skipped_href (group1 m)) eqn:Hs; [done|].
  cbn zeta in Hl.
  destruct (str_eqb _ _) eqn:Hd; [|done]. injection Hl as <-.
  apply bool_decide_eq_true in Hd. split; [done|]. by exists (group1 m).
Qed.

(** What the crawl's loop keeps when the links of every page are those
    [_extract_links] finds in its HTML. *)
Lemma fetch_all_body (scrape_page : str -> ScrapedPage) (base_url : str)
    (st : crawl_state) :
  (forall u, links (scrape_page u)
             = _extract_links netloc urljoin (html_content (scrape_page u)) u) ->
  queue_inv st ->
  (forall u, u ∈ to_visit st -> netloc u = netloc base_url) ->
  visited_urls st = list_to_set (scraped_log st) ->
  let st' := loop_body scrape_page netloc (netloc base_url) st in
  (forall u, u ∈ to_visit st' -> netloc u = netloc base_url)
  /\ visited_urls st' = list_to_set (scraped_log st')
  /\ (forall url tv, to_visit st = url :: tv ->
        scraped_log st' = scraped_log st ++ [url]).
Proof.
  intros Hlinks [Hnd Hv] Hdom Hvis. cbv zeta. unfold loop_body.
  destruct (to_visit st) as [|url tv] eqn:Htv.
  { rewrite Htv. split; [intros u Hu; inversion Hu|]. by split. }
  assert (Hfresh : url ∉ visited_urls st) by (apply Hv; left).
  assert (Hurl : netloc url = netloc base_url) by (apply Hdom; left).
  unfold in_set, str_eqb. rewrite bool_decide_eq_false_2 by done.
  rewrite bool_decide_eq_true_2 by done. cbn [negb].
  assert (Hvis' : {[url]} ∪ visited_urls st
                  = list_to_set (scraped_log st ++ [url])).
  { rewrite Hvis, list_to_set_app_L. cbn. set_solver. }
  destruct (success (scrape_page url)) eqn:Hok.
  - pose proof (new_to_visit ({[url]} ∪ visited_urls st)
                             (links (scrape_page url)) tv) as H.
    destruct (classify_links _ _) as [pl ol].
    destruct H as [_ E]; [by apply NoDup_cons in Hnd as [_ ?]|].
    cbn [to_visit visited_urls scraped_log].
    split; [|split; [done|by intros ? ? [= <- <-]]].
    intros u Hu. destruct (E u Hu) as [Hin|[Hin _]]; [apply Hdom; by right|].
    rewrite Hlinks in Hin. apply elem_of_extract_links in Hin as [Hn _].
    by rewrite Hn.
  - cbn [to_visit visited_urls scraped_log].
    split; [intros u Hu; apply Hdom; by right|].
    split; [done|by intros ? ? [= <- <-]].
Qed.

(** X17. [_extract_links] returns each link once, and every link it
    returns is on the host of the page: it comes from an [href] value that
    is not empty, holds no quote and does not start with "#",
    "javascript:", "mailto:" or "tel:", and it is that value itself when
    the value starts with "http", otherwise the value resolved against the
    page's URL. *)
Theorem extract_links_same_host (html base_url : str) :
  NoDup (_extract_links netloc urljoin html base_url)
  /\ (forall link, link ∈ _extract_links netloc urljoin html base_url ->
        netloc link = netloc base_url
        /\ exists href,
             href <> [] /\ Forall (fun c => not_quote c = true) href
             /\ skipped_href href = false
             /\ link = (if startswith (txt "http") href then href
                        else urljoin base_url href)).
Proof.
  split; [unfold _extract_links, list_set; apply NoDup_elements|].
  intros link. apply elem_of_extract_links.
Qed.

(** X18. When the links of every page are those [_extract_links] finds in
    its HTML, the crawl only ever lists URLs of the start URL's host. So,
    with the list free of visited URLs, every turn of the loop fetches the
    URL it takes from the list: neither the "already visited" test nor the
    "same domain" test skips one, and the visited URLs are exactly the
    fetched ones. *)
Theorem crawl_fetches_every_listed_url (scrape_page : str -> ScrapedPage)
    (base_url : str) (n : nat) :
  (forall u, links (scrape_page u)
             = _extract_links netloc urljoin (html_content (scrape_page u)) u) ->
  let body := loop_body scrape_page netloc (netloc base_url) in
  let st := Nat.iter n body (crawl_init base_url) in
  (forall u, u ∈ to_visit st -> netloc u = netloc base_url)
  /\ visited_urls st = list_to_set (scraped_log st)
  /\ (forall url tv, to_visit st = url :: tv ->
        scraped_log (body st) = scraped_log st ++ [url]).
Proof.
  intros Hlinks. cbv zeta.
  assert (H : forall k,
             let st := Nat.iter k (loop_body scrape_page netloc (netloc base_url))
                                (crawl_init base_url) in
             queue_inv st
             /\ (forall u, u ∈ to_visit st -> netloc u = netloc base_url)
             /\ visited_urls st = list_to_set (scraped_log st)).
  { induction k as [|k IH]; cbn [Nat.iter nat_rect].
    - split; [split; [apply NoDup_singleton|intros u _; cbn; set_solver]|].
      split; [|done]. intros u Hu%list_elem_of_singleton. by subst.
    - cbv zeta in IH. destruct IH as (Hq & Hd & Hvs).
      split; [by apply queue_inv_body|].
      destruct (fetch_all_body scrape_page base_url _ Hlinks Hq Hd Hvs)
        as (H1 & H2 & _). by split. }
  destruct (H n) as (Hq & Hd & Hvs). split; [done|]. split; [done|].
  by destruct (fetch_all_body scrape_page base_url _ Hlinks Hq Hd Hvs)
    as (_ & _ & H3).
Qed.

End ExtractLinksFacts.

Lemma extract_links_sample :
  _extract_links sample_netloc sample_urljoin
    (txt "<a HREF='/about'>A</a> <a href='mailto:tu@x.sch.id'>M</a> <a href='#top'>T</a>")
    (txt "https://x.sch.id")
  = [txt "https://x.sch.id/about"].
Proof. vm_compute. reflexivity. Qed.

Lemma extract_links_same_host_witness :
  sample_netloc (txt "https://x.sch.id/about") = sample_netloc (txt "https://x.sch.id").
Proof.
  assert (H : txt "https://x.sch.id/about"
              ∈ _extract_links sample_netloc sample_urljoin
                  (txt "<a HREF='/about'>A</a> <a href='mailto:tu@x.sch.id'>M</a> <a href='#top'>T</a>")
                  (txt "https://x.sch.id")).
  { rewrite extract_links_sample. left. }
  exact (proj1 (proj2 (extract_links_same_host sample_netloc sample_urljoin _ _)
                      _ H)).
Defined.

Lemma crawl_fetches_every_listed_url_witness :
  visited_urls (Nat.iter 2 (loop_body site_page sample_netloc
                                      (sample_netloc url_root))
                         (crawl_init url_root))
  = list_to_set (scraped_log
                   (Nat.iter 2 (loop_body site_page sample_netloc
                                          (sample_netloc url_root))
                             (crawl_init url_root))).
Proof.
  exact (proj1 (proj2 (crawl_fetches_every_listed_url
                         sample_netloc sample_urljoin site_page url_root 2
                         (fun u => eq_refl)))).
Defined.

(** ** Fetching one page *)

Section ScrapePageFacts.

Context {World Exception : Type} (exn_str : Exception -> str).
Context (netloc : str -> str) (urljoin : str -> str -> str).
Context (_crawl4ai_available : bool).
Context (arun : str -> World -> World * (Exception + Crawl4ai.result)).
Context (playwright : str -> World -> World * (Exception + Playwright.result)).

Let fetch :=
  scrape_page World Exception exn_str netloc urljoin _crawl4ai_available
              arun playwright.

(** What holds of every page a fetch gives. *)
Lemma scrape_page_well_formed (url0 : str) (w : World) :
  let page := (fetch url0 w).2 in
  url page = url0
  /\ (success page = false ->
      title page = [] /\ html_content page = [] /\ text_content page = []
      /\ links page = [] /\ is_Some (error page))
  /\ (success page = true ->
      error page = None /\ non_html url0 = false
      /\ links page = _extract_links netloc urljoin (html_content page) url0).
Proof.
  cbv zeta. unfold fetch, scrape_page.
  destruct (non_html url0) eqn:Hn; [cbn; by eauto 10|].
  assert (Hp : let page := (_scrape_with_playwright World Exception exn_str
                              netloc urljoin playwright url0 w).2 in
               url page = url0
               /\ (success page = false ->
                   title page = [] /\ html_content page = []
                   /\ text_content page = [] /\ links page = []
                   /\ is_Some (error page))
               /\ (success page = true ->
                   error page = None /\ false = false
                   /\ links page
                      = _extract_links netloc urljoin (html_content page) url0)).
  { cbv zeta. unfold _scrape_with_playwright.
    destruct (playwright url0 w) as [w' [e|r]]; cbn; by eauto 10. }
  destruct _crawl4ai_available; [|exact Hp].
  unfold _scrape_with_crawl4ai.
  destruct (arun url0 w) as [w' [e|r]]; [|cbn; by eauto 10].
  clear Hp. unfold _scrape_with_playwright.
  destruct (playwright url0 w') as [w'' [e'|r]]; cbn; by eauto 10.
Qed.

(** X19. [scrape_page] always answers with a page for the URL it was
    asked, whatever the browsers raise. A URL that ends, in any case of
    letters, in one of the skipped extensions is not fetched at all: the
    world is untouched and the page is a failure "Skipped non-HTML". A
    failed page has no title, no content and no links, and an error text;
    a successful page has no error, and its links are the ones
    [_extract_links] finds in its HTML, all on the host of the URL. When
    the first browser raises, the answer is the second browser's, run
    after it. *)
Theorem scrape_page_total (url0 : str) (w : World) :
  let page := (fetch url0 w).2 in
  url page = url0
  /\ (non_html url0 = true ->
      fetch url0 w = (w, failure url0 (txt "Skipped non-HTML")))
  /\ (success page = false ->
      title page = [] /\ html_content page = [] /\ text_content page = []
      /\ links page = [] /\ is_Some (error page))
  /\ (success page = true ->
      error page = None /\ non_html url0 = false
      /\ links page = _extract_links netloc urljoin (html_content page) url0
      /\ forall link, link ∈ links page -> netloc link = netloc url0)
  /\ (forall w' e, non_html url0 = false -> _crawl4ai_available = true ->
        arun url0 w = (w', inl e) ->
        fetch url0 w
        = _scrape_with_playwright World Exception exn_str netloc urljoin
                                  playwright url0 w').
Proof.
  cbv zeta. destruct (scrape_page_well_formed url0 w) as (H1 & H2 & H3).
  split; [exact H1|]. split; [|split; [exact H2|split]].
  - intros Hn. unfold fetch, scrape_page. by rewrite Hn.
  - intros Hok. destruct (H3 Hok) as (E1 & E2 & E3).
    repeat split; try done. intros link Hl. rewrite E3 in Hl.
    by apply elem_of_extract_links in Hl as [? _].
  - intros w' e Hn Ha Hr. unfold fetch, scrape_page.
    rewrite Hn, Ha. unfold _scrape_with_crawl4ai. by rewrite Hr.
Qed.

End ScrapePageFacts.

Lemma scrape_page_total_witness :
  scrape_page nat str id sample_netloc sample_urljoin true
              broken_browser broken_browser
              (txt "https://x.sch.id/Brosur.PDF") 0
  = (0, failure (txt "https://x.sch.id/Brosur.PDF") (txt "Skipped non-HTML"))
  /\ scrape_page nat str id sample_netloc sample_urljoin true
                 broken_browser broken_browser (txt "https://x.sch.id/") 0
     = (2, failure (txt "https://x.sch.id/") (txt "timeout")).
Proof.
  split.
  - apply (proj1 (proj2 (scrape_page_total id sample_netloc sample_urljoin true
                           broken_browser broken_browser
                           (txt "https://x.sch.id/Brosur.PDF") 0))).
    vm_compute. reflexivity.
  - rewrite (proj2 (proj2 (proj2 (proj2
               (scrape_page_total id sample_netloc sample_urljoin true
                  broken_browser broken_browser (txt "https://x.sch.id/") 0))))
               1 (txt "timeout")); reflexivity.
Defined.

(** ** Reading the search results *)

(** X20. [find_official_website] returns a URL of the "website",
    "contacts", "local" and "foundation" results, read in that order, that
    holds none of the skipped domains: the first such URL with ".sch.id"
    or ".ac.id" in it if there is one, even when other URLs come before
    it, and otherwise the first such URL; it returns [None] exactly when
    every URL of these results holds a skipped domain. *)
Theorem find_official_website_choice (results : SearchResults) :
  (forall url, find_official_website results = Some url ->
     skipped_url url = false
     /\ exists before after,
          all_urls results = before ++ url :: after
          /\ ((school_domain url = true
               /\ Forall (fun u => skipped_url u = true \/ school_domain u = false)
                         before)
              \/ (Forall (fun u => skipped_url u = true \/ school_domain u = false)
                         (all_urls results)
                  /\ Forall (fun u => skipped_url u = true) before)))
  /\ (find_official_website results = None
      <-> Forall (fun u => skipped_url u = true) (all_urls results))
  /\ (forall u, u ∈ all_urls results -> skipped_url u = false ->
        school_domain u = true ->
        exists url, find_official_website results = Some url
                    /\ school_domain url = true).
Proof.
  unfold find_official_website. set (urls := all_urls results).
  assert (Hnone : forall (f : str -> bool) (l : list str),
             List.find f l = None <-> Forall (fun u => f u = false) l).
  { intros f l. split.
    - intros H. apply List.Forall_forall. intros u Hu.
      by apply (List.find_none _ _ H).
    - intros H. destruct (List.find f l) as [u|] eqn:E; [|done].
      apply List.find_some in E as [Hin Hf].
      rewrite List.Forall_forall in H. specialize (H u Hin). congruence. }
  assert (Hb : forall u, (negb (skipped_url u) && school_domain u) = false
                         <-> skipped_url u = true \/ school_domain u = false).
  { intros u. destruct (skipped_url u), (school_domain u); cbn; naive_solver. }
  split; [|split].
  - intros url.
    destruct (List.find (fun u => negb (skipped_url u) && school_domain u) urls)
      as [u1|] eqn:E1.
    + intros [= ->]. apply find_split in E1 as (b & a & Hs & Hf & Hbf).
      apply andb_prop in Hf as [Hf1 Hf2]. apply negb_true_iff in Hf1.
      split; [done|]. exists b, a. split; [done|]. left. split; [done|].
      eapply Forall_impl; [exact Hbf|]. intros u. apply Hb.
    + intros (b & a & Hs & Hf & Hbf)%find_split. apply negb_true_iff in Hf.
      split; [done|]. exists b, a. split; [done|]. right. split.
      * apply Hnone in E1. eapply Forall_impl; [exact E1|]. intros u. apply Hb.
      * eapply Forall_impl; [exact Hbf|]. intros u. by rewrite negb_false_iff.
  - destruct (List.find (fun u => negb (skipped_url u) && school_domain u) urls)
      as [u1|] eqn:E1.
    + split; [done|]. intros H. apply List.find_some in E1 as [Hin Hf].
      rewrite List.Forall_forall in H. rewrite (H u1 Hin) in Hf. done.
    + rewrite Hnone. split; intros H; (eapply Forall_impl; [exact H|]);
        intros u; by rewrite negb_false_iff.
  - intros u Hu Hs Hd.
    destruct (List.find (fun u => negb (skipped_url u) && school_domain u) urls)
      as [u1|] eqn:E1.
    + exists u1. split; [done|]. apply List.find_some in E1 as [_ Hf].
      by apply andb_prop in Hf as [_ ?].
    + apply Hnone in E1. rewrite Forall_forall in E1. specialize (E1 u Hu).
      by rewrite Hs, Hd in E1.
Qed.

Lemma find_official_website_choice_witness :
  find_official_website sample_results = Some (txt "https://www.sekolahx.sch.id/")
  /\ skipped_url (txt "https://www.sekolahx.sch.id/") = false.
Proof.
  assert (H : find_official_website sample_results
              = Some (txt "https://www.sekolahx.sch.id/"))
    by (vm_compute; reflexivity).
  split; [exact H|].
  exact (proj1 (proj1 (find_official_website_choice sample_results) _ H)).
Defined.

Lemma contains_app_l (a b s : str) : contains (a ++ b) s = true -> contains a s = true.
Proof.
  induction s as [|c s IH]; cbn [contains].
  - rewrite orb_false_r. intros [r Hr]%startswith_spec.
    destruct a; [done|]. by destruct b.
  - intros [H|H]%orb_prop.
    + apply startswith_spec in H as [r Hr]. apply orb_true_intro. left.
      apply startswith_spec. exists (b ++ r). by rewrite Hr, <- app_assoc.
    + apply orb_true_intro. right. by apply IH.
Qed.

(** X21. [find_linkedin_profiles] returns, category by category and in
    result order, exactly the results whose URL holds "linkedin.com/in/"
    in any case of letters. Each of them is a LinkedIn result for
    [SearchResult.is_linkedin], and its URL is accepted unchanged by
    [DecisionMaker.validate_linkedin]. *)
Theorem find_linkedin_profiles_valid (results : SearchResults) :
  (forall item,
     item ∈ find_linkedin_profiles results
     <-> (exists key items, (key, items) ∈ results /\ item ∈ items)
         /\ contains (txt "linkedin.com/in/") (lower (SearchResult.url item))
            = true)
  /\ (forall item, item ∈ find_linkedin_profiles results ->
        is_linkedin item = true
        /\ validate_linkedin (Some (SearchResult.url item))
           = Some (SearchResult.url item)).
Proof.
  assert (H : forall item,
             item ∈ find_linkedin_profiles results
             <-> (exists key items, (key, items) ∈ results /\ item ∈ items)
                 /\ contains (txt "linkedin.com/in/")
                             (lower (SearchResult.url item)) = true).
  { intros item. unfold find_linkedin_profiles. rewrite list_elem_of_join. split.
    - intros (l & Hi & ([k items] & -> & Hkv)%list_elem_of_fmap).
      apply list_elem_of_In, List.filter_In in Hi as [Hi Hc].
      apply list_elem_of_In in Hi. split; [|done]. by exists k, items.
    - intros [(k & items & Hkv & Hi) Hc].
      exists (List.filter
                (fun item => contains (txt "linkedin.com/in/")
                                      (lower (SearchResult.url item))) items).
      split.
      + apply list_elem_of_In, List.filter_In. split; [|done].
        by apply list_elem_of_In.
      + apply list_elem_of_fmap. by exists (k, items). }
  split; [exact H|]. intros item [_ Hc]%H.
  assert (Hl : contains (txt "linkedin.com") (lower (SearchResult.url item)) = true).
  { apply (contains_app_l (txt "linkedin.com") (txt "/in/")). exact Hc. }
  split; [exact Hl|]. unfold validate_linkedin.
  destruct (SearchResult.url item) as [|c u] eqn:E; [done|]. by rewrite Hl.
Qed.

Lemma find_linkedin_profiles_valid_witness :
  validate_linkedin (Some (txt "https://id.LinkedIn.com/in/budi"))
  = Some (txt "https://id.LinkedIn.com/in/budi").
Proof.
  apply (proj2 (proj2 (find_linkedin_profiles_valid sample_results)
                      (hit "https://id.LinkedIn.com/in/budi")
                      ltac:(vm_compute; left))).
Defined.

(** ** E-mail verification *)

Section VerifyEmailFacts.

Context {World Exception : Type} (validate_email : str -> option str).
Context (_check_mx_record : str -> World -> World * (Exception + list str)).
Context (_smtp_handshake :
           str -> option str -> World -> World * (Exception + bool)).

Let verify :=
  verify_email_live World Exception validate_email _check_mx_record
                    _smtp_handshake.

Let verify_all_emails :=
  verify_emails World Exception validate_email _check_mx_record _smtp_handshake.

(** The facts about a freshly computed result, once the look-ups are
    done. *)
Ltac fresh_result Hins Hnew Hg :=
  rewrite lookup_insert_eq;
  split; [done|]; split; [apply Hins|];
  split; [intros ? ?; apply Hnew; by apply Hg|];
  split; [done|]; split; [done|]; intros _; split; [|done];
  split; [by eauto|done].

(** One call: what it returns is stored under the lower-cased address, a
    stored result is returned as it is without any look-up, and a fresh
    result is graded. *)
Lemma verify_email_live_step (email : str) (cache : gmap str email_result)
    (w : World) :
  let '(r, cache', w') := verify email cache w in
  cache' !! lower email = Some r
  /\ (forall k r0, cache !! k = Some r0 -> cache' !! k = Some r0)
  /\ (forall k r0, cache' !! k = Some r0 ->
        cache !! k = Some r0 \/ (k = lower email /\ r0 = r /\ graded r))
  /\ (forall r0, cache !! lower email = Some r0 ->
        r = r0 /\ cache' = cache /\ w' = w)
  /\ (validate_email email = None -> w' = w)
  /\ (cache !! lower email = None ->
        (is_valid_syntax r = true <-> is_Some (validate_email email))
        /\ is_personal r = is_valid_syntax r && personal_address email).
Proof.
  unfold verify, verify_email_live.
  destruct (cache !! lower email) as [cached|] eqn:Hc.
  { repeat split; try done; eauto; congruence. }
  assert (Hins : forall (r : email_result) k r0,
             cache !! k = Some r0 -> <[lower email := r]> cache !! k = Some r0).
  { intros r k r0 Hk. rewrite lookup_insert_ne; [done|]. intros <-. congruence. }
  assert (Hnew : forall (r : email_result) k r0,
             graded r ->
             <[lower email := r]> cache !! k = Some r0 ->
             cache !! k = Some r0 \/ (k = lower email /\ r0 = r /\ graded r)).
  { intros r k r0 Hg. destruct (decide (k = lower email)) as [->|Hne].
    - rewrite lookup_insert_eq. intros [= <-]. by right.
    - rewrite lookup_insert_ne by done. by left. }
  assert (Hg : forall mx smtp p,
             (smtp = true -> mx = true) ->
             graded (mkEmailResult true mx smtp p (true && mx && smtp))).
  { intros mx smtp p H. by repeat split. }
  destruct (validate_email email) as [domain|] eqn:Hv.
  2:{ cbn zeta. rewrite lookup_insert_eq.
      split; [done|]. split; [apply Hins|].
      split; [intros k r0; by apply Hnew|].
      split; [done|]. split; [done|]. intros _. split; [|done].
      split; [done|by intros [? [=]]]. }
  cbn zeta. destruct (_check_mx_record domain w) as [w1 mx].
  set (mx_records := match mx with inr l => l | inl _ => [] end).
  destruct (0 <? length mx_records) eqn:Hmx.
  - destruct (_smtp_handshake domain (head mx_records) w1) as [w2 [e|b]];
      fresh_result Hins Hnew Hg.
  - fresh_result Hins Hnew Hg.
Qed.

Lemma verify_emails_graded (calls : list str) (cache : gmap str email_result)
    (w : World) :
  (forall k r, cache !! k = Some r -> graded r) ->
  forall k r, (verify_all_emails calls cache w).1 !! k = Some r -> graded r.
Proof.
  revert cache w. induction calls as [|email calls IH]; intros cache w Hc; [done|].
  unfold verify_all_emails. cbn [verify_emails]. fold verify verify_all_emails.
  pose proof (verify_email_live_step email cache w) as Hs.
  destruct (verify email cache w) as [[r c'] w'].
  apply IH. intros k r0 Hk.
  destruct Hs as (_ & _ & Hnew & _).
  destruct (Hnew k r0 Hk) as [Hold|(_ & -> & Hg)]; [by apply (Hc k)|done].
Qed.

(** X22. [verify_email_live] never raises, whatever the DNS and SMTP
    look-ups do, and on a validator that starts with an empty cache, after
    any calls: the answer is graded, that is [is_live] holds exactly when
    the syntax is valid, an MX record was found and the SMTP handshake
    succeeded, and each of these checks is only passed when the one before
    it was; an address with invalid syntax gets the all-false answer
    without any look-up; the answer is stored under the lower-cased
    address, and a later call for an address that differs at most in the
    case of its letters returns the same answer without any look-up and
    without changing the cache. *)
Theorem verify_email_live_cached (calls : list str) (email : str) (w : World) :
  let '(cache, w0) := verify_all_emails calls ∅ w in
  let '(r, cache', w') := verify email cache w0 in
  graded r
  /\ cache' !! lower email = Some r
  /\ (forall email', lower email' = lower email ->
        verify email' cache' w' = (r, cache', w'))
  /\ (cache !! lower email = None -> validate_email email = None ->
        r = mkEmailResult false false false false false /\ w' = w0)
  /\ (cache !! lower email = None ->
        is_personal r = is_valid_syntax r && personal_address email).
Proof.
  pose proof (verify_emails_graded calls ∅ w) as Hinv.
  destruct (verify_all_emails calls ∅ w) as [cache w0]. cbn [fst] in Hinv.
  assert (Hc : forall k r, cache !! k = Some r -> graded r).
  { apply Hinv. intros k r. by rewrite lookup_empty. }
  clear Hinv.
  pose proof (verify_email_live_step email cache w0) as Hs.
  destruct (verify email cache w0) as [[r cache'] w'] eqn:E.
  destruct Hs as (Hst & Hkeep & Hnew & Hhit & Hbad & Hfresh).
  split; [|split; [done|split; [|split]]].
  - destruct (Hnew _ _ Hst) as [Hold|(_ & _ & Hg)]; [by apply (Hc _ _ Hold)|done].
  - intros email' He. unfold verify, verify_email_live. by rewrite He, Hst.
  - intros Hnone Hv. split; [|by apply Hbad].
    unfold verify, verify_email_live in E. rewrite Hnone, Hv in E.
    by injection E as <- _ _.
  - intros Hnone. by apply Hfresh.
Qed.

End VerifyEmailFacts.

Lemma verify_email_live_cached_witness :
  let '(r, cache, w) :=
    verify_email_live nat str sample_validate_email sample_mx sample_smtp
                      (txt "Info@x.sch.id") ∅ 0 in
  verify_email_live nat str sample_validate_email sample_mx sample_smtp
                    (txt "INFO@X.sch.id") cache w
  = (r, cache, w).
Proof.
  pose proof (verify_email_live_cached sample_validate_email sample_mx
                sample_smtp [] (txt "Info@x.sch.id") 0) as H.
  cbn [verify_emails] in H.
  destruct (verify_email_live nat str sample_validate_email sample_mx
              sample_smtp (txt "Info@x.sch.id") ∅ 0) as [[r cache] w].
  exact (proj1 (proj2 (proj2 H)) (txt "INFO@X.sch.id") eq_refl).
Defined.

(** ** The result of one school *)

Section SchoolOutcome.

Context {World Exception : Type} (exn_str : Exception -> str).
Context {SearchOut ScrapeOut : Type}.
Context (search_phase : SchoolInput -> World -> World * (Exception + SearchOut)).
Context (count_results : SearchOut -> nat) (has_official_url : SearchOut -> bool).
Context (scrape_phase :
           SchoolInput -> SearchOut -> World -> World * (Exception + ScrapeOut)).
Context (count_pages : ScrapeOut -> nat) (no_scrape : ScrapeOut).
Context (extract_and_merge :
           SchoolInput -> SearchOut -> ScrapeOut -> World
           -> World * (Exception + SchoolData)).
Context (validate_contacts :
           SchoolData -> World -> World * (Exception + SchoolData)).

Let run_school :=
  enrich_school World Exception exn_str SearchOut ScrapeOut search_phase
                count_results has_official_url scrape_phase count_pages
                no_scrape extract_and_merge validate_contacts.

(** The facts of one way through the pipeline, once the collaborators'
    answers are fixed. *)
Ltac outcome_case :=
  repeat split; try done; eauto; try (by intros [? ?]); try congruence;
  try (intros; congruence);
  try (intros ? ? Heq; injection Heq as <- <-; reflexivity);
  try (intros ? Hdata; injection Hdata as <-; eauto).

(** X23. The result of [enrich_school] carries data exactly when its
    status is [COMPLETED], and an error message exactly when it is not;
    the data of a completed result is what the contact validation returned
    for the deduplicated extraction. When the search raises, nothing else
    is attempted: the world is the one the search left, and both counters
    are 0. The page counter is 0 whenever the search found no official
    URL, and otherwise the search counter is the number of results
    found, also when a later phase fails. *)
Theorem enrich_school_data_iff_completed (school : SchoolInput) (w : World) :
  let r := (run_school school w).1 in
  (status r = COMPLETED <-> is_Some (school_data r))
  /\ (status r = COMPLETED <-> error_message r = None)
  /\ (forall data, school_data r = Some data ->
        exists data0 w1 w2,
          validate_contacts (validate_and_deduplicate data0) w1 = (w2, inr data)
          /\ (run_school school w).2 = w2)
  /\ (forall w0 e, search_phase school w = (w0, inl e) ->
        run_school school w
        = (mkResult school None FAILED (Some (exn_str e)) 0 0, w0))
  /\ (forall w0 found, search_phase school w = (w0, inr found) ->
        search_results_count r = count_results found
        /\ (has_official_url found = false -> pages_scraped r = 0)).
Proof.
  cbv zeta. unfold run_school, enrich_school, pipeline, bind, call, update, ret.
  cbn.
  destruct (search_phase school w) as [w0 [e|found]] eqn:Hs; cbn;
    [outcome_case|].
  destruct (has_official_url found) eqn:Hu; cbn.
  - destruct (scrape_phase school found w0) as [w1 [e|scraped]]; cbn;
      [outcome_case|].
    destruct (extract_and_merge school found scraped w1) as [w2 [e|data]]; cbn;
      [outcome_case|].
    destruct (validate_contacts (validate_and_deduplicate data) w2)
      as [w3 [e|data']] eqn:Hv; cbn; outcome_case.
  - destruct (extract_and_merge school found no_scrape w0) as [w2 [e|data]]; cbn;
      [outcome_case|].
    destruct (validate_contacts (validate_and_deduplicate data) w2)
      as [w3 [e|data']] eqn:Hv; cbn; outcome_case.
Qed.

End SchoolOutcome.

Lemma enrich_school_data_iff_completed_witness :
  enrich_school nat str id unit unit sample_search (fun _ => 1)
                (fun _ => true) sample_scrape (fun _ => 1) tt
                sample_extract sample_validate (sample_input "bad") 0
  = (mkResult (sample_input "bad") None FAILED
              (Some (id (txt "search failed"))) 0 0, 1).
Proof.
  apply (proj1 (proj2 (proj2 (proj2
           (enrich_school_data_iff_completed id sample_search (fun _ => 1)
              (fun _ => true) sample_scrape (fun _ => 1) tt sample_extract
              sample_validate (sample_input "bad") 0))))).
  reflexivity.
Defined.
